(** * export-mail: a shallow embedding of the fetch, staging and pipeline code

    The development follows the TypeScript sources:
    - [src/auth/AuthManager.ts]      (module [Auth]),
    - [src/email/EmailDownloader.ts] (module [Downloader]),
    - [index.ts], the [full] command (module [Cli]),
    - the MBOX "From " quoting rule, whose source file
      ([src/export/MboxExporter.ts]) is not available (module [Mbox]).

    Conventions of the embedding.
    - A JavaScript string is a sequence of UTF-16 code units; the model keeps
      the code units below 256 (Rocq's [ascii]).
    - JavaScript numbers that hold counts, limits, offsets and time values are
      integers here ([Z]).
    - Asynchronous code is sequential ([await] at every call), so it is
      written in a state-and-exception monad [M] over a [World]: the log of
      everything the program did to the outside, and the files it wrote.
    - The outside (HTTP provider, disk, clock, MSAL) is an [Env]: each of its
      answers may depend on the whole history of events so far.
    - A file is named by its directory and its name in it, the two arguments
      of [join]; the bearer token travels with every request and is not part
      of the events. *)

From stdpp Require Import base gmap strings list fin_maps.
From Stdlib Require Import ZArith Lia Ascii String.
From Equations Require Import Equations.
From Equations.Prop Require Import Logic.

Local Open Scope string_scope.
Local Open Scope Z_scope.

(** ** Strings as code units *)

Module Str.

Definition code (c : ascii) : N := N_of_ascii c.

Definition in_range (lo hi : N) (c : ascii) : bool :=
  ((lo <=? code c) && (code c <=? hi))%N.

Definition is_upper (c : ascii) : bool := in_range 65 90 c.
Definition is_lower (c : ascii) : bool := in_range 97 122 c.
Definition is_digit (c : ascii) : bool := in_range 48 57 c.

(** The character class [\s] of a JavaScript regular expression, on the
    code units below 256: TAB, LF, VT, FF, CR, SPACE and NBSP. *)
Definition is_space (c : ascii) : bool :=
  in_range 9 13 c || (code c =? 32)%N || (code c =? 160)%N.

(** [String.prototype.toLowerCase] on one code unit below 256: A-Z, and the
    Latin-1 capitals U+00C0..U+00DE except the multiplication sign. *)
Definition lower_char (c : ascii) : ascii :=
  if is_upper c || (in_range 192 222 c && negb (code c =? 215)%N)
  then ascii_of_N (code c + 32)
  else c.

Fixpoint toLowerCase (s : string) : string :=
  match s with
  | EmptyString => EmptyString
  | String c s' => String (lower_char c) (toLowerCase s')
  end.

Fixpoint filter (p : ascii -> bool) (s : string) : string :=
  match s with
  | EmptyString => EmptyString
  | String c s' => if p c then String c (filter p s') else filter p s'
  end.

Fixpoint all (p : ascii -> bool) (s : string) : bool :=
  match s with
  | EmptyString => true
  | String c s' => p c && all p s'
  end.

(** [s.substring(0, n)] *)
Fixpoint take (n : nat) (s : string) : string :=
  match n, s with
  | O, _ => EmptyString
  | S _, EmptyString => EmptyString
  | S n', String c s' => String c (take n' s')
  end.

(** [s.startsWith(p)] *)
Fixpoint starts_with (p s : string) : bool :=
  match p, s with
  | EmptyString, _ => true
  | String _ _, EmptyString => false
  | String a p', String b s' => if Ascii.eqb a b then starts_with p' s' else false
  end.

Definition is_empty (s : string) : bool :=
  match s with EmptyString => true | _ => false end.

End Str.

(** ** Data model ([src/types/index.ts]) *)

Record EmailAddress := { addr_name : string; addr_address : string }.

Inductive BodyType := BodyText | BodyHtml.

Record EmailBody := { contentType : BodyType; content : string }.

Record EmailAttachment := {
  att_id : string;
  att_name : string;
  att_contentType : string;
  att_size : Z;
  att_isInline : bool;
  att_contentBytes : option string;
  att_contentId : option string
}.

Inductive Importance := Low | Normal | High.

Record EmailMessage := {
  id : string;
  subject : string;
  sender : EmailAddress;                      (* [from] *)
  toRecipients : list EmailAddress;
  receivedDateTime : string;
  sentDateTime : string;
  body : EmailBody;
  attachments : option (list EmailAttachment); (* [attachments?] *)
  importance : Importance;
  isRead : bool;
  isDraft : bool;
  hasAttachments : bool
}.

(** [email.attachments = a] *)
Definition set_attachments (e : EmailMessage) (a : option (list EmailAttachment)) : EmailMessage :=
  {| id := id e; subject := subject e; sender := sender e;
     toRecipients := toRecipients e; receivedDateTime := receivedDateTime e;
     sentDateTime := sentDateTime e; body := body e; attachments := a;
     importance := importance e; isRead := isRead e; isDraft := isDraft e;
     hasAttachments := hasAttachments e |}.

Record MailFolder := { folder_id : string; displayName : string }.

(** A [Date] object: [new Date(x)] is either a time value (milliseconds) or
    the Invalid Date. *)
Inductive JsDate := InvalidDate | DateAt (ms : Z).

(** The [expiresOn] field of a token read back from the cache file: a falsy
    value (missing, null, empty) is left alone by [getCachedToken], anything
    else goes through [new Date]. *)
Inductive Expiry := ExpiryMissing | ExpiryDate (d : JsDate).

Record AuthToken := {
  accessToken : string;            (* the empty string stands for any falsy value *)
  refreshToken : option string;
  expiresOn : Expiry;
  account : string
}.

(** An option of the command line that carries a date: [new Date(text)],
    with the text [toISOString] gives when the date is valid. *)
Inductive DateOption := BadDate | IsoDate (iso : string).

Record DownloadOptions := {
  folder : string;
  limit : Z;
  fromDate : option DateOption;
  toDate : option DateOption;
  outputPath : string;
  includeAttachments : option bool;
  batchSize : option Z
}.

Record ExportOptions := {
  inputPath : string;
  exp_outputPath : string;
  compress : bool
}.

(** The body of the [$count] response, as [typeof] sees it. *)
Inductive CountData := CountNumber (n : Z) | CountText (s : string) | CountNothing.

(** What [getFolderId] can return: an identifier, or, when the name hits a
    property that the object literal inherits from [Object.prototype], that
    inherited value (a function or an object, not a string). *)
Inductive FolderRef := FolderId (fid : string) | Inherited (prop : string).

(** A staged unit: the record and [downloadedAt]; [KeepFile] is the empty
    [.keep] file. *)
Inductive FileContent :=
| StagedUnit (email : EmailMessage) (downloadedAt : string)
| KeepFile.

(** ** Errors, events, the world *)

Inductive Error :=
| NoAccessToken                      (* "No valid access token available" *)
| FolderNotFound (name : string)     (* "Folder '...' not found" *)
| OutputDirError (cause : Error)     (* "Failed to create output directory: ..." *)
| HttpError (msg : string)           (* a rejected [axios.get] *)
| IoError (msg : string)             (* a rejected [Bun.write] or [Bun.$] *)
| TypeError                          (* a property read on [undefined] *)
| RangeError                         (* "Invalid time value" *)
| MsalError (msg : string).

Inductive LogLevel := Debug | Info | Warn | LError | Success.

Inductive LogMsg :=
| MsgStep (step total batch : Z)
| MsgFound (total : Z)
| MsgProgress (current total : Z)
| MsgFolderFailed (name : string) (e : Error)
| MsgCountFailed (e : Error)
| MsgBatchFailed (e : Error)
| MsgAttachmentsFailed (emailId : string) (e : Error)
| MsgSaveFailed (emailId : string) (e : Error)
| MsgNoToken
| MsgTokenError (e : Error)
| MsgRefreshFailed (e : Error)
| MsgCacheFailed (e : Error)
| MsgAuthStatus (e : Error)
| MsgNotAuthenticated
| MsgPipelineError (e : Error)
| MsgPipelineDone
| MsgHeader
| MsgFooter
| MsgText (s : string).

Inductive SpinnerEvent :=
| SpinStart | SpinText (s : string) | SpinSucceedNone | SpinSucceed (total : Z) | SpinFail.

Inductive Event :=
| EvClock                                                   (* [Date.now()], [new Date()] *)
| EvReadCache                                               (* reading the token cache file *)
| EvWriteCache (ok : bool)
| EvMsalInit (ok : bool)
| EvSilentRefresh
| EvFolderLookup (name : string)                            (* GET /me/mailFolders *)
| EvCount (f : FolderRef) (filter : option string)          (* GET .../messages/$count *)
| EvPage (f : FolderRef) (filter : option string) (top : Z) (skip : option Z)
| EvAttachments (emailId : string)                          (* GET /me/messages/id/attachments *)
| EvWrite (dir name : string) (ok : bool)                   (* [Bun.write(join(dir, name), ...)] *)
| EvRemoveDir (dir : string) (ok : bool)                    (* [rm -rf dir] *)
| EvExport (o : ExportOptions)
| EvLog (level : LogLevel) (msg : LogMsg)
| EvSpinner (s : SpinnerEvent).

Inductive CacheFile := CacheAbsent | CacheUnreadable | CacheToken (t : AuthToken).

Record World := {
  trace : list Event;                          (* oldest first *)
  fs : gmap (string * string) FileContent;     (* (directory, file name) *)
  tokenCache : CacheFile;
  msalInstance : bool                          (* [this.msalInstance !== null] *)
}.

(** An HTTP answer: rejected, or a body.  Where the code reads
    [response.data.value] inside the [try] block of the request, a body that
    is [null] makes that read throw in the same block; it is the answer
    [Rejected TypeError].  An absent [value] field is [Replied None]. *)
Inductive Http (A : Type) := Rejected (e : Error) | Replied (value : A).
Arguments Rejected {A} e.
Arguments Replied {A} value.

Record SilentResult := {
  sr_accessToken : string;
  sr_expiresOn : Expiry;
  sr_account : string
}.

Record Env := {
  env_now : list Event -> Z;
  env_isoNow : list Event -> string;
  env_msalInit : list Event -> option Error;
  env_silent : list Event -> string -> Http (option SilentResult);
  env_cacheWrite : list Event -> option Error;
  env_folders : list Event -> string -> Http (option (list MailFolder));
  env_count : list Event -> FolderRef -> option string -> Http CountData;
  env_page : list Event -> FolderRef -> option string -> Z -> option Z ->
             Http (option (list EmailMessage));
  env_attachments : list Event -> string -> Http (option (list EmailAttachment));
  env_formatDate : string -> option string;
  env_disk : list Event -> string -> string -> option Error;
  env_rm : list Event -> string -> option Error
}.

(** ** The monad *)

Inductive Outcome (A : Type) :=
| Ok (a : A)
| Throw (e : Error)
| Exit (code : Z).          (* [process.exit(code)] *)
Arguments Ok {A} a.
Arguments Throw {A} e.
Arguments Exit {A} code.

Definition M (A : Type) : Type := World -> Outcome A * World.

Definition ret {A} (a : A) : M A := fun w => (Ok a, w).

Definition bind {A B} (m : M A) (k : A -> M B) : M B :=
  fun w =>
    match m w with
    | (Ok a, w') => k a w'
    | (Throw e, w') => (Throw e, w')
    | (Exit c, w') => (Exit c, w')
    end.

Definition throw {A} (e : Error) : M A := fun w => (Throw e, w).

Definition exit {A} (code : Z) : M A := fun w => (Exit code, w).

(** [try { body } catch (error) { handler }] *)
Definition try_catch {A} (body : M A) (handler : Error -> M A) : M A :=
  fun w =>
    match body w with
    | (Throw e, w') => handler e w'
    | r => r
    end.

Notation "'let*' x ':=' m 'in' k" := (bind m (fun x => k))
  (at level 10, x pattern, m at level 100, k at level 200).
Notation "m ';;' k" := (bind m (fun _ => k))
  (at level 100, k at level 200, right associativity).

Definition emit (e : Event) (w : World) : World :=
  {| trace := trace w ++ [e]; fs := fs w; tokenCache := tokenCache w;
     msalInstance := msalInstance w |}.

Definition record (e : Event) : M unit := fun w => (Ok tt, emit e w).

Definition log (level : LogLevel) (msg : LogMsg) : M unit := record (EvLog level msg).

Definition spinner (s : SpinnerEvent) : M unit := record (EvSpinner s).

(** [for (const x of xs) { body }] *)
Fixpoint for_each {A} (body : A -> M unit) (xs : list A) : M unit :=
  match xs with
  | [] => ret tt
  | x :: rest => body x;; for_each body rest
  end.

(** ** [src/auth/AuthManager.ts] *)

Module Auth.
Section WithEnv.

Variable env : Env.

Definition fiveMinutes : Z := 5 * 60 * 1000.

(** [Date.now()] *)
Definition now : M Z :=
  fun w => (Ok (env_now env (trace w)), emit EvClock w).

(** [initializeMsal]: nothing to do when the instance exists; otherwise the
    cache directory is touched and the client is built, which may throw. *)
Definition initializeMsal : M unit :=
  fun w =>
    if msalInstance w then (Ok tt, w)
    else
      match env_msalInit env (trace w) with
      | Some e => (Throw e, emit (EvMsalInit false) w)
      | None =>
          (Ok tt,
           {| trace := trace w ++ [EvMsalInit true]; fs := fs w;
              tokenCache := tokenCache w; msalInstance := true |})
      end.

(** [getCachedToken]: an absent file gives [null]; a file that cannot be
    read or parsed is logged at debug level and gives [null]. *)
Definition getCachedToken : M (option AuthToken) :=
  record EvReadCache;;
  fun w =>
    match tokenCache w with
    | CacheAbsent => (Ok None, w)
    | CacheUnreadable => (Ok None, emit (EvLog Debug (MsgText "Error reading cached token")) w)
    | CacheToken t => (Ok (Some t), w)
    end.

(** What [JSON.stringify] and the [new Date] of [getCachedToken] make of an
    expiry: the Invalid Date is written as [null] and read back as missing. *)
Definition stored_expiry (x : Expiry) : Expiry :=
  match x with
  | ExpiryDate InvalidDate => ExpiryMissing
  | _ => x
  end.

(** [cacheToken]: a failed write is logged and swallowed. *)
Definition cacheToken (t : AuthToken) : M unit :=
  fun w =>
    match env_cacheWrite env (trace w) with
    | Some e => (Ok tt, emit (EvLog Warn (MsgCacheFailed e)) (emit (EvWriteCache false) w))
    | None =>
        (Ok tt,
         {| trace := trace w ++ [EvWriteCache true]; fs := fs w;
            tokenCache :=
              CacheToken {| accessToken := accessToken t; refreshToken := refreshToken t;
                            expiresOn := stored_expiry (expiresOn t);
                            account := account t |};
            msalInstance := msalInstance w |})
    end.

(** [token.expiresOn > fiveMinutesFromNow], both sides as time values; a
    comparison with the Invalid Date is false. *)
Definition expires_after (x : Expiry) (t : Z) : bool :=
  match x with
  | ExpiryDate (DateAt ms) => t <? ms
  | _ => false
  end.

Definition falsy_expiry (x : Expiry) : bool :=
  match x with ExpiryMissing => true | ExpiryDate _ => false end.

(** [isTokenValid] *)
Definition isTokenValid (token : AuthToken) : M bool :=
  if Str.is_empty (accessToken token) || falsy_expiry (expiresOn token)
  then ret false
  else
    let* t := now in
    ret (expires_after (expiresOn token) (t + fiveMinutes)).

(** [isAuthenticated] *)
Definition isAuthenticated : M bool :=
  try_catch
    (let* cachedToken := getCachedToken in
     match cachedToken with
     | None => ret false
     | Some t => isTokenValid t
     end)
    (fun e => log Debug (MsgAuthStatus e);; ret false).

Definition truthy (s : option string) : bool :=
  match s with
  | Some x => negb (Str.is_empty x)
  | None => false
  end.

(** The refresh attempt of [getAccessToken], with its own [try]/[catch]:
    [Some token] when [acquireTokenSilent] produced a result. *)
Definition refresh (cached : AuthToken) : M (option string) :=
  try_catch
    (let* refreshResult :=
       (fun w =>
          match env_silent env (trace w) (account cached) with
          | Rejected e => (Throw e, emit EvSilentRefresh w)
          | Replied r => (Ok r, emit EvSilentRefresh w)
          end) in
     match refreshResult with
     | Some r =>
         cacheToken {| accessToken := sr_accessToken r;
                       refreshToken := refreshToken cached;
                       expiresOn := sr_expiresOn r;
                       account := sr_account r |};;
         ret (Some (sr_accessToken r))
     | None => ret None
     end)
    (fun e => log Debug (MsgRefreshFailed e);; ret None).

(** [getAccessToken] *)
Definition getAccessToken : M (option string) :=
  try_catch
    (initializeMsal;;
     let* cachedToken := getCachedToken in
     let* valid :=
       match cachedToken with
       | Some t => isTokenValid t
       | None => ret false
       end in
     match cachedToken, valid with
     | Some t, true => ret (Some (accessToken t))
     | _, _ =>
         let* refreshed :=
           match cachedToken with
           | Some t => if truthy (refreshToken t) then refresh t else ret None
           | None => ret None
           end in
         match refreshed with
         | Some tok => ret (Some tok)
         | None => log Warn MsgNoToken;; ret None
         end
     end)
    (fun e => log LError (MsgTokenError e);; ret None).

(** [msalInstance.acquireTokenByDeviceCode]: the interactive flow, whose
    answer is given from outside; a [null] result is [Replied None]. *)
Variable deviceCode : list Event -> Http (option SilentResult).

Definition acquireTokenByDeviceCode : M (option SilentResult) :=
  fun w =>
    match deviceCode (trace w) with
    | Rejected e => (Throw e, w)
    | Replied r => (Ok r, w)
    end.

Definition startingInteractive : LogMsg :=
  MsgText "No valid cached token found. Starting interactive authentication...".

(** [authenticate].  The error of the [catch] block is logged without its
    cause. *)
Definition authenticate : M bool :=
  try_catch
    (initializeMsal;;
     log Info MsgHeader;;
     let* cachedToken := getCachedToken in
     let* valid :=
       match cachedToken with
       | Some t => isTokenValid t
       | None => ret false
       end in
     if valid then
       log Success (MsgText "Using cached authentication token");;
       ret true
     else
       log Info startingInteractive;;
       let* authResult := acquireTokenByDeviceCode in
       match authResult with
       | Some r =>
           cacheToken {| accessToken := sr_accessToken r;
                         refreshToken := Some "";
                         expiresOn := sr_expiresOn r;
                         account := sr_account r |};;
           log Success (MsgText "Authentication successful!");;
           log Info MsgFooter;;
           ret true
       | None => ret false
       end)
    (fun e => log LError (MsgText "Authentication failed");; log Info MsgFooter;; ret false).

Definition tokenCachePath : string := "token-cache.json".

(** [rm -f tokenCachePath]: recorded as the removal of that path. *)
Definition removeCacheFile : M unit :=
  fun w =>
    match env_rm env (trace w) tokenCachePath with
    | Some e => (Throw e, emit (EvRemoveDir tokenCachePath false) w)
    | None =>
        (Ok tt,
         {| trace := trace w ++ [EvRemoveDir tokenCachePath true]; fs := fs w;
            tokenCache := CacheAbsent; msalInstance := msalInstance w |})
    end.

(** [clearAuth]: the file is removed when it exists; a failure is logged and
    swallowed. *)
Definition clearAuth : M unit :=
  try_catch
    ((fun w =>
        match tokenCache w with
        | CacheAbsent => (Ok tt, w)
        | _ => removeCacheFile w
        end);;
     log Info (MsgText "Authentication cache cleared"))
    (fun e => log LError (MsgText "Error clearing authentication")).

End WithEnv.
End Auth.

(** ** [src/email/EmailDownloader.ts] *)

Module Downloader.
Section WithEnv.

Variable env : Env.

(** *** Requests and writes *)

Definition getFolders (folderName : string) : M (option (list MailFolder)) :=
  fun w =>
    match env_folders env (trace w) folderName with
    | Rejected e => (Throw e, emit (EvFolderLookup folderName) w)
    | Replied v => (Ok v, emit (EvFolderLookup folderName) w)
    end.

Definition getCount (folderId : FolderRef) (filter : option string) : M CountData :=
  fun w =>
    match env_count env (trace w) folderId filter with
    | Rejected e => (Throw e, emit (EvCount folderId filter) w)
    | Replied v => (Ok v, emit (EvCount folderId filter) w)
    end.

Definition getPage (folderId : FolderRef) (filter : option string) (top : Z)
    (skip : option Z) : M (option (list EmailMessage)) :=
  fun w =>
    match env_page env (trace w) folderId filter top skip with
    | Rejected e => (Throw e, emit (EvPage folderId filter top skip) w)
    | Replied v => (Ok v, emit (EvPage folderId filter top skip) w)
    end.

Definition getAttachments (emailId : string) : M (option (list EmailAttachment)) :=
  fun w =>
    match env_attachments env (trace w) emailId with
    | Rejected e => (Throw e, emit (EvAttachments emailId) w)
    | Replied v => (Ok v, emit (EvAttachments emailId) w)
    end.

(** [await Bun.write(join(dir, name), content)].  The file is kept under
    the pair [(dir, name)], which is the path [join] builds when [name] has
    no path separator; the [..] segments that [join] would resolve in other
    names are not resolved here. *)
Definition write (dir name : string) (c : FileContent) : M unit :=
  fun w =>
    match env_disk env (trace w) dir name with
    | Some e => (Throw e, emit (EvWrite dir name false) w)
    | None =>
        (Ok tt,
         {| trace := trace w ++ [EvWrite dir name true];
            fs := <[(dir, name) := c]> (fs w);
            tokenCache := tokenCache w; msalInstance := msalInstance w |})
    end.

(** [new Date().toISOString()] *)
Definition isoNow : M string :=
  fun w => (Ok (env_isoNow env (trace w)), emit EvClock w).

(** *** [getFolderId] *)

Definition specialFolders : list (string * string) :=
  [("inbox", "inbox"); ("sent", "sentitems"); ("drafts", "drafts");
   ("deleted", "deleteditems"); ("junk", "junkemail")].

(** The properties every object literal inherits from [Object.prototype]. *)
Definition inheritedProperties : list string :=
  ["constructor"; "__proto__"; "hasOwnProperty"; "isPrototypeOf";
   "propertyIsEnumerable"; "toLocaleString"; "toString"; "valueOf";
   "__defineGetter__"; "__defineSetter__"; "__lookupGetter__"; "__lookupSetter__"].

Fixpoint assoc (key : string) (l : list (string * string)) : option string :=
  match l with
  | [] => None
  | (k, v) :: rest => if String.eqb key k then Some v else assoc key rest
  end.

(** [specialFolders[key]]: an own property, else an inherited one, else
    [undefined].  Every value found is truthy. *)
Definition specialFolders_get (key : string) : option FolderRef :=
  match assoc key specialFolders with
  | Some v => Some (FolderId v)
  | None =>
      if existsb (String.eqb key) inheritedProperties
      then Some (Inherited key) else None
  end.

Definition getFolderId (accessToken folderName : string) : M FolderRef :=
  try_catch
    (let normalizedFolderName := Str.toLowerCase folderName in
     match specialFolders_get normalizedFolderName with
     | Some v => ret v
     | None =>
         let* value := getFolders folderName in
         let folders := default [] value in
         match folders with
         | [] => throw (FolderNotFound folderName)
         | f :: _ => ret (FolderId (folder_id f))
         end
     end)
    (fun e => log LError (MsgFolderFailed folderName e);; throw e).

(** *** [buildFilter] *)

(** [date.toISOString()], which throws on the Invalid Date. *)
Definition toISOString (d : DateOption) : M string :=
  match d with
  | BadDate => throw RangeError
  | IsoDate s => ret s
  end.

Definition buildFilter (options : DownloadOptions) : M (option string) :=
  let* ge :=
    match fromDate options with
    | Some d => let* s := toISOString d in ret ["receivedDateTime ge " +:+ s]
    | None => ret []
    end in
  let* le :=
    match toDate options with
    | Some d => let* s := toISOString d in ret ["receivedDateTime le " +:+ s]
    | None => ret []
    end in
  let filters := (ge ++ le)%list in
  ret (match filters with
       | [] => None
       | _ => Some (String.concat " and " filters)
       end).

(** *** [getEmailCount] *)

Definition count_of (data : CountData) : Z :=
  match data with
  | CountNumber n => n
  | _ => 0
  end.

Definition getEmailCount (accessToken : string) (folderId : FolderRef)
    (options : DownloadOptions) : M Z :=
  try_catch
    (let* filter := buildFilter options in
     let* data := getCount folderId filter in
     let count := count_of data in
     ret (Z.min count (limit options)))
    (fun e => log LError (MsgCountFailed e);; throw e).

(** *** [fetchEmailAttachments], [fetchEmailBatch] *)

Definition fetchEmailAttachments (accessToken emailId : string)
    : M (option (list EmailAttachment)) :=
  try_catch
    (getAttachments emailId)
    (fun e => log Debug (MsgAttachmentsFailed emailId e);; ret (Some [])).

(** The body of the [for (const email of emails)] loop: the record is
    updated in place, so the array returned holds the updated record. *)
Definition enrich (accessToken : string) (email : EmailMessage) : M EmailMessage :=
  if hasAttachments email then
    let* a := fetchEmailAttachments accessToken (id email) in
    ret (set_attachments email a)
  else ret email.

Fixpoint enrich_all (accessToken : string) (emails : list EmailMessage)
    : M (list EmailMessage) :=
  match emails with
  | [] => ret []
  | email :: rest =>
      let* email' := enrich accessToken email in
      let* rest' := enrich_all accessToken rest in
      ret (email' :: rest')
  end.

Definition wantsAttachments (options : DownloadOptions) : bool :=
  match includeAttachments options with
  | Some b => b
  | None => false
  end.

(** The result is [response.data.value] as it came: [None] when the field
    is absent, unless attachments were requested, in which case iterating
    over [undefined] throws. *)
Definition fetchEmailBatch (accessToken : string) (folderId : FolderRef)
    (options : DownloadOptions) (batchSize : Z) (skipToken : option Z)
    : M (option (list EmailMessage)) :=
  try_catch
    (let* filter := buildFilter options in
     let* emails := getPage folderId filter batchSize skipToken in
     if wantsAttachments options then
       match emails with
       | None => throw TypeError
       | Some l => let* l' := enrich_all accessToken l in ret (Some l')
       end
     else ret emails)
    (fun e => log LError (MsgBatchFailed e);; throw e).

(** *** [generateEmailFileName], [saveEmailsBatch] *)

(** The class [[a-zA-Z0-9\-_\s]]: what the first [replace] keeps. *)
Definition kept (c : ascii) : bool :=
  Str.is_lower c || Str.is_upper c || Str.is_digit c ||
  Ascii.eqb c "-" || Ascii.eqb c "_" || Str.is_space c.

(** [s.replace(/\s+/g, "_")]: [inRun] tells that the previous code unit was
    white space, whose run already produced its underscore. *)
Fixpoint collapse (inRun : bool) (s : string) : string :=
  match s with
  | EmptyString => EmptyString
  | String c s' =>
      if Str.is_space c then
        if inRun then collapse true s' else String "_" (collapse true s')
      else String c (collapse false s')
  end.

Definition subjectSlug (subject : string) : string :=
  Str.take 50 (collapse false (Str.filter kept subject)).

(** The name, when [format] accepts the date. *)
Definition fileName (email : EmailMessage) : option string :=
  match env_formatDate env (receivedDateTime email) with
  | None => None
  | Some date =>
      Some (date +:+ "_" +:+ subjectSlug (subject email) +:+ "_" +:+ id email +:+ ".json")
  end.

Definition generateEmailFileName (email : EmailMessage) : M string :=
  match fileName email with
  | None => throw RangeError
  | Some name => ret name
  end.

Definition saveEmail (outputPath : string) (email : EmailMessage) : M unit :=
  try_catch
    (let* fileName := generateEmailFileName email in
     let* downloadedAt := isoNow in
     write outputPath fileName (StagedUnit email downloadedAt))
    (fun e => log Warn (MsgSaveFailed (id email) e)).

Definition saveEmailsBatch (emails : list EmailMessage) (outputPath : string) : M unit :=
  for_each (saveEmail outputPath) emails.

(** [ensureOutputDirectory] *)
Definition ensureOutputDirectory (outputPath : string) : M unit :=
  try_catch
    (write outputPath ".keep" KeepFile)
    (fun e => throw (OutputDirError e)).

(** *** [downloadEmailsBatch] *)

Section Batches.

Variables (accessToken : string) (folderId : FolderRef)
          (options : DownloadOptions) (totalEmails : Z).

(** [options.batchSize || 50] *)
Definition effectiveBatchSize : Z :=
  match batchSize options with
  | Some b => if b =? 0 then 50 else b
  | None => 50
  end.

(** [getNextPageToken]: the count rendered in decimal, kept as the number. *)
Definition getNextPageToken (currentCount batchSize : Z) : Z := currentCount.

Definition len (emails : list EmailMessage) : Z := Z.of_nat (List.length emails).

(** One turn of the [while] loop on the loop variables
    [(downloadedCount, skipToken)]: [None] when the loop is left (its
    condition is false, or [break]), the next values otherwise.  Of the
    [progress] object only the message is used; its percentage is left out. *)
Definition iteration (st : Z * option Z) : M (option (Z * option Z)) :=
  let '(downloadedCount, skipToken) := st in
  if (downloadedCount <? totalEmails) && (downloadedCount <? limit options) then
    let remainingEmails :=
      Z.min (Z.min effectiveBatchSize (limit options - downloadedCount))
            (totalEmails - downloadedCount) in
    log Info (MsgStep (downloadedCount + 1) totalEmails remainingEmails);;
    let* emails :=
      fetchEmailBatch accessToken folderId options remainingEmails skipToken in
    match emails with
    | None => throw TypeError                    (* [emails.length] of [undefined] *)
    | Some emails =>
        if len emails =? 0 then ret None         (* [break] *)
        else
          saveEmailsBatch emails (outputPath options);;
          let downloadedCount' := downloadedCount + len emails in
          let skipToken' :=
            if len emails =? remainingEmails
            then Some (getNextPageToken downloadedCount' effectiveBatchSize)
            else None in
          log Info (MsgProgress downloadedCount' totalEmails);;
          ret (Some (downloadedCount', skipToken'))
    end
  else ret None.

(** A turn that goes on has moved [downloadedCount] up, below the total. *)
Lemma iteration_progress st w st' w' :
  iteration st w = (Ok (Some st'), w') ->
  (Z.to_nat (totalEmails - st'.1) < Z.to_nat (totalEmails - st.1))%nat.
Proof.
  destruct st as [d sk]. unfold iteration, bind, ret, throw, log, record.
  destruct (d <? totalEmails) eqn:Hd; simpl; [|discriminate].
  destruct (d <? limit options); simpl; [|discriminate].
  destruct (fetchEmailBatch _ _ _ _ _ _) as [[[l|]| |] w1]; try discriminate.
  destruct (len l =? 0) eqn:Hl; [discriminate|].
  destruct (saveEmailsBatch _ _ _) as [[[]| |] w2]; try discriminate.
  intros [= <- <-]. simpl.
  apply Z.ltb_lt in Hd. apply Z.eqb_neq in Hl. unfold len in *. lia.
Qed.

Equations? while (st : Z * option Z) (w : World) : Outcome unit * World
  by wf (Z.to_nat (totalEmails - st.1)) lt :=
  while st w with inspect (iteration st w) := {
    | exist _ (Ok (Some st'), w') _ := while st' w'
    | exist _ (Ok None, w') _ := (Ok tt, w')
    | exist _ (Throw e, w') _ := (Throw e, w')
    | exist _ (Exit c, w') _ := (Exit c, w') }.
Proof.
  match goal with
  | e : _ = (Ok (Some ?s), ?w1) |- _ => exact (iteration_progress (_, _) _ s w1 e)
  end.
Qed.

Definition downloadEmailsBatch : M unit := while (0, None).

End Batches.

(** *** [downloadEmails] *)

Definition downloadEmails (options : DownloadOptions) : M unit :=
  spinner SpinStart;;
  try_catch
    (log Info MsgHeader;;
     let* accessToken := Auth.getAccessToken env in
     match accessToken with
     | None => throw NoAccessToken
     | Some accessToken =>
         if Str.is_empty accessToken then throw NoAccessToken
         else
           ensureOutputDirectory (outputPath options);;
           spinner (SpinText "Finding target folder...");;
           let* folderId := getFolderId accessToken (folder options) in
           spinner (SpinText "Counting emails...");;
           let* totalEmails := getEmailCount accessToken folderId options in
           if totalEmails =? 0 then
             spinner SpinSucceedNone;;
             log Info MsgFooter
           else
             log Info (MsgFound totalEmails);;
             spinner (SpinText "Downloading emails...");;
             downloadEmailsBatch accessToken folderId options totalEmails;;
             spinner (SpinSucceed totalEmails);;
             log Info MsgFooter
     end)
    (fun e => spinner SpinFail;; throw e).

End WithEnv.
End Downloader.

(** ** [index.ts]: the [full] command *)

Module Cli.
Section WithEnv.

Variable env : Env.

(** [MboxExporter.exportToMbox] lives in a source file that is not
    available; the pipeline is studied for every behaviour it may have. *)
Variable exportToMbox : ExportOptions -> M unit.

(** The parsed options of [full]; [opt_limit] is [parseInt(options.limit)]. *)
Record FullOptions := {
  opt_folder : string;
  opt_limit : Z;
  opt_from : option DateOption;
  opt_to : option DateOption;
  opt_output : string;
  opt_compress : bool
}.

Definition tempDir : string := "./temp-emails".

(** [rm -rf dir]: every file kept under the directory goes.  A failing
    command throws; the files are then taken to be still there, although the
    command may have removed some of them before it failed. *)
Definition removeDir (dir : string) : M unit :=
  fun w =>
    match env_rm env (trace w) dir with
    | Some e => (Throw e, emit (EvRemoveDir dir false) w)
    | None =>
        (Ok tt,
         {| trace := trace w ++ [EvRemoveDir dir true];
            fs := filter (fun kv => kv.1.1 <> dir) (fs w);
            tokenCache := tokenCache w; msalInstance := msalInstance w |})
    end.

Definition downloadOptions (o : FullOptions) : DownloadOptions :=
  {| folder := opt_folder o; limit := opt_limit o;
     fromDate := opt_from o; toDate := opt_to o;
     outputPath := tempDir; includeAttachments := None; batchSize := None |}.

Definition exportOptions (o : FullOptions) : ExportOptions :=
  {| inputPath := tempDir; exp_outputPath := opt_output o;
     compress := opt_compress o |}.

Definition full (o : FullOptions) : M unit :=
  try_catch
    (let* isAuthenticated := Auth.isAuthenticated env in
     (if negb isAuthenticated
      then log LError MsgNotAuthenticated;; exit 1
      else ret tt);;
     Downloader.downloadEmails env (downloadOptions o);;
     exportToMbox (exportOptions o);;
     removeDir tempDir;;
     log Success MsgPipelineDone)
    (fun e => log LError (MsgPipelineError e);; exit 1).

(** The interactive flow of [authenticate], see [Auth.deviceCode]. *)
Variable deviceCode : list Event -> Http (option SilentResult).

(** The [auth] command; [reset] is [options.reset]. *)
Definition auth (reset : bool) : M unit :=
  try_catch
    ((if reset
      then Auth.clearAuth env;; log Info (MsgText "Authentication cleared")
      else ret tt);;
     let* isAuthenticated := Auth.authenticate env deviceCode in
     if isAuthenticated
     then log Success (MsgText "Successfully authenticated with Microsoft Graph API")
     else log LError (MsgText "Authentication failed");; exit 1)
    (fun e => log LError (MsgText "Authentication error");; exit 1).

(** The parsed options of [download]. *)
Record DownloadCmd := {
  dl_folder : string;
  dl_limit : Z;
  dl_from : option DateOption;
  dl_to : option DateOption;
  dl_output : string
}.

Definition downloadCmdOptions (o : DownloadCmd) : DownloadOptions :=
  {| folder := dl_folder o; limit := dl_limit o;
     fromDate := dl_from o; toDate := dl_to o;
     outputPath := dl_output o; includeAttachments := None; batchSize := None |}.

(** The [download] command. *)
Definition download (o : DownloadCmd) : M unit :=
  try_catch
    (let* isAuthenticated := Auth.isAuthenticated env in
     (if negb isAuthenticated
      then log LError MsgNotAuthenticated;; exit 1
      else ret tt);;
     Downloader.downloadEmails env (downloadCmdOptions o);;
     log Success (MsgText "Email download completed"))
    (fun e => log LError (MsgText "Download error");; exit 1).

(** The [export] command, on its parsed options. *)
Definition export (o : ExportOptions) : M unit :=
  try_catch
    (exportToMbox o;;
     log Success (MsgText "MBOX export completed"))
    (fun e => log LError (MsgText "Export error");; exit 1).

End WithEnv.
End Cli.

(** ** [src/utils/logger.ts]: the level filter *)

Module Logger.

(** The table [levels] of [shouldLog]. *)
Definition levels (level : LogLevel) : Z :=
  match level with
  | Debug => 0
  | Info => 1
  | Warn => 2
  | LError => 3
  | Success => 1
  end.

(** [shouldLog(level)] when [this.logLevel] is [logLevel]. *)
Definition shouldLog (logLevel level : LogLevel) : bool :=
  levels logLevel <=? levels level.

End Logger.

(** ** The configuration ([ConfigManager]) *)

Module Config.

Record AppConfig := {
  clientId : string;
  tenantId : string;
  redirectUri : string;
  scopes : list string;
  cachePath : string
}.

(** [defaultConfig]; [cache] is the path [join(homedir(), ".export-mail",
    "auth-cache.json")]. *)
Definition defaultConfig (cache : string) : AppConfig :=
  {| clientId := "14d82eec-204b-4c2f-b7e8-296a70dab67e";
     tenantId := "common";
     redirectUri := "http://localhost:3000";
     scopes := ["https://graph.microsoft.com/Mail.Read";
                "https://graph.microsoft.com/Mail.ReadWrite";
                "https://graph.microsoft.com/User.Read";
                "https://graph.microsoft.com/MailboxSettings.Read"];
     cachePath := cache |}.

Inductive Field := FClientId | FTenantId | FRedirectUri | FScopes.

Definition requiredFields : list Field := [FClientId; FTenantId; FRedirectUri; FScopes].

(** [!config[field]]: an empty string is falsy, an array never is. *)
Definition missing (config : AppConfig) (field : Field) : bool :=
  match field with
  | FClientId => Str.is_empty (clientId config)
  | FTenantId => Str.is_empty (tenantId config)
  | FRedirectUri => Str.is_empty (redirectUri config)
  | FScopes => false
  end.

Definition validateConfig (config : AppConfig) : bool :=
  if existsb (missing config) requiredFields then false
  else if (List.length (scopes config) =? 0)%nat then false
  else true.

(** [getEnvironmentConfig] on the configuration [getConfig] returned. *)
Definition environmentConfig (development : bool) (baseConfig : AppConfig) : AppConfig :=
  if development then
    {| clientId := clientId baseConfig; tenantId := tenantId baseConfig;
       redirectUri := "http://localhost:3000/auth/callback";
       scopes := scopes baseConfig; cachePath := cachePath baseConfig |}
  else baseConfig.

End Config.

(** ** The "From " quoting rule of the MBOX encoder *)

Module Mbox.

Definition LF : ascii := ascii_of_N 10.

(** Modelled from the spec: the lines of a content, [content.split("\n")]
    (missing file [src/export/MboxExporter.ts]). *)
Fixpoint splitLines (s : string) : list string :=
  match s with
  | EmptyString => [EmptyString]
  | String c s' =>
      if Ascii.eqb c LF then EmptyString :: splitLines s'
      else
        match splitLines s' with
        | l :: ls => String c l :: ls
        | [] => [String c EmptyString]
        end
  end.

(** Modelled from the spec: the content of lines, [lines.join("\n")] (same
    missing file). *)
Fixpoint joinLines (ls : list string) : string :=
  match ls with
  | [] => EmptyString
  | [l] => l
  | l :: rest => l +:+ String LF (joinLines rest)
  end.

(** Modelled from the spec: the line without its leading ">" characters
    (same missing file). *)
Fixpoint dropQuotes (s : string) : string :=
  match s with
  | String c s' => if Ascii.eqb c ">" then dropQuotes s' else s
  | EmptyString => s
  end.

(** Modelled from the spec: the quoting rule of the MBOX encoder (section
    4.3, step 4), whose source file [src/export/MboxExporter.ts] is
    missing.  A line that begins with the literal sequence "From ", or
    with one or more ">" followed by "From ", is escaped by prefixing
    one ">"; any other line is emitted as it is. *)
Definition quoteLine (line : string) : string :=
  if Str.starts_with "From " (dropQuotes line) then String ">" line else line.

(** Modelled from the spec: the rule applies to every line of the content
    of an entry (same missing file). *)
Definition quoteContent (content : string) : string :=
  joinLines (map quoteLine (splitLines content)).

End Mbox.

(** * Vocabulary of the statements, and scenarios *)

(** The dates of the options are valid dates (so that [toISOString] does not
    throw). *)
Definition datesValid (options : DownloadOptions) : Prop :=
  fromDate options <> Some BadDate /\ toDate options <> Some BadDate.

(** What [fetchEmailAttachments] makes of the provider's answer at history
    [h]: the [value] of a reply, the empty list for a rejection. *)
Definition fetched (env : Env) (h : list Event) (emailId : string)
    : option (list EmailAttachment) :=
  match env_attachments env h emailId with
  | Replied v => v
  | Rejected _ => Some []
  end.

(** What [fetchEmailAttachments] records for a request sent at history [h]:
    the request, and the debug message when it is rejected. *)
Definition attachmentEvents (env : Env) (h : list Event) (emailId : string)
    : list Event :=
  EvAttachments emailId ::
  match env_attachments env h emailId with
  | Rejected e => [EvLog Debug (MsgAttachmentsFailed emailId e)]
  | Replied _ => []
  end.

(** The batch after attachment enrichment, the history being [h] when the
    enrichment starts: a record that is not flagged is as it came; a flagged
    record carries what its own request, sent at the history reached when its
    turn comes, answered, or the empty list when that request was rejected. *)
Fixpoint delivered (env : Env) (h : list Event) (emails : list EmailMessage)
    : list EmailMessage :=
  match emails with
  | [] => []
  | e :: rest =>
      if hasAttachments e
      then set_attachments e (fetched env h (id e))
             :: delivered env (h ++ attachmentEvents env h (id e)) rest
      else e :: delivered env h rest
  end.


(** The safe set [[A-Za-z0-9_-]]. *)
Definition safe (c : ascii) : bool :=
  Str.is_lower c || Str.is_upper c || Str.is_digit c ||
  Ascii.eqb c "-" || Ascii.eqb c "_".


(** A text cut into runs of white space, each followed by a word. *)
Fixpoint spaced (segments : list (string * string)) : string :=
  match segments with
  | [] => ""
  | (ws, word) :: rest => ws +:+ word +:+ spaced rest
  end.

(** The same words, each after one underscore. *)
Fixpoint underscored (segments : list (string * string)) : string :=
  match segments with
  | [] => ""
  | (_, word) :: rest => "_" +:+ word +:+ underscored rest
  end.

(** A run of white space that is not empty, and a word of safe characters
    that is not empty. *)
Definition runAndWord (segment : string * string) : Prop :=
  segment.1 <> "" /\ Str.all Str.is_space segment.1 = true /\
  segment.2 <> "" /\ Str.all safe segment.2 = true.

(** Every file of [w] is still a file in [w']. *)
Definition keeps (w w' : World) : Prop :=
  forall k, is_Some (fs w !! k) -> is_Some (fs w' !! k).

(** A computation that removes no file, whatever its outcome. *)
Definition Keeping {A} (m : M A) : Prop := forall w, keeps w (m w).2.

(** [n] times the character ">". *)
Fixpoint quotes (n : nat) : string :=
  match n with
  | O => EmptyString
  | S n' => String ">" (quotes n')
  end.

(** No line feed in the string. *)
Definition oneLine (s : string) : bool :=
  Str.all (fun c => negb (Ascii.eqb c Mbox.LF)) s.

Definition isPage (e : Event) : bool :=
  match e with EvPage _ _ _ _ => true | _ => false end.

Definition isWrite (e : Event) : bool :=
  match e with EvWrite _ _ _ => true | _ => false end.

(** Every world reached by [m] is related by [R] to the world it started
    from, whatever the outcome. *)
Definition Respects (R : World -> World -> Prop) {A} (m : M A) : Prop :=
  forall w, R w (m w).2.

(** The files are the same. *)
Definition sameFiles (w w' : World) : Prop := fs w' = fs w.

(** The token cache and the MSAL instance are the same. *)
Definition sameSession (w w' : World) : Prop :=
  tokenCache w' = tokenCache w /\ msalInstance w' = msalInstance w.

(** The trace of [w'] is the trace of [w] followed by events that satisfy
    [P]. *)
Definition extends (P : Event -> Prop) (w w' : World) : Prop :=
  exists evs : list Event, trace w' = (trace w ++ evs)%list /\ Forall P evs.

(** The requests to the mail provider. *)
Definition isRequest (e : Event) : bool :=
  match e with
  | EvFolderLookup _ | EvCount _ _ | EvPage _ _ _ _ | EvAttachments _ => true
  | _ => false
  end.

(** The files the program tried to write, in order. *)
Fixpoint written (t : list Event) : list (string * string) :=
  match t with
  | [] => []
  | EvWrite dir name _ :: rest => (dir, name) :: written rest
  | _ :: rest => written rest
  end.

(** The attachment requests, in order: the ids asked for. *)
Fixpoint attachmentRequests (t : list Event) : list string :=
  match t with
  | [] => []
  | EvAttachments i :: rest => i :: attachmentRequests rest
  | _ :: rest => attachmentRequests rest
  end.

(** The outcome is not a thrown error. *)
Definition settled {A} (o : Outcome A) : Prop :=
  match o with Throw _ => False | _ => True end.

(** The outcome is not an exit of the process. *)
Definition running {A} (o : Outcome A) : Prop :=
  match o with Exit _ => False | _ => True end.

(** [m] never ends with an exit of the process. *)
Definition Running {A} (m : M A) : Prop := forall w, running (m w).1.

(** [m] always returns a value. *)
Definition Returning {A} (m : M A) : Prop := forall w, exists a, (m w).1 = Ok a.

(** What [isTokenValid] answers when the clock reads [now]. *)
Definition validAt (now : Z) (t : AuthToken) : bool :=
  negb (Str.is_empty (accessToken t)) &&
  Auth.expires_after (expiresOn t) (now + Auth.fiveMinutes).

(** MSAL is there, or can be initialised, in [w]. *)
Definition msalReady (env : Env) (w : World) : Prop :=
  msalInstance w = true \/ env_msalInit env (trace w) = None.

(** The history at which [getAccessToken], started in [w] with MSAL ready,
    sends the silent request for the cached token [t]: MSAL is initialised
    if it was not, the cache is read, and the clock is read unless the token
    is rejected without looking at it. *)
Definition refreshHistory (w : World) (t : AuthToken) : list Event :=
  (trace w ++ (if msalInstance w then [] else [EvMsalInit true]) ++ [EvReadCache] ++
   (if Str.is_empty (accessToken t) || Auth.falsy_expiry (expiresOn t)
    then [] else [EvClock]))%list.

(** The token a successful interactive flow caches. *)
Definition interactiveToken (r : SilentResult) : AuthToken :=
  {| accessToken := sr_accessToken r; refreshToken := Some "";
     expiresOn := Auth.stored_expiry (sr_expiresOn r); account := sr_account r |}.

Definition quietEvent (e : Event) : Prop := isRequest e = false /\ isWrite e = false.

(** A page request asks for between one record and a batch, within the
    limit. *)
Definition boundedPage (options : DownloadOptions) (e : Event) : Prop :=
  match e with
  | EvPage _ _ top _ =>
      1 <= top <= Downloader.effectiveBatchSize options /\ top <= limit options
  | _ => True
  end.

(** What a mailbox answers to a page request: [top] records after the first
    [skip]. *)
Definition slice (mailbox : list EmailMessage) (top : Z) (skip : option Z)
    : list EmailMessage :=
  firstn (Z.to_nat top) (skipn (Z.to_nat (default 0 skip)) mailbox).

(** The provider serves the pages of [mailbox], whatever the history, the
    folder and the filter. *)
Definition serves (env : Env) (mailbox : list EmailMessage) : Prop :=
  forall h fid f top skip,
    env_page env h fid f top skip = Replied (Some (slice mailbox top skip)).

(** The files of the records of a list, in directory [dir]. *)
Definition filesOf (env : Env) (dir : string) (emails : list EmailMessage)
    : list (string * string) :=
  map (fun name => (dir, name)) (omap (Downloader.fileName env) emails).

(** The computation, when it returns, has just recorded [ev]. *)
Definition EndsWith {A} (ev : Event) (m : M A) : Prop :=
  forall w a w', m w = (Ok a, w') -> last (trace w') = Some ev.

(** No file outside the cache directory changes and no request is sent:
    what the token manager does. *)
Definition offline (w w' : World) : Prop := sameFiles w w' /\ extends quietEvent w w'.

(** The outcome of a command: it returned, or the process exited with
    code 1. *)
Definition finished (o : Outcome unit) : Prop := o = Ok tt \/ o = Exit 1.

(** [m] does not end the process, unless with code 1. *)
Definition ExitsWith1 {A} (m : M A) : Prop :=
  forall w c, (m w).1 = Exit c -> c = 1.

Module Scenario.

(** A stand-in for date-fns [format] in UTC: the first 19 code units of an
    ISO date, with [T] and [:] replaced. *)
Fixpoint stamp (s : string) : string :=
  match s with
  | EmptyString => EmptyString
  | String c s' =>
      String (if Ascii.eqb c "T" then "_"%char
              else if Ascii.eqb c ":" then "-"%char else c) (stamp s')
  end.

Definition format (s : string) : option string :=
  if (String.length s <? 19)%nat then None else Some (stamp (Str.take 19 s)).

Definition message (i subj received : string) (flagged : bool) : EmailMessage :=
  {| id := i; subject := subj;
     sender := {| addr_name := "Ann"; addr_address := "ann@example.org" |};
     toRecipients := []; receivedDateTime := received; sentDateTime := received;
     body := {| contentType := BodyText; content := "hello" |};
     attachments := None; importance := Normal; isRead := true; isDraft := false;
     hasAttachments := flagged |}.

Definition emptyWorld : World :=
  {| trace := []; fs := ∅; tokenCache := CacheAbsent; msalInstance := false |}.

Definition goodToken : AuthToken :=
  {| accessToken := "bearer"; refreshToken := Some "";
     expiresOn := ExpiryDate (DateAt 3600000); account := "ann" |}.

Definition signedIn : World :=
  {| trace := []; fs := ∅; tokenCache := CacheToken goodToken; msalInstance := false |}.

(** An outside where the clock stands at 0 and nothing fails, around the
    given provider. *)
Definition outside
    (folders : string -> Http (option (list MailFolder)))
    (count : Http CountData)
    (page : Z -> option Z -> Http (option (list EmailMessage)))
    (atts : string -> Http (option (list EmailAttachment)))
    (disk : string -> option Error) : Env :=
  {| env_now := fun _ => 0;
     env_isoNow := fun _ => "2024-05-02T08:00:00.000Z";
     env_msalInit := fun _ => None;
     env_silent := fun _ _ => Replied None;
     env_cacheWrite := fun _ => None;
     env_folders := fun _ name => folders name;
     env_count := fun _ _ _ => count;
     env_page := fun _ _ _ top skip => page top skip;
     env_attachments := fun _ i => atts i;
     env_formatDate := format;
     env_disk := fun _ _ name => disk name;
     env_rm := fun _ _ => None |}.

(** A mailbox answering [$top]/[$skip] requests. *)
Definition paged (mailbox : list EmailMessage) (top : Z) (skip : option Z)
    : Http (option (list EmailMessage)) :=
  Replied (Some (firstn (Z.to_nat top) (skipn (Z.to_nat (default 0 skip)) mailbox))).

Definition digit (n : nat) : ascii := ascii_of_nat (48 + n mod 10).

Definition numbered (n : nat) : EmailMessage :=
  message (String "m" (String (digit (n / 100)) (String (digit (n / 10)) (String (digit n) ""))))
          "Weekly report" "2024-05-01T10:00:00Z" false.

(** 123 records, a count of 200: the declared total is stale. *)
Definition mailbox123 : list EmailMessage := map numbered (seq 0 123).

Definition staleTotal : Env :=
  outside (fun _ => Replied (Some [])) (Replied (CountNumber 200))
          (paged mailbox123) (fun _ => Replied (Some [])) (fun _ => None).

(** The same three pages served one after the other whatever is asked, and
    nothing after them. *)
Definition serial : Env :=
  {| env_now := fun _ => 0;
     env_isoNow := fun _ => "2024-05-02T08:00:00.000Z";
     env_msalInit := fun _ => None;
     env_silent := fun _ _ => Replied None;
     env_cacheWrite := fun _ => None;
     env_folders := fun _ _ => Replied (Some []);
     env_count := fun _ _ _ => Replied (CountNumber 200);
     env_page := fun h _ _ _ _ =>
       Replied (Some (nth (List.length (List.filter isPage h))
                          [firstn 50 mailbox123;
                           firstn 50 (skipn 50 mailbox123);
                           skipn 100 mailbox123] []));
     env_attachments := fun _ _ => Replied (Some []);
     env_formatDate := format;
     env_disk := fun _ _ _ => None;
     env_rm := fun _ _ => None |}.

Definition defaults : DownloadOptions :=
  {| folder := "inbox"; limit := 1000; fromDate := None; toDate := None;
     outputPath := "./emails"; includeAttachments := None; batchSize := None |}.

(** Three records; the disk refuses the file of the second. *)
Definition first : EmailMessage := message "id-1" "Budget 2024" "2024-05-01T10:00:00Z" false.
Definition second : EmailMessage := message "id-2" "Re: Budget 2024" "2024-05-01T11:00:00Z" false.
Definition third : EmailMessage := message "id-3" "Lunch?" "2024-05-01T12:00:00Z" false.

Definition secondName : string := "2024-05-01_11-00-00_Re_Budget_2024_id-2.json".

Definition refuses (name : string) : option Error :=
  if String.eqb name secondName then Some (IoError "ENOSPC") else None.

Definition fullDisk : Env :=
  outside (fun _ => Replied (Some [])) (Replied (CountNumber 3))
          (paged [first; second; third]) (fun _ => Replied (Some [])) refuses.


(** Five flagged records; the attachment request of the third is rejected. *)
Definition flagged (i : string) : EmailMessage :=
  message i "Minutes" "2024-05-01T10:00:00Z" true.

Definition five : list EmailMessage :=
  [flagged "a1"; flagged "a2"; flagged "a3"; flagged "a4"; flagged "a5"].

Definition pdf (i : string) : EmailAttachment :=
  {| att_id := i; att_name := "minutes.pdf"; att_contentType := "application/pdf";
     att_size := 1024; att_isInline := false;
     att_contentBytes := Some "JVBERi0="; att_contentId := None |}.

Definition attachmentsOf (i : string) : Http (option (list EmailAttachment)) :=
  if String.eqb i "a3" then Rejected (HttpError "503") else Replied (Some [pdf i]).

Definition flaky : Env :=
  outside (fun _ => Replied (Some [])) (Replied (CountNumber 5))
          (paged five) attachmentsOf (fun _ => None).

Definition withAttachments : DownloadOptions :=
  {| folder := "inbox"; limit := 1000; fromDate := None; toDate := None;
     outputPath := "./emails"; includeAttachments := Some true; batchSize := None |}.

(** A mailbox with two folders called "Projects". *)
Definition twoProjects : Env :=
  outside (fun name =>
             if String.eqb name "Projects"
             then Replied (Some [ {| folder_id := "AAMk-1"; displayName := "Projects" |};
                                  {| folder_id := "AAMk-2"; displayName := "Projects" |} ])
             else Replied (Some []))
          (Replied (CountNumber 0)) (fun _ _ => Replied (Some []))
          (fun _ => Replied (Some [])) (fun _ => None).

(** A provider whose count query answers text that is not a number. *)
Definition textCount : Env :=
  outside (fun _ => Replied (Some [])) (Replied (CountText "many"))
          (paged [first; second; third]) (fun _ => Replied (Some [])) (fun _ => None).

(** Two records received at the same time, with different ids. *)
Definition report : EmailMessage := message "AAMkAD_9" "Q3 report" "2024-05-01T10:00:00Z" false.
Definition q3 : EmailMessage := message "report_AAMkAD_9" "Q3" "2024-05-01T10:00:00Z" false.

(** A provider that serves the first page and rejects the second. *)
Definition throttled : Env :=
  outside (fun _ => Replied (Some [])) (Replied (CountNumber 123))
          (fun top skip =>
             match skip with
             | None => paged mailbox123 top skip
             | Some _ => Rejected (HttpError "429")
             end)
          (fun _ => Replied (Some [])) (fun _ => None).

Definition fullDefaults : Cli.FullOptions :=
  {| Cli.opt_folder := "inbox"; Cli.opt_limit := 1000; Cli.opt_from := None;
     Cli.opt_to := None; Cli.opt_output := "./emails.mbox"; Cli.opt_compress := false |}.

(** An exporter that only leaves a mark. *)
Definition exporter (o : ExportOptions) : M unit := record (EvExport o).

(** A cached token without refresh token that expires in one minute. *)
Definition lapsing : AuthToken :=
  {| accessToken := "cached"; refreshToken := Some "";
     expiresOn := ExpiryDate (DateAt 60000); account := "ann" |}.

Definition lapsingWorld : World :=
  {| trace := []; fs := ∅; tokenCache := CacheToken lapsing; msalInstance := false |}.

(** What the interactive flow answers when the user signs in. *)
Definition granted : SilentResult :=
  {| sr_accessToken := "fresh"; sr_expiresOn := ExpiryDate (DateAt 3600000);
     sr_account := "ann" |}.

Definition signsIn (h : list Event) : Http (option SilentResult) := Replied (Some granted).

Definition quiet : Env :=
  outside (fun _ => Replied (Some [])) (Replied (CountNumber 0))
          (fun _ _ => Replied (Some [])) (fun _ => Replied (Some [])) (fun _ => None).

(** A cached token that expires in one minute, with a refresh token, and an
    MSAL that answers the silent request. *)
Definition expiring : AuthToken :=
  {| accessToken := "cached"; refreshToken := Some "refresh";
     expiresOn := ExpiryDate (DateAt 60000); account := "ann" |}.

Definition expiringWorld : World :=
  {| trace := []; fs := ∅; tokenCache := CacheToken expiring; msalInstance := false |}.

Definition refreshing : Env :=
  {| env_now := fun _ => 0;
     env_isoNow := env_isoNow quiet;
     env_msalInit := fun _ => None;
     env_silent := fun _ _ =>
       Replied (Some {| sr_accessToken := "fresh";
                        sr_expiresOn := ExpiryDate (DateAt 3600000);
                        sr_account := "ann" |});
     env_cacheWrite := fun _ => None;
     env_folders := env_folders quiet;
     env_count := env_count quiet;
     env_page := env_page quiet;
     env_attachments := env_attachments quiet;
     env_formatDate := format;
     env_disk := env_disk quiet;
     env_rm := env_rm quiet |}.

(** Options whose [--from] date could not be parsed. *)
Definition badRange : DownloadOptions :=
  {| folder := "inbox"; limit := 1000; fromDate := Some BadDate; toDate := None;
     outputPath := "./emails"; includeAttachments := None; batchSize := None |}.

(** A disk on which nothing can be written. *)
Definition readOnly : Env :=
  outside (fun _ => Replied (Some [])) (Replied (CountNumber 3))
          (paged [first; second; third]) (fun _ => Replied (Some []))
          (fun _ => Some (IoError "EROFS")).

(** Three records behind a provider and a disk on which nothing fails. *)
Definition healthy : Env :=
  outside (fun _ => Replied (Some [])) (Replied (CountNumber 3))
          (paged [first; second; third]) (fun _ => Replied (Some [])) (fun _ => None).

(** An interactive flow that the user does not complete. *)
Definition declines (h : list Event) : Http (option SilentResult) :=
  Rejected (HttpError "authorization_declined").

End Scenario.

(** * Properties *)

Ltac run :=
  unfold bind, ret, throw, exit, try_catch, log, spinner, record in *; simpl in *.

Lemma pair_eta {A B} (p : A * B) (a : A) : p.1 = a -> p = (a, p.2).
Proof. destruct p as [x y]. simpl. now intros ->. Qed.

Lemma is_empty_false s : Str.is_empty s = false <-> s <> "".
Proof. destruct s; simpl; split; congruence. Qed.

(** ** Token validity ([AuthManager]) *)

Module AuthFacts.
Import Auth.

Lemma isTokenValid_outcome env t w :
  (isTokenValid env t w).1 =
  Ok (negb (Str.is_empty (accessToken t)) &&
      expires_after (expiresOn t) (env_now env (trace w) + fiveMinutes)).
Proof.
  unfold isTokenValid.
  destruct (Str.is_empty (accessToken t)); simpl; [reflexivity|].
  destruct (expiresOn t) as [|d]; reflexivity.
Qed.

Lemma isTokenValid_stale env t w ms :
  expiresOn t = ExpiryDate (DateAt ms) ->
  (forall h, ms <= env_now env h + fiveMinutes) ->
  (isTokenValid env t w).1 = Ok false.
Proof.
  intros He Hms. rewrite isTokenValid_outcome, He. simpl.
  specialize (Hms (trace w)).
  replace (env_now env (trace w) + fiveMinutes <? ms) with false
    by (symmetry; apply Z.ltb_ge; lia).
  now rewrite andb_false_r.
Qed.

Lemma initializeMsal_cache env w w1 :
  initializeMsal env w = (Ok tt, w1) -> tokenCache w1 = tokenCache w.
Proof.
  unfold initializeMsal. destruct (msalInstance w); [congruence|].
  destruct (env_msalInit _ _); [discriminate|]. now intros [= <-].
Qed.

Lemma initializeMsal_no_exit env w c w1 : initializeMsal env w <> (Exit c, w1).
Proof.
  unfold initializeMsal. destruct (msalInstance w); [discriminate|].
  destruct (env_msalInit _ _); discriminate.
Qed.

(** Claim C10, amended.  [isTokenValid] accepts a token exactly when its
    access token is not empty and its expiry lies strictly more than five
    minutes after the clock reading.  For a cached token whose expiry is
    within five minutes of every clock reading, [isAuthenticated] answers
    false, and [getAccessToken] never hands out the cached token: it answers
    null when MSAL cannot be initialised or the token carries no refresh
    token; otherwise its answer is decided by the silent request, sent at the
    history [refreshHistory w t]: the refreshed access token when that
    request answers a result, null when it is rejected or answers nothing. *)
Theorem cached_token_margin env w t ms :
  (forall w0, (isTokenValid env t w0).1 = Ok true <->
     accessToken t <> "" /\
     exists due, expiresOn t = ExpiryDate (DateAt due) /\
                 env_now env (trace w0) + fiveMinutes < due) /\
  (tokenCache w = CacheToken t ->
   expiresOn t = ExpiryDate (DateAt ms) ->
   (forall h, ms <= env_now env h + fiveMinutes) ->
   (isAuthenticated env w).1 = Ok false /\
   (~ msalReady env w -> (getAccessToken env w).1 = Ok None) /\
   (msalReady env w ->
    (getAccessToken env w).1 =
    if truthy (refreshToken t) then
      match env_silent env (refreshHistory w t) (account t) with
      | Replied (Some r) => Ok (Some (sr_accessToken r))
      | _ => Ok None
      end
    else Ok None)).
Proof.
  split.
  - intros w0. rewrite isTokenValid_outcome. split.
    + intros [= H]. apply andb_true_iff in H as [Ha Hx].
      split; [apply is_empty_false; now destruct (Str.is_empty _)|].
      destruct (expiresOn t) as [|[|x]]; try discriminate.
      exists x. split; [reflexivity|]. now apply Z.ltb_lt.
    + intros [Ha (x & Hx & Hlt)]. apply is_empty_false in Ha.
      rewrite Ha, Hx. simpl. f_equal. now apply Z.ltb_lt.
  - intros Hc He Hms. split; [|split].
    + unfold isAuthenticated, getCachedToken. run. rewrite Hc.
      pose proof (isTokenValid_stale env t (emit EvReadCache w) ms He Hms) as Hv.
      destruct (isTokenValid env t _) as [[b| |] w1]; simpl in *; congruence.
    + intros Hn. unfold getAccessToken, try_catch. unfold bind at 1.
      unfold initializeMsal, msalReady in *.
      destruct (msalInstance w); [tauto|].
      destruct (env_msalInit env (trace w)); [reflexivity|tauto].
    + intros Hr.
      assert (Hi : exists w1, initializeMsal env w = (Ok tt, w1) /\
                              tokenCache w1 = tokenCache w /\
                              trace w1 = (trace w ++ (if msalInstance w then []
                                                      else [EvMsalInit true]))%list).
      { unfold initializeMsal. destruct (msalInstance w) eqn:Hm.
        - exists w. repeat split. now rewrite app_nil_r.
        - destruct Hr as [Hr|Hr]; [congruence|]. rewrite Hr. eexists. repeat split. }
      destruct Hi as (w1 & Hi & Hc1 & Ht1). rewrite Hc in Hc1.
      unfold getAccessToken, try_catch. unfold bind at 1. rewrite Hi.
      unfold bind at 1. unfold getCachedToken. unfold bind at 1. unfold record at 1.
      cbn [tokenCache emit]. rewrite Hc1. unfold bind at 1.
      pose proof (isTokenValid_stale env t (emit EvReadCache w1) ms He Hms) as Hv.
      assert (Htr : trace (isTokenValid env t (emit EvReadCache w1)).2 = refreshHistory w t).
      { unfold isTokenValid, refreshHistory.
        destruct (Str.is_empty (accessToken t) || falsy_expiry (expiresOn t));
          unfold bind, now, ret; simpl; rewrite Ht1, <- ?app_assoc; simpl;
          rewrite ?app_nil_r; reflexivity. }
      destruct (isTokenValid env t (emit EvReadCache w1)) as [[b| |] w2];
        simpl in Hv, Htr; try discriminate.
      injection Hv as ->. cbv beta iota.
      destruct (truthy (refreshToken t)).
      * unfold bind at 1. unfold refresh, try_catch. unfold bind at 1. rewrite Htr.
        destruct (env_silent env (refreshHistory w t) (account t)) as [e|[r|]].
        -- reflexivity.
        -- unfold bind at 1. unfold cacheToken. cbn [trace emit].
           destruct (env_cacheWrite env _); reflexivity.
        -- reflexivity.
      * reflexivity.
Qed.

Lemma cached_token_margin_witness :
  (isAuthenticated Scenario.refreshing Scenario.expiringWorld).1 = Ok false /\
  (getAccessToken Scenario.refreshing Scenario.expiringWorld).1 = Ok (Some "fresh").
Proof.
  destruct (proj2 (cached_token_margin Scenario.refreshing Scenario.expiringWorld
                     Scenario.expiring 60000)) as (H1 & _ & H2).
  - reflexivity.
  - reflexivity.
  - intros h. vm_compute. discriminate.
  - split; [exact H1|]. apply H2. right. reflexivity.
Defined.

(** Claim C10 as stated fails: the cached token expires in one minute (it has
    not expired, and it expires within five minutes), and [getAccessToken]
    does not answer null but the refreshed token. *)
Lemma getAccessToken_refreshes :
  tokenCache Scenario.expiringWorld = CacheToken Scenario.expiring /\
  expiresOn Scenario.expiring = ExpiryDate (DateAt 60000) /\
  env_now Scenario.refreshing [] < 60000 <= env_now Scenario.refreshing [] + fiveMinutes /\
  (getAccessToken Scenario.refreshing Scenario.expiringWorld).1 = Ok (Some "fresh") /\
  (getAccessToken Scenario.refreshing Scenario.expiringWorld).1 <> Ok None.
Proof.
  repeat split; try reflexivity; try discriminate.
Qed.

End AuthFacts.

(** ** The downloader *)

Module DownloaderFacts.
Import Downloader.

Section Facts.

Variable env : Env.

Lemma while_unfold tok fid options total st w :
  while env tok fid options total st w =
  match iteration env tok fid options total st w with
  | (Ok (Some st'), w') => while env tok fid options total st' w'
  | (Ok None, w') => (Ok tt, w')
  | (Throw e, w') => (Throw e, w')
  | (Exit c, w') => (Exit c, w')
  end.
Proof.
  funelim (while env tok fid options total st w).
  all: match goal with H : iteration _ _ _ _ _ _ _ = _ |- _ => rewrite H end; reflexivity.
Qed.

(** *** Staging one record *)

Lemma saveEmail_bad_date dir e w :
  fileName env e = None ->
  saveEmail env dir e w = (Ok tt, emit (EvLog Warn (MsgSaveFailed (id e) RangeError)) w).
Proof. intros H. unfold saveEmail, generateEmailFileName. rewrite H. reflexivity. Qed.

Lemma saveEmail_disk_error dir e w n err :
  fileName env e = Some n ->
  env_disk env (trace (emit EvClock w)) dir n = Some err ->
  saveEmail env dir e w =
  (Ok tt, emit (EvLog Warn (MsgSaveFailed (id e) err))
            (emit (EvWrite dir n false) (emit EvClock w))).
Proof.
  intros H Hd. unfold saveEmail, generateEmailFileName, isoNow, write. rewrite H.
  run. rewrite Hd. reflexivity.
Qed.

Lemma saveEmail_written dir e w n :
  fileName env e = Some n ->
  env_disk env (trace (emit EvClock w)) dir n = None ->
  saveEmail env dir e w =
  (Ok tt,
   {| trace := trace w ++ [EvClock; EvWrite dir n true];
      fs := <[(dir, n) := StagedUnit e (env_isoNow env (trace w))]> (fs w);
      tokenCache := tokenCache w; msalInstance := msalInstance w |}).
Proof.
  intros H Hd. unfold saveEmail, generateEmailFileName, isoNow, write. rewrite H.
  run. rewrite Hd. rewrite <- app_assoc. reflexivity.
Qed.

Lemma saveEmail_total dir e w : (saveEmail env dir e w).1 = Ok tt.
Proof.
  destruct (fileName env e) as [n|] eqn:Hn.
  - destruct (env_disk env (trace (emit EvClock w)) dir n) as [err|] eqn:Hd.
    + now rewrite (saveEmail_disk_error _ _ _ _ _ Hn Hd).
    + now rewrite (saveEmail_written _ _ _ _ Hn Hd).
  - now rewrite saveEmail_bad_date.
Qed.

Lemma saveEmail_eta dir e w : saveEmail env dir e w = (Ok tt, (saveEmail env dir e w).2).
Proof.
  pose proof (saveEmail_total dir e w) as H.
  destruct (saveEmail env dir e w) as [o w']. simpl in *. now subst.
Qed.


(** *** Staging a batch *)

Lemma saveEmailsBatch_cons e l dir w :
  saveEmailsBatch env (e :: l) dir w = saveEmailsBatch env l dir (saveEmail env dir e w).2.
Proof.
  unfold saveEmailsBatch. simpl. unfold bind at 1.
  rewrite (saveEmail_eta dir e w). reflexivity.
Qed.

Lemma saveEmailsBatch_total emails dir w : (saveEmailsBatch env emails dir w).1 = Ok tt.
Proof.
  revert w. induction emails as [|e l IH]; intros w; [reflexivity|].
  rewrite saveEmailsBatch_cons. apply IH.
Qed.

Lemma saveEmailsBatch_eta emails dir w :
  saveEmailsBatch env emails dir w = (Ok tt, (saveEmailsBatch env emails dir w).2).
Proof.
  pose proof (saveEmailsBatch_total emails dir w) as H.
  destruct (saveEmailsBatch env emails dir w) as [o w']. simpl in *. now subst.
Qed.



(** *** A disk whose failures depend on the file name only *)

Section NamedFailures.

Variable failing : string -> option Error.
Hypothesis disk_by_name : forall h d n, env_disk env h d n = failing n.





End NamedFailures.

End Facts.





(** The batch of three on the disk that refuses the second file: the first
    and the third record are staged, the second is absent, one warning. *)
Example batch_with_one_failure :
  let r := saveEmailsBatch Scenario.fullDisk
             [Scenario.first; Scenario.second; Scenario.third] "./emails"
             Scenario.emptyWorld in
  r.1 = Ok tt /\
  List.filter isWrite (trace r.2) =
    [EvWrite "./emails" "2024-05-01_10-00-00_Budget_2024_id-1.json" true;
     EvWrite "./emails" Scenario.secondName false;
     EvWrite "./emails" "2024-05-01_12-00-00_Lunch_id-3.json" true] /\
  In (EvLog Warn (MsgSaveFailed "id-2" (IoError "ENOSPC"))) (trace r.2) /\
  size (fs r.2) = 2%nat.
Proof. vm_compute. repeat split. auto 10. Qed.

(** *** Attachment enrichment *)

Lemma buildFilter_ok options :
  datesValid options -> exists f, forall w, buildFilter options w = (Ok f, w).
Proof.
  intros [Hf Ht]. unfold buildFilter, toISOString.
  destruct (fromDate options) as [[|a]|]; [congruence| |];
    (destruct (toDate options) as [[|b]|]; [congruence| |]);
    eexists; intros w; reflexivity.
Qed.

Lemma fetchEmailAttachments_run env tok i w :
  fetchEmailAttachments env tok i w =
  (Ok (fetched env (trace w) i),
   {| trace := trace w ++ attachmentEvents env (trace w) i; fs := fs w;
      tokenCache := tokenCache w; msalInstance := msalInstance w |}).
Proof.
  unfold fetchEmailAttachments, getAttachments, fetched, attachmentEvents. run.
  destruct (env_attachments env (trace w) i); simpl; unfold emit; simpl;
    rewrite <- ?app_assoc; reflexivity.
Qed.

Lemma enrich_all_run env tok l w :
  exists w', enrich_all env tok l w = (Ok (delivered env (trace w) l), w') /\ fs w' = fs w.
Proof.
  revert w. induction l as [|e l IH]; intros w.
  - exists w. split; reflexivity.
  - cbn [enrich_all delivered]. unfold bind at 1. unfold enrich.
    destruct (hasAttachments e).
    + unfold bind at 1. rewrite fetchEmailAttachments_run. unfold ret at 1.
      cbv beta iota.
      destruct (IH {| trace := trace w ++ attachmentEvents env (trace w) (id e);
                      fs := fs w; tokenCache := tokenCache w;
                      msalInstance := msalInstance w |}) as (w' & Hl & Hfs).
      unfold bind at 1. rewrite Hl. exists w'. split; [reflexivity|exact Hfs].
    + unfold ret at 1. destruct (IH w) as (w' & Hl & Hfs).
      unfold bind at 1. rewrite Hl. exists w'. split; [reflexivity|exact Hfs].
Qed.

Lemma delivered_length env h l : List.length (delivered env h l) = List.length l.
Proof.
  revert h. induction l as [|e l IH]; intros h; simpl; [reflexivity|].
  destruct (hasAttachments e); simpl; now rewrite IH.
Qed.


Lemma fetchEmailBatch_delivers env tok fid options top skip w emails :
  wantsAttachments options = true ->
  datesValid options ->
  (forall f, env_page env (trace w) fid f top skip = Replied (Some emails)) ->
  exists f w',
    fetchEmailBatch env tok fid options top skip w =
    (Ok (Some (delivered env (trace (emit (EvPage fid f top skip) w)) emails)), w') /\
    fs w' = fs w.
Proof.
  intros Hw Hd Hp. destruct (buildFilter_ok options Hd) as [f Hf].
  destruct (enrich_all_run env tok emails (emit (EvPage fid f top skip) w))
    as (w' & Hl & Hfs).
  exists f, w'. split; [|exact Hfs].
  unfold fetchEmailBatch, try_catch, bind, getPage.
  rewrite Hf, Hp, Hw, Hl. reflexivity.
Qed.



(** One failure among five flagged records: the turn ends normally, five
    files are written, four records carry their attachment and the third
    carries the empty list. *)
Example one_failure_among_five :
  let r := iteration Scenario.flaky "bearer" (FolderId "inbox") Scenario.withAttachments 5
             (0, None) Scenario.emptyWorld in
  r.1 = Ok (Some (5, Some 5)) /\
  List.length (List.filter isWrite (trace r.2)) = 5%nat /\
  size (fs r.2) = 5%nat /\
  map (fun i => fs r.2 !! ("./emails", "2024-05-01_10-00-00_Minutes_" +:+ i +:+ ".json"))
      ["a1"; "a2"; "a3"; "a4"; "a5"] =
  map (fun e => Some (StagedUnit e "2024-05-02T08:00:00.000Z"))
      [set_attachments (Scenario.flagged "a1") (Some [Scenario.pdf "a1"]);
       set_attachments (Scenario.flagged "a2") (Some [Scenario.pdf "a2"]);
       set_attachments (Scenario.flagged "a3") (Some []);
       set_attachments (Scenario.flagged "a4") (Some [Scenario.pdf "a4"]);
       set_attachments (Scenario.flagged "a5") (Some [Scenario.pdf "a5"])].
Proof.
  vm_compute. repeat split.
Qed.

(** *** Pagination *)

(** A page that is shorter than requested, and not empty, does not end the
    loop: the turn goes on with the skip token reset to [null]. *)
Lemma short_page_continues env tok fid options total d skip w emails w1 :
  d < total -> d < limit options ->
  fetchEmailBatch env tok fid options
    (Z.min (Z.min (effectiveBatchSize options) (limit options - d)) (total - d)) skip
    (emit (EvLog Info (MsgStep (d + 1) total
       (Z.min (Z.min (effectiveBatchSize options) (limit options - d)) (total - d)))) w)
  = (Ok (Some emails), w1) ->
  0 < len emails < Z.min (Z.min (effectiveBatchSize options) (limit options - d)) (total - d) ->
  (iteration env tok fid options total (d, skip) w).1 = Ok (Some (d + len emails, None)).
Proof.
  intros Ht Hl Hf Hlen. unfold iteration.
  apply Z.ltb_lt in Ht, Hl. rewrite Ht, Hl. simpl.
  unfold bind at 1. unfold log, record at 1. unfold bind at 1. rewrite Hf.
  replace (len emails =? 0) with false by (symmetry; apply Z.eqb_neq; lia).
  unfold bind at 1. rewrite (saveEmailsBatch_eta env emails (outputPath options) w1).
  replace (len emails =? _) with false by (symmetry; apply Z.eqb_neq; lia).
  reflexivity.
Qed.

(** Claim C1, on the code: a mailbox of 123 records whose count query answers
    200, limit 1000, batches of 50.  The pages requested in order hold 50, 50
    and 23 records.  After the short page the loop asks for two more pages:
    one without [$skip], which is the first page again, and one at offset
    173, which is empty.  173 records are written for 123 files.  With a
    provider that serves the three pages one after the other and then
    nothing, a fourth page is requested after the short one all the same. *)
Theorem short_page_does_not_stop :
  map (fun skip => match Scenario.paged Scenario.mailbox123 50 skip with
                   | Replied (Some l) => List.length l
                   | _ => 0%nat
                   end) [None; Some 50; Some 100] = [50; 50; 23]%nat /\
  (getEmailCount Scenario.staleTotal "bearer" (FolderId "inbox") Scenario.defaults
     Scenario.emptyWorld).1 = Ok 200 /\
  (downloadEmailsBatch Scenario.staleTotal "bearer" (FolderId "inbox") Scenario.defaults 200
     Scenario.emptyWorld).1 = Ok tt /\
  List.filter isPage
    (trace (downloadEmailsBatch Scenario.staleTotal "bearer" (FolderId "inbox")
              Scenario.defaults 200 Scenario.emptyWorld).2) =
  [EvPage (FolderId "inbox") None 50 None;
   EvPage (FolderId "inbox") None 50 (Some 50);
   EvPage (FolderId "inbox") None 50 (Some 100);
   EvPage (FolderId "inbox") None 50 None;
   EvPage (FolderId "inbox") None 27 (Some 173)] /\
  List.length (List.filter isWrite
    (trace (downloadEmailsBatch Scenario.staleTotal "bearer" (FolderId "inbox")
              Scenario.defaults 200 Scenario.emptyWorld).2)) = 173%nat /\
  size (fs (downloadEmailsBatch Scenario.staleTotal "bearer" (FolderId "inbox")
              Scenario.defaults 200 Scenario.emptyWorld).2) = 123%nat /\
  List.filter isPage
    (trace (downloadEmailsBatch Scenario.serial "bearer" (FolderId "inbox")
              Scenario.defaults 200 Scenario.emptyWorld).2) =
  [EvPage (FolderId "inbox") None 50 None;
   EvPage (FolderId "inbox") None 50 (Some 50);
   EvPage (FolderId "inbox") None 50 (Some 100);
   EvPage (FolderId "inbox") None 50 None] /\
  List.length (List.filter isWrite
    (trace (downloadEmailsBatch Scenario.serial "bearer" (FolderId "inbox")
              Scenario.defaults 200 Scenario.emptyWorld).2)) = 123%nat.
Proof. vm_compute. repeat split. Qed.

(** *** Folder resolution *)

Lemma specialFolders_keys :
  map fst specialFolders = ["inbox"; "sent"; "drafts"; "deleted"; "junk"].
Proof. reflexivity. Qed.

(** Claim C3, amended.  The five well-known names (compared in lower case)
    resolve to their fixed identifier and the world is untouched: no request.
    For any other name that is not the name of an inherited property, exactly
    one lookup request is issued; a rejected request fails with its error, an
    answer without a match fails with [FolderNotFound], and an answer with
    one or more matches resolves to the identifier of the first. *)
Theorem folder_resolution env tok name w :
  existsb (String.eqb (Str.toLowerCase name)) inheritedProperties = false ->
  map fst specialFolders = ["inbox"; "sent"; "drafts"; "deleted"; "junk"] /\
  match assoc (Str.toLowerCase name) specialFolders with
  | Some fid => getFolderId env tok name w = (Ok (FolderId fid), w)
  | None =>
      match env_folders env (trace w) name with
      | Rejected e =>
          getFolderId env tok name w =
          (Throw e, emit (EvLog LError (MsgFolderFailed name e)) (emit (EvFolderLookup name) w))
      | Replied v =>
          match default [] v with
          | [] =>
              getFolderId env tok name w =
              (Throw (FolderNotFound name),
               emit (EvLog LError (MsgFolderFailed name (FolderNotFound name)))
                    (emit (EvFolderLookup name) w))
          | f :: _ =>
              getFolderId env tok name w =
              (Ok (FolderId (folder_id f)), emit (EvFolderLookup name) w)
          end
      end
  end.
Proof.
  intros Hi. split; [reflexivity|].
  unfold getFolderId, specialFolders_get.
  destruct (assoc (Str.toLowerCase name) specialFolders) as [fid|]; [reflexivity|].
  rewrite Hi. unfold getFolders. run.
  destruct (env_folders env (trace w) name) as [e|v]; [reflexivity|].
  destruct (default [] v); reflexivity.
Qed.

Lemma folder_resolution_witness :
  map fst specialFolders = ["inbox"; "sent"; "drafts"; "deleted"; "junk"] /\
  getFolderId Scenario.quiet "bearer" "Sent" Scenario.emptyWorld =
  (Ok (FolderId "sentitems"), Scenario.emptyWorld).
Proof.
  apply (folder_resolution Scenario.quiet "bearer" "Sent" Scenario.emptyWorld).
  reflexivity.
Defined.

(** Claim C3 as stated fails: the lookup answers two folders, which is not
    exactly one match, and the resolution succeeds with the first. *)
Lemma two_matches_resolve :
  env_folders Scenario.twoProjects [] "Projects" =
    Replied (Some [ {| folder_id := "AAMk-1"; displayName := "Projects" |};
                    {| folder_id := "AAMk-2"; displayName := "Projects" |} ]) /\
  (getFolderId Scenario.twoProjects "bearer" "Projects" Scenario.emptyWorld).1 =
    Ok (FolderId "AAMk-1").
Proof. split; reflexivity. Qed.

(** A name that hits an inherited property of the object literal resolves
    without a lookup to a value that is not an identifier. *)
Example inherited_property_resolves :
  getFolderId Scenario.quiet "bearer" "Constructor" Scenario.emptyWorld =
  (Ok (Inherited "constructor"), Scenario.emptyWorld).
Proof. reflexivity. Qed.

(** *** The total *)

Lemma getEmailCount_outcome env tok fid options w data :
  datesValid options ->
  (forall f, env_count env (trace w) fid f = Replied data) ->
  exists f,
    getEmailCount env tok fid options w =
    (Ok (Z.min (count_of data) (limit options)), emit (EvCount fid f) w).
Proof.
  intros Hd Hc. destruct (buildFilter_ok options Hd) as [f Hf]. exists f.
  unfold getEmailCount, try_catch, bind, getCount. rewrite Hf, Hc. reflexivity.
Qed.

Lemma while_done env tok fid options total d skip w :
  total <= d -> while env tok fid options total (d, skip) w = (Ok tt, w).
Proof.
  intros H. rewrite while_unfold. unfold iteration.
  replace (d <? total) with false by (symmetry; apply Z.ltb_ge; lia).
  reflexivity.
Qed.

(** Claim C8.  Once the token, the output directory and the folder are there
    and the count request is answered with [data], [getEmailCount] returns the
    minimum of the count and the limit, where the count is the number
    answered, or 0 when the answer is not a number; [downloadEmails] goes on
    with exactly this value as [totalEmails], the bound of the loop and the
    total of every progress message.  When the answer is not a number the run
    ends normally and no page is requested after the count. *)
Theorem total_is_count_clamped_to_limit env options w tok w1 w2 fid w3 data :
  Auth.getAccessToken env (emit (EvLog Info MsgHeader) (emit (EvSpinner SpinStart) w))
    = (Ok (Some tok), w1) ->
  Str.is_empty tok = false ->
  ensureOutputDirectory env (outputPath options) w1 = (Ok tt, w2) ->
  getFolderId env tok (folder options)
    (emit (EvSpinner (SpinText "Finding target folder...")) w2) = (Ok fid, w3) ->
  datesValid options ->
  (forall f, env_count env (trace (emit (EvSpinner (SpinText "Counting emails...")) w3)) fid f
             = Replied data) ->
  (forall n, data = CountNumber n -> count_of data = n) /\
  ((forall n, data <> CountNumber n) -> count_of data = 0) /\
  exists w4,
    getEmailCount env tok fid options (emit (EvSpinner (SpinText "Counting emails...")) w3)
      = (Ok (Z.min (count_of data) (limit options)), w4) /\
    downloadEmails env options w =
      try_catch
        (if Z.min (count_of data) (limit options) =? 0 then
           spinner SpinSucceedNone;;
           log Info MsgFooter
         else
           log Info (MsgFound (Z.min (count_of data) (limit options)));;
           spinner (SpinText "Downloading emails...");;
           downloadEmailsBatch env tok fid options (Z.min (count_of data) (limit options));;
           spinner (SpinSucceed (Z.min (count_of data) (limit options)));;
           log Info MsgFooter)
        (fun e => spinner SpinFail;; throw e) w4 /\
    ((forall n, data <> CountNumber n) ->
     (downloadEmails env options w).1 = Ok tt /\
     exists events : list Event,
       trace (downloadEmails env options w).2 = (trace w4 ++ events)%list /\
       List.filter isPage events = []).
Proof.
  intros Htok Hne Hdir Hfid Hd Hc.
  split; [now intros n ->|]. split; [intros Hn; destruct data; [now destruct (Hn n)|reflexivity..]|].
  destruct (getEmailCount_outcome env tok fid options _ data Hd Hc) as [f Hcount].
  eexists. split; [exact Hcount|].
  assert (Hrun : downloadEmails env options w =
      try_catch
        (if Z.min (count_of data) (limit options) =? 0 then
           spinner SpinSucceedNone;;
           log Info MsgFooter
         else
           log Info (MsgFound (Z.min (count_of data) (limit options)));;
           spinner (SpinText "Downloading emails...");;
           downloadEmailsBatch env tok fid options (Z.min (count_of data) (limit options));;
           spinner (SpinSucceed (Z.min (count_of data) (limit options)));;
           log Info MsgFooter)
        (fun e => spinner SpinFail;; throw e)
        (emit (EvCount fid f) (emit (EvSpinner (SpinText "Counting emails...")) w3))).
  { unfold downloadEmails.
    unfold bind at 1. unfold spinner at 1, record at 1.
    unfold try_catch at 1. unfold bind at 1. unfold log at 1, record at 1.
    unfold bind at 1. rewrite Htok, Hne.
    unfold bind at 1. rewrite Hdir.
    unfold bind at 1. unfold spinner at 1, record at 1.
    unfold bind at 1. rewrite Hfid.
    unfold bind at 1. unfold spinner at 1, record at 1.
    unfold bind at 1. rewrite Hcount.
    unfold try_catch. reflexivity. }
  split; [exact Hrun|].
  intros Hn. rewrite Hrun.
  assert (H0 : count_of data = 0) by (destruct data; [now destruct (Hn n)|reflexivity..]).
  rewrite H0.
  destruct (Z.min 0 (limit options) =? 0) eqn:Hz.
  - split; [reflexivity|]. eexists. split; [|shelve]. run.
    rewrite <- app_assoc. reflexivity.
  - unfold downloadEmailsBatch. run.
    rewrite while_done by lia. simpl.
    split; [reflexivity|]. eexists. split; [|shelve].
    rewrite <- !app_assoc. reflexivity.
  Unshelve. all: reflexivity.
Qed.

Lemma total_is_count_clamped_to_limit_witness :
  (downloadEmails Scenario.textCount Scenario.defaults Scenario.signedIn).1 = Ok tt /\
  List.filter isPage (trace (downloadEmails Scenario.textCount Scenario.defaults
                               Scenario.signedIn).2) = [].
Proof.
  destruct (total_is_count_clamped_to_limit Scenario.textCount Scenario.defaults
              Scenario.signedIn "bearer"
              (Auth.getAccessToken Scenario.textCount
                 (emit (EvLog Info MsgHeader) (emit (EvSpinner SpinStart) Scenario.signedIn))).2
              (ensureOutputDirectory Scenario.textCount "./emails"
                 (Auth.getAccessToken Scenario.textCount
                    (emit (EvLog Info MsgHeader)
                       (emit (EvSpinner SpinStart) Scenario.signedIn))).2).2
              (FolderId "inbox")
              (emit (EvSpinner (SpinText "Finding target folder..."))
                 (ensureOutputDirectory Scenario.textCount "./emails"
                    (Auth.getAccessToken Scenario.textCount
                       (emit (EvLog Info MsgHeader)
                          (emit (EvSpinner SpinStart) Scenario.signedIn))).2).2)
              (CountText "many"))
    as (_ & _ & w4 & _ & _ & Hrun).
  - reflexivity.
  - reflexivity.
  - reflexivity.
  - reflexivity.
  - split; discriminate.
  - intros f. reflexivity.
  - split; [apply Hrun; discriminate|]. vm_compute. reflexivity.
Defined.

(** *** File names *)

#[local] Arguments String.append !_ _ / : simpl nomatch.

Lemma append_assoc (a b c : string) : (a +:+ b) +:+ c = a +:+ (b +:+ c).
Proof. induction a as [|x a IH]; simpl; [reflexivity|]. now rewrite IH. Qed.

Lemma length_append (a b : string) :
  String.length (a +:+ b) = (String.length a + String.length b)%nat.
Proof. induction a as [|x a IH]; simpl; [reflexivity|]. now rewrite IH. Qed.

(** Two equal strings cut at the same distance from their end have equal
    parts. *)
Lemma append_inj_suffix (a c b d : string) :
  a +:+ b = c +:+ d -> String.length b = String.length d -> a = c /\ b = d.
Proof.
  revert c. induction a as [|x a IH]; intros [|y c]; simpl; intros H Hl.
  - now split.
  - exfalso. subst b. simpl in Hl. rewrite length_append in Hl. lia.
  - exfalso. subst d. simpl in Hl. rewrite length_append in Hl. lia.
  - injection H as -> H. destruct (IH c H Hl) as [-> ->]. now split.
Qed.

Lemma compare_append (d1 d2 r1 r2 : string) :
  String.length d1 = String.length d2 -> d1 <> d2 ->
  String.compare (d1 +:+ r1) (d2 +:+ r2) = String.compare d1 d2.
Proof.
  revert d2. induction d1 as [|x d1 IH]; intros [|y d2]; simpl; try discriminate.
  - congruence.
  - intros [= Hl] Hne. destruct (Ascii.compare x y) eqn:Hc; try reflexivity.
    apply Ascii.compare_eq_iff in Hc. subst y. apply IH; congruence.
Qed.

Lemma take_length n s : (String.length (Str.take n s) <= n)%nat.
Proof.
  revert s. induction n as [|n IH]; intros [|c s]; simpl; try lia.
  specialize (IH s). lia.
Qed.

Lemma all_take p n s : Str.all p s = true -> Str.all p (Str.take n s) = true.
Proof.
  revert s. induction n as [|n IH]; intros [|c s]; simpl; try reflexivity.
  intros H. apply andb_true_iff in H as [-> H]. now apply IH.
Qed.

Lemma all_filter p s : Str.all p (Str.filter p s) = true.
Proof.
  induction s as [|c s IH]; simpl; [reflexivity|].
  destruct (p c) eqn:Hp; simpl; [now rewrite Hp|exact IH].
Qed.

Lemma all_append p a b :
  Str.all p (a +:+ b) = Str.all p a && Str.all p b.
Proof. induction a as [|c a IH]; simpl; [reflexivity|]. now rewrite IH, andb_assoc. Qed.

Lemma safe_not_space c : safe c = true -> Str.is_space c = false.
Proof. destruct c as [[] [] [] [] [] [] [] []]; vm_compute; congruence. Qed.

Lemma safe_kept c : safe c = true -> kept c = true.
Proof. unfold safe, kept. intros ->. reflexivity. Qed.

Lemma kept_safe c : kept c = true -> Str.is_space c = false -> safe c = true.
Proof. unfold safe, kept. intros H Hs. rewrite Hs in H. now rewrite orb_false_r in H. Qed.

Lemma all_collapse b s : Str.all kept s = true -> Str.all safe (collapse b s) = true.
Proof.
  revert b. induction s as [|c s IH]; intros b; simpl; [reflexivity|].
  intros H. apply andb_true_iff in H as [Hc H].
  destruct (Str.is_space c) eqn:Hs.
  - destruct b; simpl; auto.
  - simpl. rewrite (kept_safe c Hc Hs). simpl. auto.
Qed.

Lemma filter_safe s : Str.all safe s = true -> Str.filter kept s = s.
Proof.
  induction s as [|c s IH]; simpl; [reflexivity|].
  intros H. apply andb_true_iff in H as [Hc H].
  now rewrite (safe_kept c Hc), IH.
Qed.

Lemma collapse_safe s : Str.all safe s = true -> collapse false s = s.
Proof.
  induction s as [|c s IH]; simpl; [reflexivity|].
  intros H. apply andb_true_iff in H as [Hc H].
  now rewrite (safe_not_space c Hc), IH.
Qed.

Lemma collapse_run ws rest :
  Str.all Str.is_space ws = true ->
  Str.starts_with "" rest = true ->
  match rest with String c _ => Str.is_space c = false | EmptyString => True end ->
  collapse true (ws +:+ rest) = collapse false rest.
Proof.
  intros Hw _ Hr. induction ws as [|c ws IH]; simpl.
  - destruct rest as [|c rest]; simpl; [reflexivity|]. now rewrite Hr.
  - simpl in Hw. apply andb_true_iff in Hw as [-> Hw]. now apply IH.
Qed.

(** A run of white space between a safe word and what follows becomes one
    underscore. *)
Lemma collapse_words (word ws rest : string) :
  Str.all safe word = true ->
  ws <> "" -> Str.all Str.is_space ws = true ->
  match rest with String c _ => Str.is_space c = false | EmptyString => True end ->
  collapse false (word +:+ ws +:+ rest) = word +:+ "_" +:+ collapse false rest.
Proof.
  intros Hword Hne Hws Hrest. induction word as [|c word IH]; simpl.
  - destruct ws as [|c ws]; [congruence|]. simpl in *.
    apply andb_true_iff in Hws as [-> Hws]. f_equal. now apply collapse_run.
  - simpl in Hword. apply andb_true_iff in Hword as [Hc Hword].
    rewrite (safe_not_space c Hc). f_equal. now apply IH.
Qed.

Lemma kept_cases c : kept c = safe c || Str.is_space c.
Proof. reflexivity. Qed.

Lemma filter_append p a b : Str.filter p (a +:+ b) = Str.filter p a +:+ Str.filter p b.
Proof.
  induction a as [|c a IH]; simpl; [reflexivity|].
  destruct (p c); simpl; now rewrite IH.
Qed.

(** A character outside the kept class leaves no trace in the slug. *)
Lemma subjectSlug_strips a c b :
  kept c = false -> subjectSlug (a +:+ String c b) = subjectSlug (a +:+ b).
Proof.
  intros Hc. unfold subjectSlug. rewrite !filter_append. simpl. now rewrite Hc.
Qed.

Lemma space_kept c : Str.is_space c = true -> kept c = true.
Proof. unfold kept. intros ->. now rewrite !orb_true_r. Qed.

Lemma filter_kept s : Str.all kept s = true -> Str.filter kept s = s.
Proof.
  induction s as [|c s IH]; simpl; [reflexivity|].
  intros H. apply andb_true_iff in H as [Hc H]. now rewrite Hc, IH.
Qed.

Lemma all_weaken (p q : ascii -> bool) s :
  (forall c, p c = true -> q c = true) -> Str.all p s = true -> Str.all q s = true.
Proof.
  intros Hpq. induction s as [|c s IH]; simpl; [reflexivity|].
  intros H. apply andb_true_iff in H as [Hc H]. now rewrite (Hpq c Hc), IH.
Qed.

Lemma collapse_safe_prefix b word rest :
  Str.all safe word = true -> word <> "" \/ b = false ->
  collapse b (word +:+ rest) = word +:+ collapse false rest.
Proof.
  intros Hw Hb. destruct word as [|c word].
  - destruct Hb as [Hb| ->]; [congruence|reflexivity].
  - clear Hb. simpl in *. apply andb_true_iff in Hw as [Hc Hw].
    rewrite (safe_not_space c Hc). f_equal.
    induction word as [|x word IH]; simpl; [reflexivity|].
    simpl in Hw. apply andb_true_iff in Hw as [Hx Hw].
    rewrite (safe_not_space x Hx). f_equal. now apply IH.
Qed.

Lemma collapse_spaces_prefix ws rest :
  Str.all Str.is_space ws = true ->
  collapse true (ws +:+ rest) = collapse true rest.
Proof.
  induction ws as [|c ws IH]; simpl; [reflexivity|].
  intros H. apply andb_true_iff in H as [-> H]. now apply IH.
Qed.

Lemma collapse_run_start ws rest :
  ws <> "" -> Str.all Str.is_space ws = true ->
  collapse false (ws +:+ rest) = "_" +:+ collapse true rest.
Proof.
  destruct ws as [|c ws]; [congruence|]. intros _ H. simpl in *.
  apply andb_true_iff in H as [-> H]. simpl. f_equal. now apply collapse_spaces_prefix.
Qed.

Lemma collapse_trailing trailing :
  Str.all Str.is_space trailing = true ->
  collapse false trailing = if Str.is_empty trailing then "" else "_".
Proof.
  destruct trailing as [|c ws]; [reflexivity|]. simpl. intros H.
  apply andb_true_iff in H as [-> H]. f_equal.
  induction ws as [|x ws IH]; simpl; [reflexivity|].
  simpl in H. apply andb_true_iff in H as [-> H]. now apply IH.
Qed.

Lemma collapse_segments segments trailing :
  Forall runAndWord segments -> Str.all Str.is_space trailing = true ->
  collapse false (spaced segments +:+ trailing) =
  underscored segments +:+ (if Str.is_empty trailing then "" else "_").
Proof.
  intros Hs Ht. induction Hs as [|[ws word] rest (Hw1 & Hw2 & Hw3 & Hw4) _ IH].
  - simpl. now apply collapse_trailing.
  - simpl in *. rewrite !append_assoc.
    rewrite collapse_run_start by assumption.
    rewrite collapse_safe_prefix by auto. rewrite IH. reflexivity.
Qed.

(** The slug of a text of kept characters: the runs of white space have
    become one underscore each. *)
Lemma subjectSlug_words word0 segments trailing :
  Str.all safe word0 = true -> Forall runAndWord segments ->
  Str.all Str.is_space trailing = true ->
  subjectSlug (word0 +:+ spaced segments +:+ trailing) =
  Str.take 50 (word0 +:+ underscored segments +:+
               (if Str.is_empty trailing then "" else "_")).
Proof.
  intros H0 Hs Ht. unfold subjectSlug. f_equal.
  rewrite filter_kept.
  - rewrite collapse_safe_prefix by auto. f_equal. now apply collapse_segments.
  - rewrite !all_append. apply andb_true_iff. split; [|apply andb_true_iff; split].
    + exact (all_weaken _ _ _ safe_kept H0).
    + clear -Hs. induction Hs as [|[ws word] rest (Hw1 & Hw2 & Hw3 & Hw4) _ IH];
        [reflexivity|]. simpl in *. rewrite !all_append, IH.
      now rewrite (all_weaken _ _ _ space_kept Hw2), (all_weaken _ _ _ safe_kept Hw4).
    + exact (all_weaken _ _ _ space_kept Ht).
Qed.

(** Every text of kept characters is cut in this way. *)
Lemma kept_text_is_words s :
  Str.all kept s = true ->
  exists word0 segments trailing,
    s = word0 +:+ spaced segments +:+ trailing /\
    Str.all safe word0 = true /\ Forall runAndWord segments /\
    Str.all Str.is_space trailing = true.
Proof.
  induction s as [|c s IH]; intros H.
  - exists "", [], "". repeat split; constructor.
  - simpl in H. apply andb_true_iff in H as [Hc H].
    destruct (IH H) as (word0 & segments & trailing & -> & H0 & Hs & Ht).
    destruct (Str.is_space c) eqn:Hsp.
    + destruct word0 as [|x word0].
      * destruct segments as [|[ws word] rest].
        -- exists "", [], (String c trailing). simpl. rewrite Hsp, Ht.
           split; [reflexivity|]. split; [reflexivity|]. split; [constructor|reflexivity].
        -- exists "", ((String c ws, word) :: rest), trailing.
           inversion Hs as [|? ? (Hw1 & Hw2 & Hw3 & Hw4) Hrest]; subst.
           simpl in *. split; [reflexivity|]. split; [reflexivity|]. split; [|assumption].
           constructor; [|assumption]. unfold runAndWord. simpl. rewrite Hsp.
           split; [discriminate|]. split; [assumption|]. split; assumption.
      * exists "", ((String c "", String x word0) :: segments), trailing.
        split; [simpl; now rewrite !append_assoc|]. split; [reflexivity|].
        split; [|assumption].
        constructor; [|assumption]. unfold runAndWord. simpl. rewrite Hsp.
        split; [discriminate|]. split; [reflexivity|]. split; [discriminate|assumption].
    + exists (String c word0), segments, trailing. simpl.
      rewrite (kept_safe c Hc Hsp), H0. repeat split; assumption.
Qed.

Example slug_of_a_subject :
  subjectSlug "Re:  Budget,   2024 (final)!" = "Re_Budget_2024_final".
Proof. reflexivity. Qed.

(** Claim C9, amended.  When [format] accepts the date, the name is the
    formatted date, an underscore, the slug of the subject, an underscore,
    the id as it is, and [.json].  The slug has at most 50 characters, all
    from the safe set.  It is made in three steps.  A character that is
    neither safe nor white space leaves no trace: removing it from the
    subject does not change the slug.  In a subject of safe characters and
    white space, which is always a word, then runs of white space each
    followed by a word, then white space, every run has become one
    underscore.  The result is cut to 50 characters.  (So a subject of safe
    characters is its own slug up to the cut.)  Two records with ids of the
    same length and the same name have the same id.  The name is made of safe
    characters and dots when the date and the id are.  Names whose dates have
    the same length and differ compare as their dates do. *)
Theorem file_name_shape env e date :
  env_formatDate env (receivedDateTime e) = Some date ->
  fileName env e =
    Some (date +:+ "_" +:+ subjectSlug (subject e) +:+ "_" +:+ id e +:+ ".json") /\
  (String.length (subjectSlug (subject e)) <= 50)%nat /\
  Str.all safe (subjectSlug (subject e)) = true /\
  (forall s, Str.all safe s = true -> subjectSlug s = Str.take 50 s) /\
  (forall word ws rest,
     Str.all safe word = true -> ws <> "" -> Str.all Str.is_space ws = true ->
     Str.all safe rest = true ->
     subjectSlug (word +:+ ws +:+ rest) = Str.take 50 (word +:+ "_" +:+ rest)) /\
  (forall e2,
     fileName env e2 = fileName env e ->
     String.length (id e2) = String.length (id e) -> id e2 = id e) /\
  (Str.all safe date = true -> Str.all safe (id e) = true ->
   forall n, fileName env e = Some n ->
             Str.all (fun c => safe c || Ascii.eqb c ".") n = true) /\
  (forall e2 date2 n n2,
     env_formatDate env (receivedDateTime e2) = Some date2 ->
     String.length date = String.length date2 -> date <> date2 ->
     fileName env e = Some n -> fileName env e2 = Some n2 ->
     String.compare n n2 = String.compare date date2) /\
  (forall a c b,
     safe c = false -> Str.is_space c = false ->
     subjectSlug (a +:+ String c b) = subjectSlug (a +:+ b)) /\
  (forall word0 segments trailing,
     Str.all safe word0 = true -> Forall runAndWord segments ->
     Str.all Str.is_space trailing = true ->
     subjectSlug (word0 +:+ spaced segments +:+ trailing) =
     Str.take 50 (word0 +:+ underscored segments +:+
                  (if Str.is_empty trailing then "" else "_"))) /\
  (forall s,
     Str.all (fun c => safe c || Str.is_space c) s = true ->
     exists word0 segments trailing,
       s = word0 +:+ spaced segments +:+ trailing /\
       Str.all safe word0 = true /\ Forall runAndWord segments /\
       Str.all Str.is_space trailing = true).
Proof.
  intros Hdate.
  assert (Hname : fileName env e =
    Some (date +:+ "_" +:+ subjectSlug (subject e) +:+ "_" +:+ id e +:+ ".json"))
    by (unfold fileName; now rewrite Hdate).
  assert (Hsafe : forall s, Str.all safe (subjectSlug s) = true).
  { intros s. unfold subjectSlug. apply all_take, all_collapse, all_filter. }
  split; [exact Hname|]. split; [apply take_length|]. split; [apply Hsafe|].
  split; [|split; [|split; [|split; [|split; [|split; [|split]]]]]].
  - intros s Hs. unfold subjectSlug. now rewrite filter_safe, collapse_safe.
  - intros word ws rest Hw Hne Hws Hr. unfold subjectSlug.
    assert (Hk : Str.filter kept (word +:+ ws +:+ rest) = word +:+ ws +:+ rest).
    { clear Hne. induction word as [|c word IH]; simpl.
      - induction ws as [|c ws IH]; simpl; [now apply filter_safe|].
        simpl in Hws. apply andb_true_iff in Hws as [Hc Hws].
        unfold kept at 1. rewrite Hc, !orb_true_r. f_equal. now apply IH.
      - simpl in Hw. apply andb_true_iff in Hw as [Hc Hw].
        rewrite (safe_kept c Hc). f_equal. now apply IH. }
    rewrite Hk, collapse_words, (collapse_safe rest Hr); auto.
    destruct rest as [|c rest]; [exact I|].
    simpl in Hr. apply andb_true_iff in Hr as [Hc _]. now apply safe_not_space.
  - intros e2 Heq Hlen. rewrite Hname in Heq. unfold fileName in Heq.
    destruct (env_formatDate env (receivedDateTime e2)) as [date2|]; [|discriminate].
    injection Heq as Heq.
    assert (H : (date2 +:+ "_" +:+ subjectSlug (subject e2) +:+ "_") +:+ (id e2 +:+ ".json")
              = (date +:+ "_" +:+ subjectSlug (subject e) +:+ "_") +:+ (id e +:+ ".json")).
    { rewrite !append_assoc. exact Heq. }
    apply append_inj_suffix in H as [_ H]; [|rewrite !length_append; simpl; lia].
    apply append_inj_suffix in H as [H _]; [exact H|reflexivity].
  - intros Hd Hi n Hn. rewrite Hname in Hn. injection Hn as <-.
    assert (Hw : forall s, Str.all safe s = true ->
                           Str.all (fun c => safe c || Ascii.eqb c ".") s = true).
    { intros s. induction s as [|c s IH]; simpl; [reflexivity|].
      intros H. apply andb_true_iff in H as [-> H]. simpl. now apply IH. }
    rewrite all_append, (Hw _ Hd). simpl.
    rewrite all_append, (Hw _ (Hsafe (subject e))). simpl.
    rewrite all_append, (Hw _ Hi). reflexivity.
  - intros e2 date2 n n2 Hd2 Hlen Hne Hn Hn2. rewrite Hname in Hn. injection Hn as <-.
    unfold fileName in Hn2. rewrite Hd2 in Hn2. injection Hn2 as <-.
    now apply compare_append.
  - intros a c b Hc Hs. apply subjectSlug_strips. rewrite kept_cases, Hc, Hs. reflexivity.
  - apply subjectSlug_words.
  - intros s Hs. apply kept_text_is_words.
    exact (all_weaken _ _ _ (fun c H => eq_trans (kept_cases c) H) Hs).
Qed.

Lemma file_name_shape_witness :
  fileName Scenario.quiet Scenario.second = Some Scenario.secondName /\
  (String.length (subjectSlug (subject Scenario.second)) <= 50)%nat /\
  Str.all safe (subjectSlug (subject Scenario.second)) = true.
Proof.
  destruct (file_name_shape Scenario.quiet Scenario.second "2024-05-01_11-00-00")
    as (H1 & H2 & H3 & _).
  - reflexivity.
  - split; [exact H1|split; [exact H2|exact H3]].
Defined.

(** Claim C9 as stated fails: the names collide although the ids differ,
    because the underscore that separates subject and id may occur in both. *)
Lemma distinct_ids_same_name :
  id Scenario.report <> id Scenario.q3 /\
  fileName Scenario.quiet Scenario.report = fileName Scenario.quiet Scenario.q3 /\
  fileName Scenario.quiet Scenario.report =
    Some "2024-05-01_10-00-00_Q3_report_AAMkAD_9.json".
Proof. repeat split; [discriminate|reflexivity..]. Qed.

(** *** Staging is keyed by the file name *)






(** Two records with one id whose dates differ below the second only and
    whose subjects agree: one name, one staged unit. *)
Example same_second_one_unit :
  let a := Scenario.message "id-7" "Draft" "2024-05-01T10:00:00Z" false in
  let b := Scenario.message "id-7" "Draft" "2024-05-01T10:00:00.500Z" false in
  receivedDateTime a <> receivedDateTime b /\
  fileName Scenario.quiet a = fileName Scenario.quiet b /\
  size (fs (saveEmailsBatch Scenario.quiet [a; b] "./emails" Scenario.emptyWorld).2) = 1%nat.
Proof. vm_compute. repeat split. discriminate. Qed.

End DownloaderFacts.

(** ** Files are only added

    None of the functions of [AuthManager] and [EmailDownloader] removes a
    file: whatever the outside answers and however the call ends, the files
    that were there are still there. *)

Module Frame.

Lemma keeps_refl w : keeps w w.
Proof. intros k H. exact H. Qed.

Lemma keeps_trans w1 w2 w3 : keeps w1 w2 -> keeps w2 w3 -> keeps w1 w3.
Proof. intros H1 H2 k H. apply H2, H1, H. Qed.

Lemma keeps_same_files w w' : fs w' = fs w -> keeps w w'.
Proof. intros E k H. now rewrite E. Qed.

Lemma Keeping_ret {A} (a : A) : Keeping (ret a).
Proof. intros w. apply keeps_refl. Qed.

Lemma Keeping_throw {A} e : Keeping (@throw A e).
Proof. intros w. apply keeps_refl. Qed.

Lemma Keeping_exit {A} c : Keeping (@exit A c).
Proof. intros w. apply keeps_refl. Qed.

Lemma Keeping_record e : Keeping (record e).
Proof. intros w. now apply keeps_same_files. Qed.

Lemma Keeping_log l m : Keeping (log l m).
Proof. apply Keeping_record. Qed.

Lemma Keeping_spinner s : Keeping (spinner s).
Proof. apply Keeping_record. Qed.

Lemma Keeping_bind {A B} (m : M A) (k : A -> M B) :
  Keeping m -> (forall a, Keeping (k a)) -> Keeping (bind m k).
Proof.
  intros Hm Hk w. unfold bind. specialize (Hm w).
  destruct (m w) as [[a|e|c] w1]; simpl in *; [|exact Hm..].
  eapply keeps_trans; [exact Hm|apply Hk].
Qed.

Lemma Keeping_try {A} (body : M A) (handler : Error -> M A) :
  Keeping body -> (forall e, Keeping (handler e)) -> Keeping (try_catch body handler).
Proof.
  intros Hb Hh w. unfold try_catch. specialize (Hb w).
  destruct (body w) as [[a|e|c] w1]; simpl in *; [exact Hb| |exact Hb].
  eapply keeps_trans; [exact Hb|apply Hh].
Qed.

Lemma Keeping_for_each {A} (body : A -> M unit) xs :
  (forall x, Keeping (body x)) -> Keeping (for_each body xs).
Proof.
  intros Hb. induction xs as [|x xs IH]; simpl; [apply Keeping_ret|].
  apply Keeping_bind; [apply Hb|intros _; exact IH].
Qed.

Create HintDb keeping.
#[local] Hint Resolve Keeping_ret Keeping_throw Keeping_exit Keeping_record
  Keeping_log Keeping_spinner : keeping.

Ltac keeping :=
  repeat first
    [ progress auto with keeping
    | apply Keeping_bind
    | apply Keeping_try
    | apply Keeping_for_each
    | match goal with
      | |- forall _, _ => intro
      | |- Keeping (match ?x with _ => _ end) => destruct x
      | |- Keeping (if ?b then _ else _) => destruct b
      end ].

Section WithEnv.
Variable env : Env.

Lemma Keeping_now : Keeping (Auth.now env).
Proof. intros w. now apply keeps_same_files. Qed.

Lemma Keeping_initializeMsal : Keeping (Auth.initializeMsal env).
Proof.
  intros w. apply keeps_same_files. unfold Auth.initializeMsal.
  destruct (msalInstance w); [reflexivity|]. destruct (env_msalInit _ _); reflexivity.
Qed.

Lemma Keeping_getCachedToken : Keeping Auth.getCachedToken.
Proof.
  intros w. apply keeps_same_files. unfold Auth.getCachedToken, bind, record. simpl.
  destruct (tokenCache w); reflexivity.
Qed.

Lemma Keeping_cacheToken t : Keeping (Auth.cacheToken env t).
Proof.
  intros w. apply keeps_same_files. unfold Auth.cacheToken.
  destruct (env_cacheWrite _ _); reflexivity.
Qed.

#[local] Hint Resolve Keeping_now Keeping_initializeMsal Keeping_getCachedToken
  Keeping_cacheToken : keeping.

Lemma Keeping_isTokenValid t : Keeping (Auth.isTokenValid env t).
Proof. unfold Auth.isTokenValid. keeping. Qed.

#[local] Hint Resolve Keeping_isTokenValid : keeping.

Lemma Keeping_isAuthenticated : Keeping (Auth.isAuthenticated env).
Proof. unfold Auth.isAuthenticated. keeping. Qed.

Lemma Keeping_refresh t : Keeping (Auth.refresh env t).
Proof.
  unfold Auth.refresh. keeping.
  intros w. apply keeps_same_files. destruct (env_silent _ _ _); reflexivity.
Qed.

#[local] Hint Resolve Keeping_refresh : keeping.

Lemma Keeping_getAccessToken : Keeping (Auth.getAccessToken env).
Proof. unfold Auth.getAccessToken. keeping. Qed.


#[local] Hint Resolve Keeping_getAccessToken : keeping.

Import Downloader.

Lemma Keeping_write dir name c : Keeping (write env dir name c).
Proof.
  intros w k H. unfold write. destruct (env_disk _ _ _ _); simpl; [exact H|].
  destruct (decide ((dir, name) = k)) as [->|Hne].
  - rewrite lookup_insert_eq. eauto.
  - now rewrite lookup_insert_ne.
Qed.

Lemma Keeping_getFolders name : Keeping (getFolders env name).
Proof.
  intros w. apply keeps_same_files. unfold getFolders.
  destruct (env_folders _ _ _); reflexivity.
Qed.

Lemma Keeping_getCount fid f : Keeping (getCount env fid f).
Proof.
  intros w. apply keeps_same_files. unfold getCount.
  destruct (env_count _ _ _ _); reflexivity.
Qed.

Lemma Keeping_getPage fid f top skip : Keeping (getPage env fid f top skip).
Proof.
  intros w. apply keeps_same_files. unfold getPage.
  destruct (env_page _ _ _ _ _ _); reflexivity.
Qed.

Lemma Keeping_getAttachments i : Keeping (getAttachments env i).
Proof.
  intros w. apply keeps_same_files. unfold getAttachments.
  destruct (env_attachments _ _ _); reflexivity.
Qed.

Lemma Keeping_isoNow : Keeping (isoNow env).
Proof. intros w. now apply keeps_same_files. Qed.

#[local] Hint Resolve Keeping_write Keeping_getFolders Keeping_getCount Keeping_getPage
  Keeping_getAttachments Keeping_isoNow : keeping.

Lemma Keeping_getFolderId tok name : Keeping (getFolderId env tok name).
Proof. unfold getFolderId. keeping. Qed.

Lemma Keeping_buildFilter options : Keeping (buildFilter options).
Proof. unfold buildFilter, toISOString. keeping. Qed.

#[local] Hint Resolve Keeping_getFolderId Keeping_buildFilter : keeping.

Lemma Keeping_getEmailCount tok fid options : Keeping (getEmailCount env tok fid options).
Proof. unfold getEmailCount. keeping. Qed.

Lemma Keeping_enrich_all tok l : Keeping (enrich_all env tok l).
Proof.
  induction l as [|e l IH]; simpl; [apply Keeping_ret|].
  unfold enrich, fetchEmailAttachments. keeping.
Qed.

#[local] Hint Resolve Keeping_getEmailCount Keeping_enrich_all : keeping.

Lemma Keeping_fetchEmailBatch tok fid options top skip :
  Keeping (fetchEmailBatch env tok fid options top skip).
Proof. unfold fetchEmailBatch. keeping. Qed.

Lemma Keeping_saveEmailsBatch emails dir : Keeping (saveEmailsBatch env emails dir).
Proof. unfold saveEmailsBatch, saveEmail, generateEmailFileName. keeping. Qed.

Lemma Keeping_ensureOutputDirectory dir : Keeping (ensureOutputDirectory env dir).
Proof. unfold ensureOutputDirectory. keeping. Qed.

#[local] Hint Resolve Keeping_fetchEmailBatch Keeping_saveEmailsBatch
  Keeping_ensureOutputDirectory : keeping.

Lemma Keeping_iteration tok fid options total st :
  Keeping (iteration env tok fid options total st).
Proof. unfold iteration. destruct st as [d sk]. keeping. Qed.

Lemma Keeping_while tok fid options total st : Keeping (while env tok fid options total st).
Proof.
  intros w. funelim (while env tok fid options total st w).
  all: match goal with
       | E : iteration _ _ _ _ _ _ ?w0 = (_, ?w1) |- _ =>
           assert (Hstep : keeps w0 w1)
             by (pose proof (Keeping_iteration tok fid options total st w0) as Hk;
                 rewrite E in Hk; exact Hk)
       end.
  - eapply keeps_trans; [exact Hstep|]. auto.
  - exact Hstep.
  - exact Hstep.
  - exact Hstep.
Qed.

Lemma Keeping_downloadEmailsBatch tok fid options total :
  Keeping (downloadEmailsBatch env tok fid options total).
Proof. apply Keeping_while. Qed.

#[local] Hint Resolve Keeping_downloadEmailsBatch : keeping.

Lemma Keeping_downloadEmails options : Keeping (downloadEmails env options).
Proof. unfold downloadEmails. keeping. Qed.

End WithEnv.
End Frame.

(** ** The [full] pipeline *)

Module CliFacts.
Import Cli.

(** Claim C6.  After a successful authentication check: when the download
    throws, or the download succeeds and the export throws, the command ends
    with exit code 1 in the world the failing phase left, with one error
    message added; the files are those the failing phase left, no removal
    was run, and every file that was there before the command (and every
    file the download had written) is still there when the download ends.
    The removal of the staging directory is run from the world a successful
    export left, and only then. *)
Theorem failure_keeps_staging env exportToMbox o w w0 :
  Auth.isAuthenticated env w = (Ok true, w0) ->
  (forall e w1,
     Downloader.downloadEmails env (downloadOptions o) w0 = (Throw e, w1) ->
     full env exportToMbox o w = (Exit 1, emit (EvLog LError (MsgPipelineError e)) w1) /\
     fs (full env exportToMbox o w).2 = fs w1 /\
     trace (full env exportToMbox o w).2 = (trace w1 ++ [EvLog LError (MsgPipelineError e)])%list /\
     keeps w (full env exportToMbox o w).2) /\
  (forall wd e w1,
     Downloader.downloadEmails env (downloadOptions o) w0 = (Ok tt, wd) ->
     exportToMbox (exportOptions o) wd = (Throw e, w1) ->
     full env exportToMbox o w = (Exit 1, emit (EvLog LError (MsgPipelineError e)) w1) /\
     fs (full env exportToMbox o w).2 = fs w1 /\
     trace (full env exportToMbox o w).2 = (trace w1 ++ [EvLog LError (MsgPipelineError e)])%list /\
     keeps w wd) /\
  (forall wd we,
     Downloader.downloadEmails env (downloadOptions o) w0 = (Ok tt, wd) ->
     exportToMbox (exportOptions o) wd = (Ok tt, we) ->
     full env exportToMbox o w =
     try_catch (removeDir env tempDir;; log Success MsgPipelineDone)
               (fun e => log LError (MsgPipelineError e);; exit 1) we).
Proof.
  intros Hauth.
  assert (Hw0 : keeps w w0).
  { pose proof (Frame.Keeping_isAuthenticated env w) as H. now rewrite Hauth in H. }
  assert (Hdl : forall r w1,
            Downloader.downloadEmails env (downloadOptions o) w0 = (r, w1) -> keeps w w1).
  { intros r w1 Hd. eapply Frame.keeps_trans; [exact Hw0|].
    pose proof (Frame.Keeping_downloadEmails env (downloadOptions o) w0) as H.
    now rewrite Hd in H. }
  split; [|split].
  - intros e w1 Hd.
    assert (H : full env exportToMbox o w =
                (Exit 1, emit (EvLog LError (MsgPipelineError e)) w1)).
    { unfold full, try_catch. unfold bind at 1. rewrite Hauth. simpl.
      unfold bind at 1. unfold ret at 1. unfold bind at 1. rewrite Hd. reflexivity. }
    rewrite H. split; [reflexivity|]. split; [reflexivity|]. split; [reflexivity|].
    eapply Frame.keeps_trans; [exact (Hdl _ _ Hd)|]. now apply Frame.keeps_same_files.
  - intros wd e w1 Hd He.
    assert (H : full env exportToMbox o w =
                (Exit 1, emit (EvLog LError (MsgPipelineError e)) w1)).
    { unfold full, try_catch. unfold bind at 1. rewrite Hauth. simpl.
      unfold bind at 1. unfold ret at 1. unfold bind at 1. rewrite Hd.
      unfold bind at 1. rewrite He. reflexivity. }
    rewrite H. split; [reflexivity|]. split; [reflexivity|]. split; [reflexivity|].
    exact (Hdl _ _ Hd).
  - intros wd we Hd He.
    unfold full, try_catch. unfold bind at 1. rewrite Hauth. simpl.
    unfold bind at 1. unfold ret at 1. unfold bind at 1. rewrite Hd.
    unfold bind at 1. rewrite He. reflexivity.
Qed.

Lemma failure_keeps_staging_witness :
  let w0 := (Auth.isAuthenticated Scenario.throttled Scenario.signedIn).2 in
  let d := Downloader.downloadEmails Scenario.throttled
             (downloadOptions Scenario.fullDefaults) w0 in
  full Scenario.throttled Scenario.exporter Scenario.fullDefaults Scenario.signedIn =
    (Exit 1, emit (EvLog LError (MsgPipelineError (HttpError "429"))) d.2) /\
  fs (full Scenario.throttled Scenario.exporter Scenario.fullDefaults Scenario.signedIn).2
    = fs d.2.
Proof.
  intros w0 d.
  assert (Ha : Auth.isAuthenticated Scenario.throttled Scenario.signedIn = (Ok true, w0))
    by (apply pair_eta; vm_compute; reflexivity).
  assert (Hd : d = (Throw (HttpError "429"), d.2))
    by (apply pair_eta; vm_compute; reflexivity).
  destruct (proj1 (failure_keeps_staging Scenario.throttled Scenario.exporter
                     Scenario.fullDefaults Scenario.signedIn w0 Ha) _ _ Hd)
    as (H1 & H2 & _).
  split; assumption.
Defined.

(** The provider serves one page and rejects the next: the command exits
    with code 1, the fifty staged units and the [.keep] file are still in
    the staging directory, and nothing was removed or exported. *)
Example staged_units_survive_a_failed_run :
  let r := full Scenario.throttled Scenario.exporter Scenario.fullDefaults
             Scenario.signedIn in
  r.1 = Exit 1 /\
  size (fs r.2) = 51%nat /\
  List.filter (fun ev => match ev with
                         | EvRemoveDir _ _ | EvExport _ => true
                         | _ => false
                         end) (trace r.2) = [].
Proof. vm_compute. repeat split. Qed.

End CliFacts.

(** ** "From " quoting *)

Module MboxFacts.
Import Mbox.

#[local] Arguments String.append !_ _ / : simpl nomatch.

Lemma splitLines_oneLine s : Forall (fun l => oneLine l = true) (splitLines s).
Proof.
  induction s as [|c s IH]; simpl; [repeat constructor|].
  destruct (Ascii.eqb c LF) eqn:Hc; [constructor; [reflexivity|exact IH]|].
  destruct (splitLines s) as [|l ls];
    [constructor; [unfold oneLine; simpl; now rewrite Hc|constructor]|].
  inversion IH as [|? ? Hl Hls]; subst. constructor; [|exact Hls].
  unfold oneLine in *. simpl. now rewrite Hc.
Qed.

Lemma splitLines_nonempty s : splitLines s <> [].
Proof.
  destruct s as [|c s]; simpl; [discriminate|].
  destruct (Ascii.eqb c LF); [discriminate|]. destruct (splitLines s); discriminate.
Qed.

Lemma splitLines_single l : oneLine l = true -> splitLines l = [l].
Proof.
  unfold oneLine. induction l as [|c l IH]; simpl; [reflexivity|].
  intros H. apply andb_true_iff in H as [Hc H].
  apply negb_true_iff in Hc. rewrite Hc, (IH H). reflexivity.
Qed.

Lemma splitLines_append l rest :
  oneLine l = true -> splitLines (l +:+ String LF rest) = l :: splitLines rest.
Proof.
  unfold oneLine. induction l as [|c l IH]; simpl.
  - intros _. reflexivity.
  - intros H. apply andb_true_iff in H as [Hc H].
    apply negb_true_iff in Hc. rewrite Hc, (IH H). reflexivity.
Qed.

Lemma split_join ls :
  ls <> [] -> Forall (fun l => oneLine l = true) ls -> splitLines (joinLines ls) = ls.
Proof.
  induction ls as [|l ls IH]; [congruence|]. intros _ H.
  inversion H as [|? ? Hl Hls]; subst.
  destruct ls as [|l2 ls].
  - now apply splitLines_single.
  - change (joinLines (l :: l2 :: ls)) with (l +:+ String LF (joinLines (l2 :: ls))).
    rewrite splitLines_append by exact Hl. f_equal. apply IH; [discriminate|exact Hls].
Qed.

Lemma quoteLine_oneLine l : oneLine l = true -> oneLine (quoteLine l) = true.
Proof.
  unfold quoteLine. destruct (Str.starts_with _ _); [|auto].
  intros H. unfold oneLine in *. simpl. exact H.
Qed.

Lemma dropQuotes_from rest : dropQuotes ("From " +:+ rest) = "From " +:+ rest.
Proof. reflexivity. Qed.

Lemma dropQuotes_quotes n s : dropQuotes (quotes n +:+ s) = dropQuotes s.
Proof. induction n as [|n IH]; simpl; [reflexivity|exact IH]. Qed.

Lemma quoteLine_clean l : Str.starts_with "From " (quoteLine l) = false.
Proof.
  unfold quoteLine. destruct (Str.starts_with "From " (dropQuotes l)) eqn:H.
  - reflexivity.
  - destruct l as [|c l]; [reflexivity|]. simpl in H.
    destruct (Ascii.eqb c ">") eqn:Hc; [|exact H].
    apply Ascii.eqb_eq in Hc. subst c. reflexivity.
Qed.

(** Claim C2.  In the quoted content every line is the quoted form of the
    corresponding line of the content; a line that begins with "From " gets
    one ">" in front, and so does a line that begins with any number of ">"
    followed by "From "; no line of the quoted content begins with
    "From ". *)
Theorem from_lines_are_quoted content :
  splitLines (quoteContent content) = map quoteLine (splitLines content) /\
  (forall rest, quoteLine ("From " +:+ rest) = ">From " +:+ rest) /\
  (forall n rest,
     quoteLine (quotes n +:+ "From " +:+ rest) = ">" +:+ quotes n +:+ "From " +:+ rest) /\
  Forall (fun line => Str.starts_with "From " line = false)
         (splitLines (quoteContent content)) /\
  quoteLine "From hacker@evil.com now" = ">From hacker@evil.com now" /\
  quoteLine ">From already" = ">>From already".
Proof.
  assert (Hsplit : splitLines (quoteContent content) = map quoteLine (splitLines content)).
  { unfold quoteContent. apply split_join.
    - pose proof (splitLines_nonempty content). destruct (splitLines content); [congruence|discriminate].
    - pose proof (splitLines_oneLine content) as H. induction H; constructor; auto.
      now apply quoteLine_oneLine. }
  split; [exact Hsplit|]. split; [reflexivity|]. split; [|split; [|split; reflexivity]].
  - intros n rest. unfold quoteLine. rewrite dropQuotes_quotes, dropQuotes_from.
    reflexivity.
  - rewrite Hsplit. clear Hsplit.
    induction (splitLines content) as [|l ls IH]; [constructor|].
    change (map quoteLine (l :: ls)) with (quoteLine l :: map quoteLine ls).
    constructor; [apply quoteLine_clean|exact IH].
Qed.

Example quoting_a_body :
  quoteContent
    ("Hi," +:+ String LF ("From hacker@evil.com now" +:+ String LF
     (">From already" +:+ String LF "bye"))) =
  "Hi," +:+ String LF (">From hacker@evil.com now" +:+ String LF
  (">>From already" +:+ String LF "bye")).
Proof. reflexivity. Qed.

End MboxFacts.

(** * Further properties

    ** Effects of a call, by composition

    A relation [R] between the world before and the world after a call that
    is reflexive, transitive and holds for every step the call can take holds
    for the call.  The steps are: recording an event, initialising MSAL,
    writing the token cache, writing a file. *)

Module Effects.
Import Downloader.

Section Relation.

Variable R : World -> World -> Prop.
Variable allowed : Event -> Prop.

Hypothesis R_refl : forall w, R w w.
Hypothesis R_trans : forall w1 w2 w3, R w1 w2 -> R w2 w3 -> R w1 w3.
Hypothesis R_emit : forall e w, allowed e -> R w (emit e w).

Lemma Respects_ret {A} (a : A) : Respects R (ret a).
Proof. intros w. apply R_refl. Qed.

Lemma Respects_throw {A} e : Respects R (@throw A e).
Proof. intros w. apply R_refl. Qed.

Lemma Respects_exit {A} c : Respects R (@exit A c).
Proof. intros w. apply R_refl. Qed.

Lemma Respects_record e : allowed e -> Respects R (record e).
Proof. intros He w. now apply R_emit. Qed.

Lemma Respects_bind {A B} (m : M A) (k : A -> M B) :
  Respects R m -> (forall a, Respects R (k a)) -> Respects R (bind m k).
Proof.
  intros Hm Hk w. unfold bind. specialize (Hm w).
  destruct (m w) as [[a|e|c] w1]; simpl in *; [|exact Hm..].
  eapply R_trans; [exact Hm|apply Hk].
Qed.

Lemma Respects_try {A} (body : M A) (handler : Error -> M A) :
  Respects R body -> (forall e, Respects R (handler e)) -> Respects R (try_catch body handler).
Proof.
  intros Hb Hh w. unfold try_catch. specialize (Hb w).
  destruct (body w) as [[a|e|c] w1]; simpl in *; [exact Hb| |exact Hb].
  eapply R_trans; [exact Hb|apply Hh].
Qed.

Lemma Respects_for_each {A} (body : A -> M unit) xs :
  (forall x, Respects R (body x)) -> Respects R (for_each body xs).
Proof.
  intros Hb. induction xs as [|x xs IH]; simpl; [apply Respects_ret|].
  apply Respects_bind; [apply Hb|intros _; exact IH].
Qed.

(** The events of the program itself. *)
Hypothesis allowed_log : forall l m, allowed (EvLog l m).
Hypothesis allowed_spinner : forall s, allowed (EvSpinner s).
Hypothesis allowed_clock : allowed EvClock.
Hypothesis allowed_read : allowed EvReadCache.

Lemma Respects_log l m : Respects R (log l m).
Proof. apply Respects_record, allowed_log. Qed.

Lemma Respects_spinner s : Respects R (spinner s).
Proof. apply Respects_record, allowed_spinner. Qed.

Ltac respects :=
  repeat first
    [ apply Respects_ret | apply Respects_throw | apply Respects_exit
    | apply Respects_log | apply Respects_spinner
    | solve [auto]
    | apply Respects_bind
    | apply Respects_try
    | apply Respects_for_each
    | match goal with
      | |- forall _, _ => intro
      | |- Respects _ (match ?x with _ => _ end) => destruct x
      | |- Respects _ (if ?b then _ else _) => destruct b
      end ].

Variable env : Env.

Lemma Respects_now : Respects R (Auth.now env).
Proof. intros w. now apply R_emit. Qed.

Lemma Respects_isoNow : Respects R (isoNow env).
Proof. intros w. now apply R_emit. Qed.

Lemma Respects_getCachedToken : Respects R Auth.getCachedToken.
Proof.
  unfold Auth.getCachedToken. apply Respects_bind; [now apply Respects_record|].
  intros _ w. destruct (tokenCache w); simpl; auto.
Qed.

Lemma Respects_isTokenValid t : Respects R (Auth.isTokenValid env t).
Proof. unfold Auth.isTokenValid. pose proof Respects_now. respects. Qed.

Lemma Respects_isAuthenticated : Respects R (Auth.isAuthenticated env).
Proof.
  unfold Auth.isAuthenticated.
  pose proof Respects_getCachedToken. pose proof Respects_isTokenValid. respects.
Qed.

(** The session: MSAL and the token cache. *)
Hypothesis R_msal : Respects R (Auth.initializeMsal env).
Hypothesis R_cache : forall t, Respects R (Auth.cacheToken env t).
Hypothesis allowed_silent : allowed EvSilentRefresh.

Lemma Respects_refresh t : Respects R (Auth.refresh env t).
Proof.
  unfold Auth.refresh. respects.
  intros w. destruct (env_silent _ _ _); simpl; auto.
Qed.

Lemma Respects_getAccessToken : Respects R (Auth.getAccessToken env).
Proof.
  unfold Auth.getAccessToken.
  pose proof Respects_getCachedToken. pose proof Respects_isTokenValid.
  pose proof Respects_refresh. respects.
Qed.

Lemma Respects_authenticate deviceCode : Respects R (Auth.authenticate env deviceCode).
Proof.
  unfold Auth.authenticate.
  pose proof Respects_getCachedToken. pose proof Respects_isTokenValid.
  respects.
  intros w. unfold Auth.acquireTokenByDeviceCode. destruct (deviceCode _); simpl; auto.
Qed.

(** The requests other than page requests. *)
Hypothesis allowed_folders : forall n, allowed (EvFolderLookup n).
Hypothesis allowed_count : forall fid f, allowed (EvCount fid f).
Hypothesis allowed_attachments : forall i, allowed (EvAttachments i).

Lemma Respects_getFolderId tok name : Respects R (getFolderId env tok name).
Proof.
  unfold getFolderId. respects.
  intros w. unfold getFolders. destruct (env_folders _ _ _); simpl; auto.
Qed.

Lemma Respects_buildFilter options : Respects R (buildFilter options).
Proof. unfold buildFilter, toISOString. respects. Qed.

Lemma Respects_getEmailCount tok fid options : Respects R (getEmailCount env tok fid options).
Proof.
  unfold getEmailCount. pose proof Respects_buildFilter. respects.
  intros w. unfold getCount. destruct (env_count _ _ _ _); simpl; auto.
Qed.

Lemma Respects_enrich_all tok l : Respects R (enrich_all env tok l).
Proof.
  induction l as [|e l IH]; simpl; [apply Respects_ret|].
  unfold enrich, fetchEmailAttachments. respects.
  intros w. unfold getAttachments. destruct (env_attachments _ _ _); simpl; auto.
Qed.

Lemma Respects_fetchEmailBatch tok fid options top skip :
  (forall f, allowed (EvPage fid f top skip)) ->
  Respects R (fetchEmailBatch env tok fid options top skip).
Proof.
  intros Hp. unfold fetchEmailBatch.
  pose proof Respects_buildFilter. pose proof Respects_enrich_all.
  apply Respects_try; [|respects].
  apply Respects_bind; [auto|]. intros f.
  apply Respects_bind; [|respects].
  intros w. unfold getPage. destruct (env_page _ _ _ _ _ _); simpl; auto.
Qed.

(** Writes, all of them into one directory. *)
Variable dir : string.
Hypothesis R_write : forall name c, Respects R (write env dir name c).

Lemma Respects_saveEmailsBatch emails : Respects R (saveEmailsBatch env emails dir).
Proof.
  unfold saveEmailsBatch, saveEmail, generateEmailFileName.
  pose proof Respects_isoNow. respects.
Qed.

Lemma Respects_ensureOutputDirectory : Respects R (ensureOutputDirectory env dir).
Proof. unfold ensureOutputDirectory. respects. Qed.

Section Loop.

Variables (tok : string) (fid : FolderRef) (options : DownloadOptions) (total : Z).

Hypothesis to_dir : outputPath options = dir.

(** The page requests the loop can issue. *)
Hypothesis allowed_page :
  forall f d skip,
    0 <= d -> d < total -> d < limit options ->
    allowed (EvPage fid f
               (Z.min (Z.min (effectiveBatchSize options) (limit options - d)) (total - d))
               skip).

(** [downloadedCount] only grows. *)
Lemma iteration_grows st w st' w' :
  iteration env tok fid options total st w = (Ok (Some st'), w') -> st.1 < st'.1.
Proof.
  destruct st as [d sk]. unfold iteration, bind, ret, throw, log, record.
  destruct (d <? total); simpl; [|discriminate].
  destruct (d <? limit options); simpl; [|discriminate].
  destruct (fetchEmailBatch _ _ _ _ _ _) as [[[l|]| |] w1]; try discriminate.
  destruct (len l =? 0) eqn:Hl; [discriminate|].
  destruct (saveEmailsBatch _ _ _) as [[[]| |] w2]; try discriminate.
  intros [= <- <-]. simpl.
  apply Z.eqb_neq in Hl. unfold len in *. lia.
Qed.

Lemma Respects_iteration st :
  0 <= st.1 -> Respects R (iteration env tok fid options total st).
Proof.
  unfold iteration. destruct st as [d skip]. simpl. intros Hd.
  destruct (d <? total) eqn:Ht; simpl; [|apply Respects_ret].
  destruct (d <? limit options) eqn:Hl; simpl; [|apply Respects_ret].
  apply Z.ltb_lt in Ht, Hl.
  pose proof Respects_saveEmailsBatch. rewrite to_dir.
  apply Respects_bind; [apply Respects_log|]. intros _.
  apply Respects_bind; [apply Respects_fetchEmailBatch; intros f; now apply allowed_page|].
  respects.
Qed.

Lemma Respects_while st :
  0 <= st.1 -> Respects R (while env tok fid options total st).
Proof.
  intros Hst w. funelim (while env tok fid options total st w).
  all: match goal with
       | E : iteration _ _ _ _ _ _ ?w0 = (_, ?w1) |- _ =>
           assert (Hstep : R w0 w1)
             by (pose proof (Respects_iteration st Hst w0) as Hk;
                 rewrite E in Hk; exact Hk)
       end.
  - eapply R_trans; [exact Hstep|].
    match goal with
    | E : iteration _ _ _ _ _ _ _ = (Ok (Some _), _), IH : _ -> R _ _ |- _ =>
        pose proof (iteration_grows _ _ _ _ E); apply IH; lia
    end.
  - exact Hstep.
  - exact Hstep.
  - exact Hstep.
Qed.

End Loop.

Lemma Respects_downloadEmails options :
  outputPath options = dir ->
  (forall fid f total d skip,
     0 <= d -> d < total -> d < limit options ->
     allowed (EvPage fid f
                (Z.min (Z.min (effectiveBatchSize options) (limit options - d)) (total - d))
                skip)) ->
  Respects R (downloadEmails env options).
Proof.
  intros Hdir Hpage. unfold downloadEmails, downloadEmailsBatch.
  pose proof Respects_getAccessToken. pose proof Respects_getFolderId.
  pose proof Respects_getEmailCount.
  pose proof Respects_ensureOutputDirectory as Hens. rewrite <- Hdir in Hens.
  assert (Hw : forall tok fid total,
             Respects R (while env tok fid options total (0, None))).
  { intros tok fid total. apply Respects_while; [exact Hdir| |simpl; lia]. intros. now apply Hpage. }
  respects.
Qed.

End Relation.
End Effects.

(** ** The relations used *)

Module Relations.

Lemma sameFiles_refl w : sameFiles w w.
Proof. reflexivity. Qed.

Lemma sameFiles_trans w1 w2 w3 : sameFiles w1 w2 -> sameFiles w2 w3 -> sameFiles w1 w3.
Proof. unfold sameFiles. congruence. Qed.

Lemma sameFiles_emit e w : True -> sameFiles w (emit e w).
Proof. reflexivity. Qed.

Lemma sameFiles_msal env : Respects sameFiles (Auth.initializeMsal env).
Proof.
  intros w. unfold sameFiles, Auth.initializeMsal.
  destruct (msalInstance w); [reflexivity|]. destruct (env_msalInit _ _); reflexivity.
Qed.

Lemma sameFiles_cache env t : Respects sameFiles (Auth.cacheToken env t).
Proof.
  intros w. unfold sameFiles, Auth.cacheToken. destruct (env_cacheWrite _ _); reflexivity.
Qed.

Lemma sameSession_refl w : sameSession w w.
Proof. split; reflexivity. Qed.

Lemma sameSession_trans w1 w2 w3 :
  sameSession w1 w2 -> sameSession w2 w3 -> sameSession w1 w3.
Proof. unfold sameSession. intros [] []. split; congruence. Qed.

Lemma sameSession_emit e w : True -> sameSession w (emit e w).
Proof. split; reflexivity. Qed.

Lemma extends_refl P w : extends P w w.
Proof. exists []. split; [now rewrite app_nil_r|constructor]. Qed.

Lemma extends_trans P w1 w2 w3 : extends P w1 w2 -> extends P w2 w3 -> extends P w1 w3.
Proof.
  intros (a & Ha & Pa) (b & Hb & Pb). exists (a ++ b)%list. split.
  - now rewrite Hb, Ha, <- app_assoc.
  - apply Forall_app. now split.
Qed.

Lemma extends_emit P e w : P e -> extends P w (emit e w).
Proof. intros He. exists [e]. split; [reflexivity|]. now constructor. Qed.

Lemma extends_weaken (P Q : Event -> Prop) w w' :
  (forall e, P e -> Q e) -> extends P w w' -> extends Q w w'.
Proof.
  intros H (evs & He & HP). exists evs. split; [exact He|].
  eapply Forall_impl; [exact HP|exact H].
Qed.

Lemma extends_msal P env :
  (forall ok, P (EvMsalInit ok)) -> Respects (extends P) (Auth.initializeMsal env).
Proof.
  intros HP w. unfold Auth.initializeMsal.
  destruct (msalInstance w); [apply extends_refl|].
  destruct (env_msalInit _ _); [now apply extends_emit|].
  exists [EvMsalInit true]. split; [reflexivity|]. now constructor.
Qed.

Lemma extends_cache P env t :
  (forall ok, P (EvWriteCache ok)) -> (forall l m, P (EvLog l m)) ->
  Respects (extends P) (Auth.cacheToken env t).
Proof.
  intros HP HL w. unfold Auth.cacheToken. destruct (env_cacheWrite _ _).
  - eapply extends_trans; apply extends_emit; auto.
  - exists [EvWriteCache true]. split; [reflexivity|]. now constructor.
Qed.

Lemma extends_write P env dir name c :
  (forall ok, P (EvWrite dir name ok)) -> Respects (extends P) (Downloader.write env dir name c).
Proof.
  intros HP w. unfold Downloader.write. destruct (env_disk _ _ _ _).
  - now apply extends_emit.
  - exists [EvWrite dir name true]. split; [reflexivity|]. now constructor.
Qed.

End Relations.

(** ** No call ends the process *)

Module Outcomes.
Import Downloader.

Lemma Running_ret {A} (a : A) : Running (ret a).
Proof. intros w. exact I. Qed.

Lemma Running_throw {A} e : Running (@throw A e).
Proof. intros w. exact I. Qed.

Lemma Running_record e : Running (record e).
Proof. intros w. exact I. Qed.

Lemma Running_log l m : Running (log l m).
Proof. intros w. exact I. Qed.

Lemma Running_spinner s : Running (spinner s).
Proof. intros w. exact I. Qed.

Lemma Running_bind {A B} (m : M A) (k : A -> M B) :
  Running m -> (forall a, Running (k a)) -> Running (bind m k).
Proof.
  intros Hm Hk w. unfold bind. specialize (Hm w).
  destruct (m w) as [[a|e|c] w1]; simpl in *; [apply Hk|exact I|exact Hm].
Qed.

Lemma Running_try {A} (body : M A) (handler : Error -> M A) :
  Running body -> (forall e, Running (handler e)) -> Running (try_catch body handler).
Proof.
  intros Hb Hh w. unfold try_catch. specialize (Hb w).
  destruct (body w) as [[a|e|c] w1]; simpl in *; [exact I|apply Hh|exact Hb].
Qed.

Lemma Running_for_each {A} (body : A -> M unit) xs :
  (forall x, Running (body x)) -> Running (for_each body xs).
Proof.
  intros Hb. induction xs as [|x xs IH]; simpl; [apply Running_ret|].
  apply Running_bind; [apply Hb|intros _; exact IH].
Qed.

Lemma Returning_ret {A} (a : A) : Returning (ret a).
Proof. intros w. now exists a. Qed.

Lemma Returning_bind {A B} (m : M A) (k : A -> M B) :
  Returning m -> (forall a, Returning (k a)) -> Returning (bind m k).
Proof.
  intros Hm Hk w. unfold bind. destruct (Hm w) as [a Ha].
  destruct (m w) as [o w1]. simpl in Ha. subst o. apply Hk.
Qed.

Lemma Returning_log l m : Returning (log l m).
Proof. intros w. now exists tt. Qed.

(** A [try] whose body cannot exit and whose handler returns, returns. *)
Lemma Returning_try {A} (body : M A) (handler : Error -> M A) :
  Running body -> (forall e, Returning (handler e)) -> Returning (try_catch body handler).
Proof.
  intros Hb Hh w. unfold try_catch. specialize (Hb w).
  destruct (body w) as [[a|e|c] w1]; simpl in *; [now exists a|apply Hh|destruct Hb].
Qed.

Lemma Returning_Running {A} (m : M A) : Returning m -> Running m.
Proof. intros H w. destruct (H w) as [a ->]. exact I. Qed.

Ltac running :=
  repeat first
    [ apply Running_ret | apply Running_throw | apply Running_record
    | apply Running_log | apply Running_spinner
    | solve [auto]
    | apply Running_bind
    | apply Running_try
    | apply Running_for_each
    | match goal with
      | |- forall _, _ => intro
      | |- Running (match ?x with _ => _ end) => destruct x
      | |- Running (if ?b then _ else _) => destruct b
      end ].

Section WithEnv.

Variable env : Env.

Lemma Running_now : Running (Auth.now env).
Proof. intros w. exact I. Qed.

Lemma Running_initializeMsal : Running (Auth.initializeMsal env).
Proof.
  intros w. unfold Auth.initializeMsal. destruct (msalInstance w); [exact I|].
  destruct (env_msalInit _ _); exact I.
Qed.

Lemma Running_getCachedToken : Running Auth.getCachedToken.
Proof.
  unfold Auth.getCachedToken. apply Running_bind; [apply Running_record|].
  intros _ w. destruct (tokenCache w); exact I.
Qed.

Lemma Running_cacheToken t : Running (Auth.cacheToken env t).
Proof. intros w. unfold Auth.cacheToken. destruct (env_cacheWrite _ _); exact I. Qed.

Lemma Running_isTokenValid t : Running (Auth.isTokenValid env t).
Proof. unfold Auth.isTokenValid. pose proof Running_now. running. Qed.

Lemma Running_refresh t : Running (Auth.refresh env t).
Proof.
  unfold Auth.refresh. pose proof Running_cacheToken. running.
  intros w. destruct (env_silent _ _ _); exact I.
Qed.

Lemma Returning_isAuthenticated : Returning (Auth.isAuthenticated env).
Proof.
  unfold Auth.isAuthenticated. apply Returning_try.
  - pose proof Running_getCachedToken. pose proof Running_isTokenValid. running.
  - intros e. apply Returning_bind; [apply Returning_log|]. intros _. apply Returning_ret.
Qed.

Lemma Returning_getAccessToken : Returning (Auth.getAccessToken env).
Proof.
  unfold Auth.getAccessToken. apply Returning_try.
  - pose proof Running_initializeMsal. pose proof Running_getCachedToken.
    pose proof Running_isTokenValid. pose proof Running_refresh. running.
  - intros e. apply Returning_bind; [apply Returning_log|]. intros _. apply Returning_ret.
Qed.

Lemma Returning_authenticate deviceCode : Returning (Auth.authenticate env deviceCode).
Proof.
  unfold Auth.authenticate. apply Returning_try.
  - pose proof Running_initializeMsal. pose proof Running_getCachedToken.
    pose proof Running_isTokenValid. pose proof Running_cacheToken. running.
    intros w. unfold Auth.acquireTokenByDeviceCode. destruct (deviceCode _); exact I.
  - intros e. apply Returning_bind; [apply Returning_log|]. intros _.
    apply Returning_bind; [apply Returning_log|]. intros _. apply Returning_ret.
Qed.

Lemma Returning_clearAuth : Returning (Auth.clearAuth env).
Proof.
  unfold Auth.clearAuth. apply Returning_try.
  - running. intros w. destruct (tokenCache w); try exact I;
      unfold Auth.removeCacheFile; destruct (env_rm _ _ _); exact I.
  - intros e. apply Returning_log.
Qed.

Lemma Running_getFolderId tok name : Running (getFolderId env tok name).
Proof.
  unfold getFolderId. running.
  intros w. unfold getFolders. destruct (env_folders _ _ _); exact I.
Qed.

Lemma Running_buildFilter options : Running (buildFilter options).
Proof. unfold buildFilter, toISOString. running. Qed.

Lemma Running_getEmailCount tok fid options : Running (getEmailCount env tok fid options).
Proof.
  unfold getEmailCount. pose proof Running_buildFilter. running.
  intros w. unfold getCount. destruct (env_count _ _ _ _); exact I.
Qed.

Lemma Running_enrich_all tok l : Running (enrich_all env tok l).
Proof.
  induction l as [|e l IH]; simpl; [apply Running_ret|].
  unfold enrich, fetchEmailAttachments. running.
  intros w. unfold getAttachments. destruct (env_attachments _ _ _); exact I.
Qed.

Lemma Running_fetchEmailBatch tok fid options top skip :
  Running (fetchEmailBatch env tok fid options top skip).
Proof.
  unfold fetchEmailBatch. pose proof Running_buildFilter. pose proof Running_enrich_all.
  running. intros w. unfold getPage. destruct (env_page _ _ _ _ _ _); exact I.
Qed.

Lemma Running_write dir name c : Running (write env dir name c).
Proof. intros w. unfold write. destruct (env_disk _ _ _ _); exact I. Qed.

Lemma Running_saveEmailsBatch emails dir : Running (saveEmailsBatch env emails dir).
Proof.
  unfold saveEmailsBatch, saveEmail, generateEmailFileName.
  pose proof Running_write. running. intros w. exact I.
Qed.

Lemma Running_ensureOutputDirectory dir : Running (ensureOutputDirectory env dir).
Proof. unfold ensureOutputDirectory. pose proof Running_write. running. Qed.

Lemma Running_iteration tok fid options total st :
  Running (iteration env tok fid options total st).
Proof.
  unfold iteration. destruct st as [d skip].
  pose proof Running_fetchEmailBatch. pose proof Running_saveEmailsBatch. running.
Qed.

Lemma Running_while tok fid options total st : Running (while env tok fid options total st).
Proof.
  intros w. funelim (while env tok fid options total st w); try exact I.
  - assumption.
  - match goal with
    | E : iteration _ _ _ _ _ _ ?w0 = (Exit _, _) |- _ =>
        pose proof (Running_iteration tok fid options total st w0) as Hk;
        rewrite E in Hk; exact Hk
    end.
Qed.

Lemma Running_downloadEmails options : Running (downloadEmails env options).
Proof.
  unfold downloadEmails, downloadEmailsBatch.
  pose proof (Returning_Running _ Returning_getAccessToken).
  pose proof Running_ensureOutputDirectory. pose proof Running_getFolderId.
  pose proof Running_getEmailCount. pose proof Running_while. running.
Qed.

End WithEnv.
End Outcomes.

(** ** The token manager *)

Module AuthMore.
Import Auth.

Lemma isTokenValid_run env t w :
  isTokenValid env t w =
  (Ok (validAt (env_now env (trace w)) t),
   if Str.is_empty (accessToken t) || falsy_expiry (expiresOn t) then w else emit EvClock w).
Proof.
  unfold isTokenValid, validAt.
  destruct (Str.is_empty (accessToken t)); simpl; [reflexivity|].
  destruct (expiresOn t) as [|d]; reflexivity.
Qed.

Lemma isTokenValid_session env t w :
  sameSession w (isTokenValid env t w).2 /\ sameFiles w (isTokenValid env t w).2.
Proof.
  rewrite isTokenValid_run. simpl. destruct (_ || _); repeat split.
Qed.

Lemma initializeMsal_ready env w :
  msalReady env w ->
  exists w1, initializeMsal env w = (Ok tt, w1) /\
             tokenCache w1 = tokenCache w /\ fs w1 = fs w /\
             (exists evs : list Event, trace w1 = (trace w ++ evs)%list).
Proof.
  intros H. unfold initializeMsal. destruct (msalInstance w) eqn:Hm.
  - exists w. repeat split. exists []. now rewrite app_nil_r.
  - destruct H as [H|H]; [congruence|]. rewrite H. eexists. repeat split. eauto.
Qed.

Lemma initializeMsal_not_ready env w :
  ~ msalReady env w -> exists e w1, initializeMsal env w = (Throw e, w1).
Proof.
  intros H. unfold initializeMsal, msalReady in *.
  destruct (msalInstance w); [tauto|].
  destruct (env_msalInit env (trace w)); [eauto|tauto].
Qed.

(** Every public method of [AuthManager] returns: no error and no exit comes
    out of it. *)
Theorem auth_methods_return env deviceCode w :
  (exists b, (isAuthenticated env w).1 = Ok b) /\
  (exists token, (getAccessToken env w).1 = Ok token) /\
  (exists b, (authenticate env deviceCode w).1 = Ok b) /\
  (clearAuth env w).1 = Ok tt.
Proof.
  split; [apply Outcomes.Returning_isAuthenticated|].
  split; [apply Outcomes.Returning_getAccessToken|].
  split; [apply Outcomes.Returning_authenticate|].
  destruct (Outcomes.Returning_clearAuth env w) as [[] H]. exact H.
Qed.

Lemma getCachedToken_run w :
  getCachedToken w =
  (Ok (match tokenCache w with CacheToken t => Some t | _ => None end),
   match tokenCache w with
   | CacheUnreadable =>
       emit (EvLog Debug (MsgText "Error reading cached token")) (emit EvReadCache w)
   | _ => emit EvReadCache w
   end).
Proof. unfold getCachedToken, bind, record. simpl. destruct (tokenCache w); reflexivity. Qed.

(** After [clearAuth], when the cache file was absent or could be removed,
    there is no cached token: [isAuthenticated] answers false and
    [getAccessToken] answers null.  When the removal fails the cache is as it
    was. *)
Theorem clearAuth_signs_out env w :
  (tokenCache w = CacheAbsent \/ env_rm env (trace w) tokenCachePath = None ->
   tokenCache (clearAuth env w).2 = CacheAbsent /\
   (isAuthenticated env (clearAuth env w).2).1 = Ok false /\
   (getAccessToken env (clearAuth env w).2).1 = Ok None) /\
  (forall e, tokenCache w <> CacheAbsent -> env_rm env (trace w) tokenCachePath = Some e ->
   tokenCache (clearAuth env w).2 = tokenCache w).
Proof.
  split.
  - intros H.
    assert (Hc : tokenCache (clearAuth env w).2 = CacheAbsent).
    { unfold clearAuth, try_catch, bind, removeCacheFile.
      destruct (tokenCache w) eqn:Hw; simpl; [exact Hw| |];
        (destruct H as [H|H]; [congruence|]; rewrite H; reflexivity). }
    split; [exact Hc|]. set (w1 := (clearAuth env w).2) in *. split.
    + unfold isAuthenticated, try_catch, bind. rewrite getCachedToken_run, Hc. reflexivity.
    + unfold getAccessToken, try_catch. unfold bind at 1.
      destruct (initializeMsal env w1) as [[[]| |] w2] eqn:Hi; simpl; [|reflexivity|].
      * apply AuthFacts.initializeMsal_cache in Hi. rewrite Hc in Hi.
        unfold bind at 1. rewrite getCachedToken_run, Hi. reflexivity.
      * now apply AuthFacts.initializeMsal_no_exit in Hi.
  - intros e Hne He. unfold clearAuth, try_catch, bind, removeCacheFile.
    destruct (tokenCache w) eqn:Hw; [congruence| |]; rewrite He; simpl; now rewrite Hw.
Qed.

Lemma clearAuth_signs_out_witness :
  tokenCache (clearAuth Scenario.quiet Scenario.signedIn).2 = CacheAbsent /\
  (isAuthenticated Scenario.quiet (clearAuth Scenario.quiet Scenario.signedIn).2).1
    = Ok false /\
  (getAccessToken Scenario.quiet (clearAuth Scenario.quiet Scenario.signedIn).2).1
    = Ok None.
Proof.
  apply (proj1 (clearAuth_signs_out Scenario.quiet Scenario.signedIn)).
  right. reflexivity.
Defined.

(** With a cached token that is valid at every reading of the clock:
    [isAuthenticated] answers true; [getAccessToken] hands out the cached
    access token when MSAL is there or can be initialised, and null when it
    cannot. *)
Theorem valid_token_is_handed_out env w t :
  tokenCache w = CacheToken t ->
  (forall h, validAt (env_now env h) t = true) ->
  (isAuthenticated env w).1 = Ok true /\
  (msalReady env w -> (getAccessToken env w).1 = Ok (Some (accessToken t))) /\
  (~ msalReady env w -> (getAccessToken env w).1 = Ok None).
Proof.
  intros Hc Hv. split; [|split].
  - unfold isAuthenticated, try_catch, bind. rewrite getCachedToken_run, Hc.
    rewrite isTokenValid_run, Hv. reflexivity.
  - intros Hr. destruct (initializeMsal_ready env w Hr) as (w1 & Hi & Hc1 & _).
    unfold getAccessToken, try_catch. unfold bind at 1. rewrite Hi.
    unfold bind at 1. rewrite getCachedToken_run, Hc1, Hc.
    unfold bind at 1. rewrite isTokenValid_run, Hv. reflexivity.
  - intros Hr. destruct (initializeMsal_not_ready env w Hr) as (e & w1 & Hi).
    unfold getAccessToken, try_catch. unfold bind at 1. rewrite Hi. reflexivity.
Qed.

Lemma valid_token_is_handed_out_witness :
  (isAuthenticated Scenario.quiet Scenario.signedIn).1 = Ok true /\
  (getAccessToken Scenario.quiet Scenario.signedIn).1 = Ok (Some "bearer").
Proof.
  destruct (valid_token_is_handed_out Scenario.quiet Scenario.signedIn Scenario.goodToken)
    as (H1 & H2 & _).
  - reflexivity.
  - intros h. reflexivity.
  - split; [exact H1|]. apply H2. right. reflexivity.
Defined.

(** [authenticate] with a cached token that is valid at every reading of
    the clock, MSAL being ready: the answer is true, the cache is not
    rewritten, and the interactive flow is not consulted (the run is the same
    whatever that flow would answer). *)
Theorem authenticate_uses_valid_cache env deviceCode w t :
  tokenCache w = CacheToken t ->
  (forall h, validAt (env_now env h) t = true) ->
  msalReady env w ->
  (authenticate env deviceCode w).1 = Ok true /\
  tokenCache (authenticate env deviceCode w).2 = CacheToken t /\
  forall other, authenticate env other w = authenticate env deviceCode w.
Proof.
  intros Hc Hv Hr. destruct (initializeMsal_ready env w Hr) as (w1 & Hi & Hc1 & _).
  assert (H : forall dc, authenticate env dc w =
            (Ok true,
             emit (EvLog Success (MsgText "Using cached authentication token"))
               (isTokenValid env t (emit EvReadCache (emit (EvLog Info MsgHeader) w1))).2)).
  { intros dc. unfold authenticate, try_catch. unfold bind at 1. rewrite Hi.
    unfold bind at 1. unfold log at 1, record at 1.
    unfold bind at 1. rewrite getCachedToken_run. simpl tokenCache. rewrite Hc1, Hc.
    unfold bind at 1. rewrite isTokenValid_run, Hv. reflexivity. }
  split; [now rewrite H|]. split; [|intros other; now rewrite !H].
  rewrite H. simpl. destruct (isTokenValid_session env t
                     (emit EvReadCache (emit (EvLog Info MsgHeader) w1))) as [[Hs _] _].
  rewrite Hs. simpl. now rewrite Hc1.
Qed.

Lemma authenticate_uses_valid_cache_witness :
  (authenticate Scenario.quiet Scenario.signsIn Scenario.signedIn).1 = Ok true /\
  tokenCache (authenticate Scenario.quiet Scenario.signsIn Scenario.signedIn).2
    = CacheToken Scenario.goodToken /\
  forall other,
    authenticate Scenario.quiet other Scenario.signedIn =
    authenticate Scenario.quiet Scenario.signsIn Scenario.signedIn.
Proof.
  apply (authenticate_uses_valid_cache Scenario.quiet Scenario.signsIn Scenario.signedIn
           Scenario.goodToken).
  - reflexivity.
  - intros h. reflexivity.
  - right. reflexivity.
Defined.

(** [authenticate] when no cached token is valid, MSAL being ready.  If the
    interactive flow answers a result and the cache can be written, the
    answer is true and the cache holds the new access token with an empty
    refresh token; if the flow is rejected or answers null, the answer is
    false and the cache is as it was. *)
Theorem authenticate_interactive env deviceCode w :
  (forall t, tokenCache w = CacheToken t -> forall h, validAt (env_now env h) t = false) ->
  msalReady env w ->
  (forall r,
     (forall h, deviceCode h = Replied (Some r)) ->
     (forall h, env_cacheWrite env h = None) ->
     (authenticate env deviceCode w).1 = Ok true /\
     tokenCache (authenticate env deviceCode w).2 = CacheToken (interactiveToken r)) /\
  ((forall h, match deviceCode h with Replied (Some _) => False | _ => True end) ->
   (authenticate env deviceCode w).1 = Ok false /\
   tokenCache (authenticate env deviceCode w).2 = tokenCache w).
Proof.
  intros Hstale Hr. destruct (initializeMsal_ready env w Hr) as (w1 & Hi & Hc1 & _).
  set (w2 := emit (EvLog Info MsgHeader) w1).
  set (cached := match tokenCache w with CacheToken t => Some t | _ => None end).
  assert (Hvalid : exists w3,
            (let* valid := match cached with
                           | Some t => isTokenValid env t
                           | None => ret false
                           end in ret valid) (getCachedToken w2).2 = (Ok false, w3) /\
            tokenCache w3 = tokenCache w).
  { rewrite getCachedToken_run. unfold cached. simpl tokenCache. rewrite Hc1.
    destruct (tokenCache w) as [| |t] eqn:Hc; unfold bind, ret; simpl.
    - eexists. split; [reflexivity|]. simpl. congruence.
    - eexists. split; [reflexivity|]. simpl. congruence.
    - rewrite isTokenValid_run, (Hstale t eq_refl). eexists. split; [reflexivity|].
      destruct (_ || _); simpl; congruence. }
  destruct Hvalid as (w3 & Hv & Hc3).
  assert (Hrun : authenticate env deviceCode w =
            try_catch
              (log Info startingInteractive;;
               let* authResult := acquireTokenByDeviceCode deviceCode in
               match authResult with
               | Some r =>
                   cacheToken env {| accessToken := sr_accessToken r;
                                     refreshToken := Some "";
                                     expiresOn := sr_expiresOn r;
                                     account := sr_account r |};;
                   log Success (MsgText "Authentication successful!");;
                   log Info MsgFooter;;
                   ret true
               | None => ret false
               end)
              (fun e => log LError (MsgText "Authentication failed");;
                        log Info MsgFooter;; ret false) w3).
  { unfold authenticate, try_catch. unfold bind at 1. rewrite Hi.
    unfold bind at 1. unfold log at 1, record at 1. fold w2.
    unfold bind at 1. rewrite (surjective_pairing (getCachedToken w2)).
    rewrite getCachedToken_run at 1. simpl fst. rewrite Hc1. fold cached.
    unfold bind at 1. unfold bind, ret in Hv.
    destruct cached as [t|].
    - destruct (isTokenValid env t (getCachedToken w2).2) as [[b| |] w4]; try discriminate.
      injection Hv as -> ->. reflexivity.
    - injection Hv as ->. reflexivity. }
  rewrite Hrun. split.
  - intros r Hdc Hcw. unfold try_catch, bind, log, record, acquireTokenByDeviceCode, cacheToken.
    simpl. rewrite Hdc. simpl. rewrite Hcw. simpl. split; reflexivity.
  - intros Hdc. unfold try_catch, bind, log, record, acquireTokenByDeviceCode. simpl.
    specialize (Hdc (trace w3 ++ [EvLog Info startingInteractive])%list).
    destruct (deviceCode _) as [e|[r|]]; simpl; [|destruct Hdc|]; split; auto.
Qed.

Lemma authenticate_interactive_witness :
  (authenticate Scenario.quiet Scenario.signsIn Scenario.lapsingWorld).1 = Ok true /\
  tokenCache (authenticate Scenario.quiet Scenario.signsIn Scenario.lapsingWorld).2
    = CacheToken (interactiveToken Scenario.granted).
Proof.
  apply (proj1 (authenticate_interactive Scenario.quiet Scenario.signsIn
                  Scenario.lapsingWorld
                  (fun t Ht h => match Ht in _ = c
                                 return match c with
                                        | CacheToken t' => validAt 0 t' = false
                                        | _ => True
                                        end
                                 with eq_refl => eq_refl end)
                  (or_intror eq_refl))
           Scenario.granted).
  - intros h. reflexivity.
  - intros h. reflexivity.
Defined.


(** A cached token without a refresh token (absent or empty, as the
    interactive flow caches it) that is not valid at any reading of the
    clock: [getAccessToken] answers null, does not ask MSAL for a silent
    refresh and leaves the cache as it was. *)
Theorem no_refresh_without_refresh_token env w t :
  tokenCache w = CacheToken t ->
  truthy (refreshToken t) = false ->
  (forall h, validAt (env_now env h) t = false) ->
  (getAccessToken env w).1 = Ok None /\
  tokenCache (getAccessToken env w).2 = tokenCache w /\
  extends (fun e => e <> EvSilentRefresh) w (getAccessToken env w).2 /\
  (forall r, truthy (refreshToken (interactiveToken r)) = false).
Proof.
  intros Hc Ht Hv.
  assert (Hrun : getAccessToken env w =
            match initializeMsal env w with
            | (Ok _, w1) =>
                (Ok None,
                 emit (EvLog Warn MsgNoToken) (isTokenValid env t (emit EvReadCache w1)).2)
            | (Throw e, w1) => (Ok None, emit (EvLog LError (MsgTokenError e)) w1)
            | (Exit c, w1) => (Exit c, w1)
            end).
  { unfold getAccessToken, try_catch. unfold bind at 1.
    destruct (initializeMsal env w) as [[[]| |] w1] eqn:Hi; simpl; [|reflexivity..].
    apply AuthFacts.initializeMsal_cache in Hi.
    unfold bind at 1. rewrite getCachedToken_run, Hi, Hc.
    unfold bind at 1. rewrite isTokenValid_run, Hv, Ht. reflexivity. }
  rewrite Hrun. split; [|split; [|split; [|reflexivity]]].
  - destruct (initializeMsal env w) as [[[]| |] w1] eqn:Hi; try reflexivity.
    now apply AuthFacts.initializeMsal_no_exit in Hi.
  - destruct (initializeMsal env w) as [[[]| |] w1] eqn:Hi; simpl.
    + apply AuthFacts.initializeMsal_cache in Hi.
      destruct (isTokenValid_session env t (emit EvReadCache w1)) as [[Hs _] _].
      now rewrite Hs.
    + unfold initializeMsal in Hi. destruct (msalInstance w); [discriminate|].
      destruct (env_msalInit _ _); [|discriminate]. now injection Hi as <- <-.
    + now apply AuthFacts.initializeMsal_no_exit in Hi.
  - pose proof (Relations.extends_msal (fun e => e <> EvSilentRefresh) env
                  ltac:(discriminate) w) as Hinit.
    destruct (initializeMsal env w) as [[[]| |] w1] eqn:Hi; simpl in *.
    + eapply Relations.extends_trans; [exact Hinit|].
      eapply Relations.extends_trans; [|apply Relations.extends_emit; discriminate].
      eapply Relations.extends_trans; [apply Relations.extends_emit with (e := EvReadCache); discriminate|].
      rewrite isTokenValid_run. simpl. destruct (_ || _).
      * apply Relations.extends_refl.
      * apply Relations.extends_emit. discriminate.
    + eapply Relations.extends_trans; [exact Hinit|].
      apply Relations.extends_emit. discriminate.
    + exact Hinit.
Qed.

Lemma no_refresh_without_refresh_token_witness :
  (getAccessToken Scenario.quiet Scenario.lapsingWorld).1 = Ok None /\
  tokenCache (getAccessToken Scenario.quiet Scenario.lapsingWorld).2
    = tokenCache Scenario.lapsingWorld /\
  extends (fun e => e <> EvSilentRefresh) Scenario.lapsingWorld
    (getAccessToken Scenario.quiet Scenario.lapsingWorld).2 /\
  (forall r, truthy (refreshToken (interactiveToken r)) = false).
Proof.
  apply (no_refresh_without_refresh_token Scenario.quiet Scenario.lapsingWorld
           Scenario.lapsing).
  - reflexivity.
  - reflexivity.
  - intros h. reflexivity.
Defined.

Lemma quiet_clearAuth env :
  Respects sameFiles (clearAuth env) /\ Respects (extends quietEvent) (clearAuth env).
Proof.
  split; intros w; unfold clearAuth, try_catch, bind, log, record, removeCacheFile;
    destruct (tokenCache w); simpl; try destruct (env_rm _ _ _); simpl;
    try reflexivity.
  all: try (apply Relations.extends_emit; now split).
  all: try (eapply Relations.extends_trans; apply Relations.extends_emit; now split).
  all: eapply Relations.extends_trans;
    [|apply Relations.extends_emit with (e := EvLog Info (MsgText "Authentication cache cleared")); now split];
    exists [EvRemoveDir tokenCachePath true]; split; [reflexivity|]; repeat constructor.
Qed.

(** The methods of [AuthManager] leave every file outside the cache
    directory as it was and send nothing to the mail provider;
    [isAuthenticated] also leaves the token cache and the MSAL instance as
    they were. *)
Theorem auth_is_local env deviceCode w :
  (sameFiles w (isAuthenticated env w).2 /\
   sameSession w (isAuthenticated env w).2 /\
   extends quietEvent w (isAuthenticated env w).2) /\
  (sameFiles w (getAccessToken env w).2 /\
   extends quietEvent w (getAccessToken env w).2) /\
  (sameFiles w (authenticate env deviceCode w).2 /\
   extends quietEvent w (authenticate env deviceCode w).2) /\
  (sameFiles w (clearAuth env w).2 /\
   extends quietEvent w (clearAuth env w).2).
Proof.
  pose (yes := fun _ : Event => True).
  assert (Hq : forall e, isRequest e = false -> isWrite e = false -> quietEvent e)
    by (intros; now split).
  repeat split.
  - apply (Effects.Respects_isAuthenticated sameFiles yes
             Relations.sameFiles_refl Relations.sameFiles_trans
             Relations.sameFiles_emit (fun _ _ => I) I I env w).
  - apply (Effects.Respects_isAuthenticated sameSession yes
             Relations.sameSession_refl Relations.sameSession_trans
             Relations.sameSession_emit (fun _ _ => I) I I env w).
  - apply (Effects.Respects_isAuthenticated sameSession yes
             Relations.sameSession_refl Relations.sameSession_trans
             Relations.sameSession_emit (fun _ _ => I) I I env w).
  - apply (Effects.Respects_isAuthenticated (extends quietEvent) quietEvent
             (Relations.extends_refl _) (Relations.extends_trans _)
             (Relations.extends_emit _)); auto.
  - apply (Effects.Respects_getAccessToken sameFiles yes
             Relations.sameFiles_refl Relations.sameFiles_trans
             Relations.sameFiles_emit (fun _ _ => I) I I env
             (Relations.sameFiles_msal env) (Relations.sameFiles_cache env) I w).
  - apply (Effects.Respects_getAccessToken (extends quietEvent) quietEvent
             (Relations.extends_refl _) (Relations.extends_trans _)
             (Relations.extends_emit _)); auto.
    + apply Relations.extends_msal. auto.
    + intros t. apply Relations.extends_cache; auto.
  - apply (Effects.Respects_authenticate sameFiles yes
             Relations.sameFiles_refl Relations.sameFiles_trans
             Relations.sameFiles_emit (fun _ _ => I) I I env
             (Relations.sameFiles_msal env) (Relations.sameFiles_cache env) deviceCode w).
  - apply (Effects.Respects_authenticate (extends quietEvent) quietEvent
             (Relations.extends_refl _) (Relations.extends_trans _)
             (Relations.extends_emit _)); auto.
    + apply Relations.extends_msal. auto.
    + intros t. apply Relations.extends_cache; auto.
  - apply quiet_clearAuth.
  - apply quiet_clearAuth.
Qed.

End AuthMore.

(** ** More on the downloader *)

Module DownloaderMore.
Import Downloader.

(** *** What is written *)

Lemma written_app a b : written (a ++ b)%list = (written a ++ written b)%list.
Proof.
  induction a as [|e a IH]; simpl; [reflexivity|].
  destruct e; simpl; rewrite ?IH; reflexivity.
Qed.

Lemma attachmentRequests_app a b :
  attachmentRequests (a ++ b)%list = (attachmentRequests a ++ attachmentRequests b)%list.
Proof.
  induction a as [|e a IH]; simpl; [reflexivity|].
  destruct e; simpl; rewrite ?IH; reflexivity.
Qed.

(** The batch tries to write, in the order of the records, exactly the files
    of the records whose date can be formatted: one attempt per record,
    whatever happened to the records before it. *)
Theorem staging_attempts_in_order env emails dir w :
  written (trace (saveEmailsBatch env emails dir w).2) =
  (written (trace w) ++ map (fun name => (dir, name)) (omap (fileName env) emails))%list.
Proof.
  revert w. induction emails as [|e l IH]; intros w.
  - simpl. now rewrite app_nil_r.
  - rewrite DownloaderFacts.saveEmailsBatch_cons, IH. simpl omap.
    destruct (fileName env e) as [n|] eqn:Hn.
    + destruct (env_disk env (trace (emit EvClock w)) dir n) as [err|] eqn:Hd.
      * rewrite (DownloaderFacts.saveEmail_disk_error env dir e w n err Hn Hd). simpl.
        rewrite !written_app. simpl. rewrite <- !app_assoc. reflexivity.
      * rewrite (DownloaderFacts.saveEmail_written env dir e w n Hn Hd). simpl.
        rewrite !written_app. simpl. rewrite <- !app_assoc. reflexivity.
    + rewrite (DownloaderFacts.saveEmail_bad_date env dir e w Hn). simpl.
      rewrite written_app. simpl. now rewrite app_nil_r.
Qed.

(** With a positive batch size, every page request of a download asks for at
    least one record, at most a batch, and at most the limit. *)
Theorem page_requests_within_batch env options w :
  0 < effectiveBatchSize options ->
  extends (boundedPage options) w (downloadEmails env options w).2.
Proof.
  intros Hb.
  apply (Effects.Respects_downloadEmails (extends (boundedPage options)) (boundedPage options)
           (Relations.extends_refl _) (Relations.extends_trans _)
           (Relations.extends_emit _) (fun _ _ => I) (fun _ => I) I I env
           (Relations.extends_msal _ env (fun _ => I))
           (fun t => Relations.extends_cache _ env t (fun _ => I) (fun _ _ => I))
           I (fun _ => I) (fun _ _ => I) (fun _ => I)
           (outputPath options) (fun n c => Relations.extends_write _ env _ n c (fun _ => I))
           options eq_refl).
  intros fid f total d skip Hd Ht Hl. simpl. lia.
Qed.

Lemma page_requests_within_batch_witness :
  extends (boundedPage Scenario.defaults) Scenario.signedIn
    (downloadEmails Scenario.fullDisk Scenario.defaults Scenario.signedIn).2.
Proof.
  apply (page_requests_within_batch Scenario.fullDisk Scenario.defaults Scenario.signedIn).
  reflexivity.
Defined.

(** *** Pagination against a provider that holds what it counts *)

Lemma written_extends w w' :
  extends (fun e => isWrite e = false) w w' -> written (trace w') = written (trace w).
Proof.
  intros (evs & -> & H). rewrite written_app.
  assert (written evs = []) as ->; [|apply app_nil_r].
  induction H as [|e l He _ IH]; [reflexivity|].
  destruct e; simpl in *; try discriminate; exact IH.
Qed.

Lemma fetchEmailBatch_writes_nothing env tok fid options top skip w :
  written (trace (fetchEmailBatch env tok fid options top skip w).2) = written (trace w).
Proof.
  apply written_extends.
  apply (Effects.Respects_fetchEmailBatch (extends (fun e => isWrite e = false))
           (fun e => isWrite e = false)
           (Relations.extends_refl _) (Relations.extends_trans _)
           (Relations.extends_emit _) (fun _ _ => eq_refl) env (fun _ => eq_refl)
           tok fid options top skip (fun _ => eq_refl)).
Qed.

Lemma names_delivered env h l :
  omap (fileName env) (delivered env h l) = omap (fileName env) l.
Proof.
  revert h. induction l as [|e l IH]; intros h; [reflexivity|].
  cbn [delivered]. destruct (hasAttachments e); cbn [omap list_omap]; now rewrite IH.
Qed.

Lemma filesOf_app env dir a b :
  filesOf env dir (a ++ b) = (filesOf env dir a ++ filesOf env dir b)%list.
Proof. unfold filesOf. now rewrite omap_app, map_app. Qed.

(** An answered page request gives the records of the page, up to their
    attachments. *)
Lemma fetchEmailBatch_page env tok fid options top skip w emails :
  datesValid options ->
  (forall f, env_page env (trace w) fid f top skip = Replied (Some emails)) ->
  exists emails' w',
    fetchEmailBatch env tok fid options top skip w = (Ok (Some emails'), w') /\
    List.length emails' = List.length emails /\
    omap (fileName env) emails' = omap (fileName env) emails.
Proof.
  intros Hd Hp. destruct (wantsAttachments options) eqn:Hw.
  - destruct (DownloaderFacts.fetchEmailBatch_delivers env tok fid options top skip w
                emails Hw Hd Hp) as (f & w' & Hf & _).
    eexists _, w'. split; [exact Hf|]. split.
    + apply DownloaderFacts.delivered_length.
    + apply names_delivered.
  - destruct (DownloaderFacts.buildFilter_ok options Hd) as [f Hf].
    exists emails, (emit (EvPage fid f top skip) w). split; [|split; reflexivity].
    unfold fetchEmailBatch, try_catch, bind, getPage. rewrite Hf, Hp, Hw. reflexivity.
Qed.

Lemma firstn_add {A} a b (l : list A) :
  firstn (a + b) l = (firstn a l ++ firstn b (skipn a l))%list.
Proof.
  revert l. induction a as [|a IH]; intros l; [reflexivity|].
  destruct l as [|x l]; simpl; [now rewrite firstn_nil|]. now rewrite IH.
Qed.

Section Pagination.

Variables (env : Env) (mailbox : list EmailMessage).
Variables (tok : string) (fid : FolderRef) (options : DownloadOptions) (total : Z).

Hypothesis serving : serves env mailbox.
Hypothesis valid : datesValid options.
Hypothesis positive : 0 < effectiveBatchSize options.
Hypothesis counted : total <= len mailbox.

Let n := Z.min total (limit options).

Lemma honest_loop k : forall d skip w,
  (Z.to_nat (n - d) <= k)%nat -> 0 <= d -> default 0 skip = d ->
  (while env tok fid options total (d, skip) w).1 = Ok tt /\
  written (trace (while env tok fid options total (d, skip) w).2) =
  (written (trace w) ++
   filesOf env (outputPath options)
     (firstn (Z.to_nat (n - d)) (skipn (Z.to_nat d) mailbox)))%list.
Proof.
  induction k as [k IH] using lt_wf_ind. intros d skip w Hk Hd Hskip.
  destruct (d <? total) eqn:Ht.
  2:{ rewrite DownloaderFacts.while_unfold; unfold iteration; rewrite Ht; simpl.
      apply Z.ltb_ge in Ht. replace (Z.to_nat (n - d)) with 0%nat by (subst n; lia).
      unfold ret. simpl. split; [reflexivity|]. unfold filesOf. simpl. now rewrite app_nil_r. }
  destruct (d <? limit options) eqn:Hl.
  2:{ rewrite DownloaderFacts.while_unfold; unfold iteration; rewrite Ht, Hl; simpl.
      apply Z.ltb_ge in Hl. replace (Z.to_nat (n - d)) with 0%nat by (subst n; lia).
      unfold ret. simpl. split; [reflexivity|]. unfold filesOf. simpl. now rewrite app_nil_r. }
  pose proof Ht as Ht'. pose proof Hl as Hl'0. apply Z.ltb_lt in Ht', Hl'0.
  set (r := Z.min (Z.min (effectiveBatchSize options) (limit options - d)) (total - d)).
  assert (Hr : 1 <= r <= n - d) by (subst r n; lia).
  set (w0 := emit (EvLog Info (MsgStep (d + 1) total r)) w).
  destruct (fetchEmailBatch_page env tok fid options r skip w0 (slice mailbox r skip) valid
              (fun f => serving (trace w0) fid f r skip)) as (l' & w1 & Hf & Hlen & Hnames).
  assert (Hwr : written (trace w1) = written (trace w)).
  { pose proof (fetchEmailBatch_writes_nothing env tok fid options r skip w0) as H.
    rewrite Hf in H. simpl in H. rewrite H. unfold w0, emit. simpl.
    rewrite written_app. simpl. apply app_nil_r. }
  assert (Hsl : List.length (slice mailbox r skip) = Z.to_nat r).
  { unfold slice. rewrite Hskip, length_firstn, length_skipn. unfold len in counted. lia. }
  assert (Hl' : len l' = r) by (unfold len; rewrite Hlen, Hsl; lia).
  assert (Hrun : iteration env tok fid options total (d, skip) w =
                 (Ok (Some (d + r, Some (d + r))),
                  emit (EvLog Info (MsgProgress (d + r) total))
                    (saveEmailsBatch env l' (outputPath options) w1).2)).
  { unfold iteration. rewrite Ht, Hl. simpl. fold r.
    unfold bind at 1. unfold log, record at 1. fold w0. unfold bind at 1. rewrite Hf.
    replace (len l' =? 0) with false by (symmetry; apply Z.eqb_neq; lia).
    unfold bind at 1.
    rewrite (DownloaderFacts.saveEmailsBatch_eta env l' (outputPath options) w1).
    unfold bind at 1. unfold log, record, ret. simpl.
    rewrite Hl', Z.eqb_refl. reflexivity. }
  rewrite DownloaderFacts.while_unfold, Hrun.
  set (w2 := emit _ _).
  destruct (IH (Z.to_nat (n - (d + r))) ltac:(lia) (d + r) (Some (d + r)) w2
              ltac:(lia) ltac:(lia) eq_refl) as [Ho Hw].
  split; [exact Ho|]. rewrite Hw. subst w2. unfold emit at 1. simpl.
  rewrite written_app. simpl. rewrite app_nil_r.
  rewrite staging_attempts_in_order, Hwr.
  fold (filesOf env (outputPath options) l'). rewrite <- app_assoc. f_equal.
  unfold filesOf at 1. rewrite Hnames. fold (filesOf env (outputPath options) (slice mailbox r skip)).
  rewrite <- filesOf_app. f_equal.
  unfold slice. rewrite Hskip.
  replace (Z.to_nat (n - d)) with (Z.to_nat r + Z.to_nat (n - (d + r)))%nat by lia.
  rewrite firstn_add. f_equal. f_equal.
  rewrite drop_drop. f_equal. lia.
Qed.

End Pagination.

(** Served by a provider that holds at least as many records as it counted,
    the loop ends normally and has tried to write, in order and once each,
    the files of the first min(total, limit) records of the mailbox. *)
Theorem honest_pagination env mailbox tok fid options total w :
  serves env mailbox ->
  datesValid options ->
  0 < effectiveBatchSize options ->
  total <= len mailbox ->
  (downloadEmailsBatch env tok fid options total w).1 = Ok tt /\
  written (trace (downloadEmailsBatch env tok fid options total w).2) =
  (written (trace w) ++
   filesOf env (outputPath options)
     (firstn (Z.to_nat (Z.min total (limit options))) mailbox))%list.
Proof.
  intros Hs Hv Hp Hc. unfold downloadEmailsBatch.
  destruct (honest_loop env mailbox tok fid options total Hs Hv Hp Hc
              (Z.to_nat (Z.min total (limit options))) 0 None w) as [Ho Hw];
    [lia|lia|reflexivity|].
  split; [exact Ho|]. rewrite Hw. now rewrite Z.sub_0_r.
Qed.

Lemma honest_pagination_witness :
  (downloadEmailsBatch Scenario.fullDisk "bearer" (FolderId "inbox") Scenario.defaults 3
     Scenario.signedIn).1 = Ok tt /\
  written (trace (downloadEmailsBatch Scenario.fullDisk "bearer" (FolderId "inbox")
                    Scenario.defaults 3 Scenario.signedIn).2) =
  (written (trace Scenario.signedIn) ++
   filesOf Scenario.fullDisk (outputPath Scenario.defaults)
     (firstn (Z.to_nat (Z.min 3 (limit Scenario.defaults)))
        [Scenario.first; Scenario.second; Scenario.third]))%list.
Proof.
  apply (honest_pagination Scenario.fullDisk
           [Scenario.first; Scenario.second; Scenario.third]).
  - intros h fid f top skip. reflexivity.
  - split; discriminate.
  - reflexivity.
  - vm_compute. discriminate.
Defined.

(** *** Attachment requests *)

Lemma enrich_requests env tok e w :
  attachmentRequests (trace (enrich env tok e w).2) =
  (attachmentRequests (trace w) ++ (if hasAttachments e then [id e] else []))%list.
Proof.
  unfold enrich. destruct (hasAttachments e); [|simpl; now rewrite app_nil_r].
  unfold fetchEmailAttachments, getAttachments. run.
  destruct (env_attachments env (trace w) (id e)); simpl;
    rewrite ?attachmentRequests_app; simpl; rewrite ?attachmentRequests_app; simpl;
    now rewrite ?app_nil_r.
Qed.

Lemma enrich_all_requests env tok l w :
  attachmentRequests (trace (enrich_all env tok l w).2) =
  (attachmentRequests (trace w) ++ map id (List.filter hasAttachments l))%list.
Proof.
  revert w. induction l as [|e l IH]; intros w; [simpl; now rewrite app_nil_r|].
  assert (He : exists e' w1, enrich env tok e w = (Ok e', w1)).
  { unfold enrich. destruct (hasAttachments e); [|unfold ret; eauto].
    unfold bind. rewrite DownloaderFacts.fetchEmailAttachments_run. unfold ret. eauto. }
  destruct He as (e' & w1 & He).
  destruct (DownloaderFacts.enrich_all_run env tok l w1) as (w2 & Hl & _).
  pose proof (enrich_requests env tok e w) as H1. rewrite He in H1. simpl in H1.
  pose proof (IH w1) as H2. rewrite Hl in H2. simpl in H2.
  cbn [enrich_all]. unfold bind. rewrite He, Hl. simpl. rewrite H2, H1.
  rewrite <- app_assoc. f_equal. destruct (hasAttachments e); reflexivity.
Qed.

(** An answered page request is followed by one attachment request per
    record flagged [hasAttachments], in the order of the page, when
    attachments are asked for, and by none otherwise. *)
Theorem attachments_requested_for_flagged_records
    env tok fid options top skip w emails :
  datesValid options ->
  (forall f, env_page env (trace w) fid f top skip = Replied (Some emails)) ->
  attachmentRequests (trace (fetchEmailBatch env tok fid options top skip w).2) =
  (attachmentRequests (trace w) ++
   (if wantsAttachments options then map id (List.filter hasAttachments emails) else []))%list.
Proof.
  intros Hd Hp. destruct (DownloaderFacts.buildFilter_ok options Hd) as [f Hf].
  unfold fetchEmailBatch, try_catch, bind, getPage. rewrite Hf, Hp.
  destruct (wantsAttachments options).
  - pose proof (enrich_all_requests env tok emails (emit (EvPage fid f top skip) w)) as H.
    destruct (DownloaderFacts.enrich_all_run env tok emails
                (emit (EvPage fid f top skip) w)) as (w2 & Hl & _).
    rewrite Hl in *. simpl in *. rewrite H, attachmentRequests_app. simpl.
    now rewrite app_nil_r.
  - simpl. rewrite attachmentRequests_app. simpl. now rewrite !app_nil_r.
Qed.

Lemma attachments_requested_for_flagged_records_witness :
  attachmentRequests
    (trace (fetchEmailBatch Scenario.flaky "bearer" (FolderId "inbox")
              Scenario.withAttachments 5 None Scenario.signedIn).2) =
  (attachmentRequests (trace Scenario.signedIn) ++
   (if wantsAttachments Scenario.withAttachments
    then map id (List.filter hasAttachments Scenario.five) else []))%list.
Proof.
  apply (attachments_requested_for_flagged_records Scenario.flaky "bearer"
           (FolderId "inbox") Scenario.withAttachments 5 None Scenario.signedIn
           Scenario.five).
  - split; discriminate.
  - intros f. reflexivity.
Defined.

(** *** The filter *)

(** [buildFilter] never touches the world.  It throws a [RangeError] exactly
    when one of the dates is invalid; otherwise it returns null without dates,
    the single clause with one date, and both clauses joined by and with two.
    With an invalid date neither the count nor the page is requested. *)
Theorem buildFilter_cases options w tok fid env top skip :
  (buildFilter options w).2 = w /\
  ((buildFilter options w).1 = Throw RangeError <-> ~ datesValid options) /\
  (datesValid options ->
   (buildFilter options w).1 =
   Ok match fromDate options, toDate options with
      | Some (IsoDate a), Some (IsoDate b) =>
          Some ("receivedDateTime ge " +:+ a +:+ " and receivedDateTime le " +:+ b)
      | Some (IsoDate a), None => Some ("receivedDateTime ge " +:+ a)
      | None, Some (IsoDate b) => Some ("receivedDateTime le " +:+ b)
      | _, _ => None
      end) /\
  (~ datesValid options ->
   getEmailCount env tok fid options w =
     (Throw RangeError, emit (EvLog LError (MsgCountFailed RangeError)) w) /\
   fetchEmailBatch env tok fid options top skip w =
     (Throw RangeError, emit (EvLog LError (MsgBatchFailed RangeError)) w)).
Proof.
  unfold datesValid, getEmailCount, fetchEmailBatch, buildFilter, toISOString.
  destruct (fromDate options) as [[|a]|]; destruct (toDate options) as [[|b]|];
    run; repeat split; try reflexivity; try discriminate; try tauto;
    try (intros [H1 H2]; congruence); try (intros H; exfalso; apply H; split; discriminate);
    try (match goal with H : ~ _ |- _ => exfalso; apply H; split; discriminate end).
Qed.

Lemma buildFilter_cases_witness :
  getEmailCount Scenario.quiet "bearer" (FolderId "inbox") Scenario.badRange
    Scenario.signedIn =
    (Throw RangeError, emit (EvLog LError (MsgCountFailed RangeError)) Scenario.signedIn) /\
  fetchEmailBatch Scenario.quiet "bearer" (FolderId "inbox") Scenario.badRange 50 None
    Scenario.signedIn =
    (Throw RangeError, emit (EvLog LError (MsgBatchFailed RangeError)) Scenario.signedIn).
Proof.
  apply (proj2 (proj2 (proj2 (buildFilter_cases Scenario.badRange Scenario.signedIn
                                "bearer" (FolderId "inbox") Scenario.quiet 50 None)))).
  intros [H _]. apply H. reflexivity.
Defined.

(** *** The file name *)

Lemma append_cancel_l (p a b : string) : p +:+ a = p +:+ b -> a = b.
Proof. induction p as [|c p IH]; simpl; [auto|]. intros [= H]. auto. Qed.

Lemma append_cancel_r (a b s : string) : a +:+ s = b +:+ s -> a = b.
Proof.
  intros H.
  assert (Hl : String.length a = String.length b).
  { apply (f_equal String.length) in H. rewrite !DownloaderFacts.length_append in H. lia. }
  revert b H Hl. induction a as [|c a IH]; intros [|d b] H Hl; simpl in *;
    try reflexivity; try discriminate.
  injection H as -> H. f_equal. apply IH; [exact H|lia].
Qed.

(** Two records whose dates are formatted alike and whose subjects are
    cleaned alike get the same file name only if they have the same id. *)
Theorem equal_names_need_equal_ids env e1 e2 n :
  env_formatDate env (receivedDateTime e1) = env_formatDate env (receivedDateTime e2) ->
  subjectSlug (subject e1) = subjectSlug (subject e2) ->
  fileName env e1 = Some n ->
  fileName env e2 = Some n ->
  id e1 = id e2.
Proof.
  unfold fileName. intros Hd Hs. rewrite Hd, Hs.
  destruct (env_formatDate env (receivedDateTime e2)) as [date|]; [|discriminate].
  intros [= <-] [= H].
  apply append_cancel_l, (append_cancel_l "_"), append_cancel_l, (append_cancel_l "_") in H.
  symmetry. exact (append_cancel_r _ _ _ H).
Qed.

Lemma equal_names_need_equal_ids_witness :
  id Scenario.first = id (set_attachments Scenario.first (Some [])).
Proof.
  apply (equal_names_need_equal_ids Scenario.quiet Scenario.first
           (set_attachments Scenario.first (Some []))
           "2024-05-01_10-00-00_Budget_2024_id-1.json").
  - reflexivity.
  - reflexivity.
  - vm_compute. reflexivity.
  - vm_compute. reflexivity.
Defined.

(** *** Before the loop *)

Lemma offline_refl w : offline w w.
Proof. split; [apply Relations.sameFiles_refl|apply Relations.extends_refl]. Qed.

Lemma offline_trans w1 w2 w3 : offline w1 w2 -> offline w2 w3 -> offline w1 w3.
Proof.
  intros [A1 B1] [A2 B2]. split;
    [eapply Relations.sameFiles_trans|eapply Relations.extends_trans]; eauto.
Qed.

Lemma offline_emit e w : quietEvent e -> offline w (emit e w).
Proof.
  intros H. split; [now apply Relations.sameFiles_emit|now apply Relations.extends_emit].
Qed.

Lemma quiet_log l m : quietEvent (EvLog l m).
Proof. now split. Qed.

Lemma quiet_spinner s : quietEvent (EvSpinner s).
Proof. now split. Qed.

Lemma offline_msal env : Respects offline (Auth.initializeMsal env).
Proof.
  intros w. split; [apply Relations.sameFiles_msal|].
  apply Relations.extends_msal. intros; now split.
Qed.

Lemma offline_cache env t : Respects offline (Auth.cacheToken env t).
Proof.
  intros w. split; [apply Relations.sameFiles_cache|].
  apply Relations.extends_cache; [intros; now split|intros; now split].
Qed.

Lemma offline_isAuthenticated env : Respects offline (Auth.isAuthenticated env).
Proof.
  apply (Effects.Respects_isAuthenticated offline quietEvent offline_refl offline_trans
           offline_emit quiet_log); now split.
Qed.

Lemma offline_getAccessToken env : Respects offline (Auth.getAccessToken env).
Proof.
  apply (Effects.Respects_getAccessToken offline quietEvent offline_refl offline_trans
           offline_emit quiet_log (conj eq_refl eq_refl) (conj eq_refl eq_refl) env
           (offline_msal env) (offline_cache env) (conj eq_refl eq_refl)).
Qed.

(** Without an access token (none, or an empty one) the download throws
    before any file is written outside the cache directory and before any
    request to the mail provider. *)
Theorem download_needs_token env options w t :
  (Auth.getAccessToken env (emit (EvLog Info MsgHeader) (emit (EvSpinner SpinStart) w))).1
    = Ok t ->
  default "" t = "" ->
  (downloadEmails env options w).1 = Throw NoAccessToken /\
  fs (downloadEmails env options w).2 = fs w /\
  extends quietEvent w (downloadEmails env options w).2.
Proof.
  intros Ht He.
  set (w0 := emit (EvLog Info MsgHeader) (emit (EvSpinner SpinStart) w)) in *.
  pose proof (offline_getAccessToken env w0) as Hloc.
  apply pair_eta in Ht.
  assert (Hrun : downloadEmails env options w =
                 (Throw NoAccessToken,
                  emit (EvSpinner SpinFail) (Auth.getAccessToken env w0).2)).
  { unfold downloadEmails. unfold bind at 1. unfold spinner, record at 1.
    unfold try_catch. unfold bind at 1. unfold log, record at 1. fold w0.
    unfold bind at 1. rewrite Ht.
    destruct t as [[|c s]|]; simpl in He; try discriminate; reflexivity. }
  rewrite Hrun. split; [reflexivity|].
  assert (H : offline w (emit (EvSpinner SpinFail) (Auth.getAccessToken env w0).2)).
  { eapply offline_trans; [|apply offline_emit, quiet_spinner].
    eapply offline_trans; [|exact Hloc].
    eapply offline_trans; apply offline_emit; [apply quiet_spinner|apply quiet_log]. }
  exact H.
Qed.

Lemma download_needs_token_witness :
  (downloadEmails Scenario.quiet Scenario.defaults Scenario.emptyWorld).1
    = Throw NoAccessToken /\
  fs (downloadEmails Scenario.quiet Scenario.defaults Scenario.emptyWorld).2
    = fs Scenario.emptyWorld /\
  extends quietEvent Scenario.emptyWorld
    (downloadEmails Scenario.quiet Scenario.defaults Scenario.emptyWorld).2.
Proof.
  apply (download_needs_token Scenario.quiet Scenario.defaults Scenario.emptyWorld None).
  - vm_compute. reflexivity.
  - reflexivity.
Defined.

(** With a token, a failure of one of the steps before the loop ends the
    download at once with a failed spinner: an unwritable output directory
    with its error wrapped, before any request; a failed folder lookup and a
    failed count with their own error. *)
Theorem download_fails_fast env options w tok w1 :
  Auth.getAccessToken env (emit (EvLog Info MsgHeader) (emit (EvSpinner SpinStart) w))
    = (Ok (Some tok), w1) ->
  tok <> "" ->
  (forall err,
     env_disk env (trace w1) (outputPath options) ".keep" = Some err ->
     downloadEmails env options w =
     (Throw (OutputDirError err),
      emit (EvSpinner SpinFail) (emit (EvWrite (outputPath options) ".keep" false) w1))) /\
  (forall w2 e w3,
     ensureOutputDirectory env (outputPath options) w1 = (Ok tt, w2) ->
     getFolderId env tok (folder options)
       (emit (EvSpinner (SpinText "Finding target folder...")) w2) = (Throw e, w3) ->
     downloadEmails env options w = (Throw e, emit (EvSpinner SpinFail) w3)) /\
  (forall w2 fid w3 e w4,
     ensureOutputDirectory env (outputPath options) w1 = (Ok tt, w2) ->
     getFolderId env tok (folder options)
       (emit (EvSpinner (SpinText "Finding target folder...")) w2) = (Ok fid, w3) ->
     getEmailCount env tok fid options
       (emit (EvSpinner (SpinText "Counting emails...")) w3) = (Throw e, w4) ->
     downloadEmails env options w = (Throw e, emit (EvSpinner SpinFail) w4)).
Proof.
  intros Ht Hne. apply is_empty_false in Hne.
  assert (Hstart : forall k : string -> M unit,
            (spinner SpinStart;;
             try_catch
               (log Info MsgHeader;;
                let* accessToken := Auth.getAccessToken env in
                match accessToken with
                | None => throw NoAccessToken
                | Some accessToken =>
                    if Str.is_empty accessToken then throw NoAccessToken
                    else k accessToken
                end)
               (fun e => spinner SpinFail;; throw e)) w =
            try_catch (k tok) (fun e => spinner SpinFail;; throw e) w1).
  { intros k. unfold bind at 1. unfold spinner at 1, record at 1.
    unfold try_catch. unfold bind at 1. unfold log at 1, record at 1.
    unfold bind at 1. rewrite Ht, Hne. reflexivity. }
  unfold downloadEmails.
  rewrite (Hstart (fun accessToken =>
    ensureOutputDirectory env (outputPath options);;
    spinner (SpinText "Finding target folder...");;
    let* folderId := getFolderId env accessToken (folder options) in
    spinner (SpinText "Counting emails...");;
    let* totalEmails := getEmailCount env accessToken folderId options in
    if totalEmails =? 0 then
      spinner SpinSucceedNone;;
      log Info MsgFooter
    else
      log Info (MsgFound totalEmails);;
      spinner (SpinText "Downloading emails...");;
      downloadEmailsBatch env accessToken folderId options totalEmails;;
      spinner (SpinSucceed totalEmails);;
      log Info MsgFooter)).
  unfold try_catch.
  split; [|split].
  - intros err Hdisk. unfold bind at 1.
    unfold ensureOutputDirectory, try_catch, write. rewrite Hdisk. reflexivity.
  - intros w2 e w3 Hens Hfid. unfold bind at 1. rewrite Hens.
    unfold bind at 1. unfold spinner at 1, record at 1. unfold bind at 1.
    rewrite Hfid. reflexivity.
  - intros w2 fid w3 e w4 Hens Hfid Hcount. unfold bind at 1. rewrite Hens.
    unfold bind at 1. unfold spinner at 1, record at 1. unfold bind at 1.
    rewrite Hfid. unfold bind at 1. unfold spinner at 1, record at 1. unfold bind at 1.
    rewrite Hcount. reflexivity.
Qed.

Lemma download_fails_fast_witness :
  downloadEmails Scenario.readOnly Scenario.defaults Scenario.signedIn =
  (Throw (OutputDirError (IoError "EROFS")),
   emit (EvSpinner SpinFail)
     (emit (EvWrite (outputPath Scenario.defaults) ".keep" false)
        (Auth.getAccessToken Scenario.readOnly
           (emit (EvLog Info MsgHeader) (emit (EvSpinner SpinStart) Scenario.signedIn))).2)).
Proof.
  apply (proj1 (download_fails_fast Scenario.readOnly Scenario.defaults Scenario.signedIn
                  "bearer" _ (pair_eta _ _ eq_refl) ltac:(discriminate))).
  reflexivity.
Defined.

(** *** How a download ends *)

Lemma EndsWith_bind {A B} ev (m : M A) (k : A -> M B) :
  (forall a, EndsWith ev (k a)) -> EndsWith ev (bind m k).
Proof.
  intros Hk w b w'. unfold bind. destruct (m w) as [[a|e|c] w1]; try discriminate.
  apply Hk.
Qed.

Lemma EndsWith_record ev : EndsWith ev (record ev).
Proof. intros w a w' [= _ <-]. simpl. apply last_snoc. Qed.

Lemma EndsWith_throw {A} ev e : EndsWith ev (@throw A e).
Proof. intros w a w'. discriminate. Qed.

(** [downloadEmails] never ends the process.  When it returns, the footer
    was logged last; when it throws, the spinner was failed last. *)
Theorem download_ends_with_footer_or_failed_spinner env options w :
  match (downloadEmails env options w).1 with
  | Ok _ => last (trace (downloadEmails env options w).2) = Some (EvLog Info MsgFooter)
  | Throw _ => last (trace (downloadEmails env options w).2) = Some (EvSpinner SpinFail)
  | Exit _ => False
  end.
Proof.
  pose proof (Outcomes.Running_downloadEmails env options w) as Hrun.
  destruct (downloadEmails env options w) as [[[]|e|c] w'] eqn:Hd; simpl in *;
    [| |exact Hrun].
  - revert Hd. unfold downloadEmails. unfold bind at 1. unfold spinner at 1, record at 1.
    unfold try_catch.
    match goal with
    | |- context [match ?body ?w0 with _ => _ end] =>
        assert (He : EndsWith (EvLog Info MsgFooter) body)
    end.
    { apply EndsWith_bind. intros _. apply EndsWith_bind. intros [tok|]; [|apply EndsWith_throw].
      destruct (Str.is_empty tok); [apply EndsWith_throw|].
      repeat (apply EndsWith_bind; intros ?).
      destruct (_ =? 0); repeat (apply EndsWith_bind; intros ?); apply EndsWith_record. }
    match goal with
    | |- context [match ?body ?w0 with _ => _ end] =>
        specialize (He w0); destruct (body w0) as [[[]|e|c] w1]
    end.
    + intros [= <-]. now apply (He tt).
    + unfold bind, spinner, record, throw. discriminate.
    + discriminate.
  - revert Hd. unfold downloadEmails. unfold bind at 1. unfold spinner at 1, record at 1.
    unfold try_catch.
    match goal with
    | |- context [match ?body ?w0 with _ => _ end] =>
        destruct (body w0) as [[[]|e'|c] w1]
    end; try discriminate.
    unfold bind, spinner, record, throw. intros [= _ <-]. simpl. apply last_snoc.
Qed.

(** *** A whole download *)

Lemma written_emit e w : isWrite e = false -> written (trace (emit e w)) = written (trace w).
Proof.
  intros H. unfold emit. simpl. rewrite written_app.
  destruct e; try discriminate; simpl; apply app_nil_r.
Qed.

(** With a token, an output directory and a folder, and a provider that
    serves the pages of a mailbox holding at least as many records as it
    counts: the download returns, and after the folder was found it has tried
    to write, in order and once each, the files of the first
    min(count, limit) records of the mailbox, and nothing else. *)
Theorem download_stages_the_mailbox env options w tok w1 w2 fid w3 data mailbox :
  Auth.getAccessToken env (emit (EvLog Info MsgHeader) (emit (EvSpinner SpinStart) w))
    = (Ok (Some tok), w1) ->
  tok <> "" ->
  ensureOutputDirectory env (outputPath options) w1 = (Ok tt, w2) ->
  getFolderId env tok (folder options)
    (emit (EvSpinner (SpinText "Finding target folder...")) w2) = (Ok fid, w3) ->
  datesValid options ->
  (forall f, env_count env (trace (emit (EvSpinner (SpinText "Counting emails...")) w3)) fid f
             = Replied data) ->
  serves env mailbox ->
  0 < effectiveBatchSize options ->
  count_of data <= len mailbox ->
  (downloadEmails env options w).1 = Ok tt /\
  written (trace (downloadEmails env options w).2) =
  (written (trace w3) ++
   filesOf env (outputPath options)
     (firstn (Z.to_nat (Z.min (count_of data) (limit options))) mailbox))%list.
Proof.
  intros Ht Hne Hens Hfid Hd Hc Hs Hb Hlen. apply is_empty_false in Hne.
  destruct (DownloaderFacts.getEmailCount_outcome env tok fid options _ data Hd Hc)
    as [f Hcount].
  set (total := Z.min (count_of data) (limit options)) in *.
  set (w4 := emit (EvCount fid f) _) in Hcount.
  assert (Hw4 : written (trace w4) = written (trace w3)).
  { unfold w4. now rewrite !written_emit. }
  assert (Hrun : downloadEmails env options w =
      try_catch
        (if total =? 0 then
           spinner SpinSucceedNone;;
           log Info MsgFooter
         else
           log Info (MsgFound total);;
           spinner (SpinText "Downloading emails...");;
           downloadEmailsBatch env tok fid options total;;
           spinner (SpinSucceed total);;
           log Info MsgFooter)
        (fun e => spinner SpinFail;; throw e) w4).
  { unfold downloadEmails. unfold bind at 1. unfold spinner at 1, record at 1.
    unfold try_catch. unfold bind at 1. unfold log at 1, record at 1.
    unfold bind at 1. rewrite Ht, Hne. unfold bind at 1. rewrite Hens.
    unfold bind at 1. unfold spinner at 1, record at 1. unfold bind at 1.
    rewrite Hfid. unfold bind at 1. unfold spinner at 1, record at 1. unfold bind at 1.
    rewrite Hcount. reflexivity. }
  rewrite Hrun. unfold try_catch. destruct (total =? 0) eqn:H0.
  - apply Z.eqb_eq in H0. rewrite H0. unfold bind, spinner, log, record. simpl.
    split; [reflexivity|].
    rewrite !written_app. simpl. rewrite ?app_nil_r. reflexivity.
  - set (w5 := emit (EvSpinner (SpinText "Downloading emails..."))
                 (emit (EvLog Info (MsgFound total)) w4)).
    destruct (honest_loop env mailbox tok fid options total Hs Hd Hb
                ltac:(subst total; lia) (Z.to_nat (Z.min total (limit options))) 0 None w5)
      as [Ho Hw]; [lia|lia|reflexivity|].
    apply pair_eta in Ho.
    assert (Hall :
      (let (o, w') :=
         (log Info (MsgFound total);;
          spinner (SpinText "Downloading emails...");;
          downloadEmailsBatch env tok fid options total;;
          spinner (SpinSucceed total);;
          log Info MsgFooter) w4 in
       match o with
       | Ok a => (Ok a, w')
       | Throw e => (spinner SpinFail;; throw e) w'
       | Exit code => (Exit code, w')
       end) =
      (Ok tt, emit (EvLog Info MsgFooter)
                (emit (EvSpinner (SpinSucceed total))
                   (while env tok fid options total (0, None) w5).2))).
    { unfold bind at 1. unfold log at 1, record at 1. unfold bind at 1.
      unfold spinner at 1, record at 1. unfold bind at 1. unfold downloadEmailsBatch.
      fold w5. rewrite Ho. reflexivity. }
    rewrite Hall. split; [reflexivity|].
    simpl. rewrite !written_app. simpl. rewrite !app_nil_r.
    rewrite Hw. unfold w5. rewrite !written_emit by reflexivity. rewrite Hw4.
    rewrite Z.sub_0_r. do 3 f_equal. subst total. lia.
Qed.

Lemma download_stages_the_mailbox_witness :
  let w1 := (Auth.getAccessToken Scenario.healthy
               (emit (EvLog Info MsgHeader)
                  (emit (EvSpinner SpinStart) Scenario.signedIn))).2 in
  let w2 := (ensureOutputDirectory Scenario.healthy
               (outputPath Scenario.defaults) w1).2 in
  let w3 := (getFolderId Scenario.healthy "bearer" (folder Scenario.defaults)
               (emit (EvSpinner (SpinText "Finding target folder...")) w2)).2 in
  (downloadEmails Scenario.healthy Scenario.defaults Scenario.signedIn).1 = Ok tt /\
  written (trace (downloadEmails Scenario.healthy Scenario.defaults
                    Scenario.signedIn).2) =
  (written (trace w3) ++
   filesOf Scenario.healthy (outputPath Scenario.defaults)
     (firstn (Z.to_nat (Z.min (count_of (CountNumber 3)) (limit Scenario.defaults)))
        [Scenario.first; Scenario.second; Scenario.third]))%list.
Proof.
  intros w1 w2 w3.
  apply (download_stages_the_mailbox Scenario.healthy Scenario.defaults
           Scenario.signedIn "bearer" w1 w2 (FolderId "inbox") w3 (CountNumber 3)
           [Scenario.first; Scenario.second; Scenario.third]).
  - apply pair_eta. vm_compute. reflexivity.
  - discriminate.
  - apply pair_eta. vm_compute. reflexivity.
  - apply pair_eta. vm_compute. reflexivity.
  - split; discriminate.
  - intros f. reflexivity.
  - intros h fid f top skip. reflexivity.
  - reflexivity.
  - vm_compute. discriminate.
Defined.

(** *** A page without records *)

(** A turn of the loop whose page brings no record.  A rejected request is
    logged and ends the loop with its error.  An answer without a [value]
    ends it with a [TypeError], logged only when attachments were asked for
    (the error then comes from inside [fetchEmailBatch]).  An empty page ends
    the loop normally.  In each case the turn has sent the one page request
    and written nothing. *)
Theorem turn_without_records env tok fid options total d skip w :
  d < total -> d < limit options -> datesValid options ->
  exists f,
    let top := Z.min (Z.min (effectiveBatchSize options) (limit options - d)) (total - d) in
    let w0 := emit (EvLog Info (MsgStep (d + 1) total top)) w in
    let asked := emit (EvPage fid f top skip) w0 in
    (forall e,
       (forall f', env_page env (trace w0) fid f' top skip = Rejected e) ->
       while env tok fid options total (d, skip) w =
       (Throw e, emit (EvLog LError (MsgBatchFailed e)) asked)) /\
    ((forall f', env_page env (trace w0) fid f' top skip = Replied None) ->
     while env tok fid options total (d, skip) w =
     (Throw TypeError,
      if wantsAttachments options
      then emit (EvLog LError (MsgBatchFailed TypeError)) asked else asked)) /\
    ((forall f', env_page env (trace w0) fid f' top skip = Replied (Some [])) ->
     while env tok fid options total (d, skip) w = (Ok tt, asked)).
Proof.
  intros Ht Hl Hd. destruct (DownloaderFacts.buildFilter_ok options Hd) as [f Hf].
  exists f. intros top w0 asked.
  apply Z.ltb_lt in Ht, Hl.
  assert (Hstep : forall r,
            fetchEmailBatch env tok fid options top skip w0 = r ->
            iteration env tok fid options total (d, skip) w =
            (let (o, w') := r in
             match o with
             | Ok (Some emails) =>
                 (if len emails =? 0 then ret None
                  else
                    saveEmailsBatch env emails (outputPath options);;
                    log Info (MsgProgress (d + len emails) total);;
                    ret (Some (d + len emails,
                               if len emails =? top
                               then Some (getNextPageToken (d + len emails)
                                            (effectiveBatchSize options))
                               else None))) w'
             | Ok None => throw TypeError w'
             | Throw e => (Throw e, w')
             | Exit c => (Exit c, w')
             end)).
  { intros r <-. unfold iteration. rewrite Ht, Hl. simpl. fold top.
    unfold bind at 1. unfold log at 1, record at 1. fold w0. unfold bind at 1.
    destruct (fetchEmailBatch env tok fid options top skip w0) as [[[l|]|e|c] w1];
      reflexivity. }
  split; [|split].
  - intros e Hp. rewrite DownloaderFacts.while_unfold.
    rewrite (Hstep (Throw e, emit (EvLog LError (MsgBatchFailed e)) asked)); [reflexivity|].
    unfold fetchEmailBatch, try_catch, bind, getPage. rewrite Hf, Hp. reflexivity.
  - intros Hp. rewrite DownloaderFacts.while_unfold.
    destruct (wantsAttachments options) eqn:Hw.
    + rewrite (Hstep (Throw TypeError, emit (EvLog LError (MsgBatchFailed TypeError)) asked));
        [reflexivity|].
      unfold fetchEmailBatch, try_catch, bind, getPage. rewrite Hf, Hp, Hw. reflexivity.
    + rewrite (Hstep (Ok None, asked)); [reflexivity|].
      unfold fetchEmailBatch, try_catch, bind, getPage. rewrite Hf, Hp, Hw. reflexivity.
  - intros Hp. rewrite DownloaderFacts.while_unfold.
    rewrite (Hstep (Ok (Some []), asked)); [reflexivity|].
    unfold fetchEmailBatch, try_catch, bind, getPage. rewrite Hf, Hp.
    destruct (wantsAttachments options); reflexivity.
Qed.

Lemma turn_without_records_witness :
  exists f,
    while Scenario.quiet "bearer" (FolderId "inbox") Scenario.defaults 3 (0, None)
      Scenario.signedIn =
    (Ok tt,
     emit (EvPage (FolderId "inbox") f 3 None)
       (emit (EvLog Info (MsgStep 1 3 3)) Scenario.signedIn)).
Proof.
  destruct (turn_without_records Scenario.quiet "bearer" (FolderId "inbox")
              Scenario.defaults 3 0 None Scenario.signedIn)
    as (f & _ & _ & H); [reflexivity|reflexivity|split; discriminate|].
  exists f. apply H. intros f'. reflexivity.
Defined.

End DownloaderMore.

(** ** The commands *)

Module CliMore.
Import Cli.

Lemma ExitsWith1_Running {A} (m : M A) : Running m -> ExitsWith1 m.
Proof. intros H w c Hc. specialize (H w). rewrite Hc in H. destruct H. Qed.

Lemma ExitsWith1_bind {A B} (m : M A) (k : A -> M B) :
  ExitsWith1 m -> (forall a, ExitsWith1 (k a)) -> ExitsWith1 (bind m k).
Proof.
  intros Hm Hk w c. unfold bind. specialize (Hm w).
  destruct (m w) as [[a|e|c'] w1]; simpl in *; [apply Hk|discriminate|].
  intros [= <-]. now apply Hm.
Qed.

Lemma ExitsWith1_exit {A} : ExitsWith1 (@exit A 1).
Proof. intros w c [= <-]. reflexivity. Qed.

(** A command body under the handler of the commands: errors become exit
    code 1. *)
Lemma command_settled (body : M unit) l msg w :
  settled (try_catch body (fun e => log l (msg e);; exit 1) w).1.
Proof.
  unfold try_catch. destruct (body w) as [[[]|e|c] w1]; simpl; exact I.
Qed.

Lemma command_finished (body : M unit) l msg w :
  ExitsWith1 body ->
  finished (try_catch body (fun e => log l (msg e);; exit 1) w).1.
Proof.
  intros H. unfold try_catch. specialize (H w).
  destruct (body w) as [[[]|e|c] w1]; simpl in *.
  - now left.
  - now right.
  - right. f_equal. now apply H.
Qed.

Lemma guard_exits (b : bool) :
  ExitsWith1 (if negb b then log LError MsgNotAuthenticated;; exit 1 else ret tt).
Proof.
  destruct b; simpl.
  - apply ExitsWith1_Running, Outcomes.Running_ret.
  - apply ExitsWith1_bind; [apply ExitsWith1_Running, Outcomes.Running_log|].
    intros _. apply ExitsWith1_exit.
Qed.

Lemma isAuthenticated_exits env : ExitsWith1 (Auth.isAuthenticated env).
Proof.
  apply ExitsWith1_Running, Outcomes.Returning_Running, Outcomes.Returning_isAuthenticated.
Qed.

Lemma downloadEmails_exits env options : ExitsWith1 (Downloader.downloadEmails env options).
Proof. apply ExitsWith1_Running, Outcomes.Running_downloadEmails. Qed.

Lemma log_exits l m : ExitsWith1 (log l m).
Proof. apply ExitsWith1_Running, Outcomes.Running_log. Qed.

Lemma removeDir_exits env dir : ExitsWith1 (removeDir env dir).
Proof.
  intros w c. unfold removeDir. destruct (env_rm env (trace w) dir); discriminate.
Qed.

(** No command ends with an uncaught error.  [download] and [auth] return
    or exit with code 1; so do [full] and [export] when the exporter does not
    end the process itself. *)
Theorem commands_return_or_exit env exportToMbox deviceCode w :
  (forall o, finished (download env o w).1) /\
  (forall reset, finished (auth env deviceCode reset w).1) /\
  (forall o, settled (full env exportToMbox o w).1) /\
  (forall o, settled (export exportToMbox o w).1) /\
  ((forall o, Running (exportToMbox o)) ->
   (forall o, finished (full env exportToMbox o w).1) /\
   (forall o, finished (export exportToMbox o w).1)).
Proof.
  split; [|split; [|split; [|split]]].
  - intros o. unfold download.
    apply (command_finished _ LError (fun _ => MsgText "Download error")).
    apply ExitsWith1_bind; [apply isAuthenticated_exits|]. intros b.
    apply ExitsWith1_bind; [apply guard_exits|]. intros _.
    apply ExitsWith1_bind; [apply downloadEmails_exits|]. intros _. apply log_exits.
  - intros reset. unfold auth.
    apply (command_finished _ LError (fun _ => MsgText "Authentication error")).
    apply ExitsWith1_bind.
    + destruct reset; [|apply ExitsWith1_Running, Outcomes.Running_ret].
      apply ExitsWith1_bind;
        [apply ExitsWith1_Running, Outcomes.Returning_Running, Outcomes.Returning_clearAuth|].
      intros _. apply ExitsWith1_Running, Outcomes.Running_log.
    + intros _. apply ExitsWith1_bind;
        [apply ExitsWith1_Running, Outcomes.Returning_Running, Outcomes.Returning_authenticate|].
      intros [|]; [apply ExitsWith1_Running, Outcomes.Running_log|].
      apply ExitsWith1_bind; [apply ExitsWith1_Running, Outcomes.Running_log|].
      intros _. apply ExitsWith1_exit.
  - intros o. apply command_settled.
  - intros o. apply (command_settled _ LError (fun _ => MsgText "Export error")).
  - intros Hexp. split; intros o.
    + apply command_finished.
      apply ExitsWith1_bind; [apply isAuthenticated_exits|]. intros b.
      apply ExitsWith1_bind; [apply guard_exits|]. intros _.
      apply ExitsWith1_bind; [apply downloadEmails_exits|]. intros _.
      apply ExitsWith1_bind; [apply ExitsWith1_Running, Hexp|]. intros _.
      apply ExitsWith1_bind; [apply removeDir_exits|]. intros _. apply log_exits.
    + apply (command_finished _ LError (fun _ => MsgText "Export error")).
      apply ExitsWith1_bind; [apply ExitsWith1_Running, Hexp|]. intros _. apply log_exits.
Qed.

Lemma commands_return_or_exit_witness :
  finished (full Scenario.quiet Scenario.exporter Scenario.fullDefaults
              Scenario.emptyWorld).1.
Proof.
  exact (proj1 (proj2 (proj2 (proj2 (proj2
           (commands_return_or_exit Scenario.quiet Scenario.exporter Scenario.signsIn
              Scenario.emptyWorld)))) (fun o w => I)) Scenario.fullDefaults).
Defined.

(** A command run without a valid cached token: [full] and [download] log
    the error and exit with code 1.  No file has changed, nothing was asked
    of the mail provider, and the exporter did not run. *)
Theorem unauthenticated_commands_stop env exportToMbox o d w :
  (Auth.isAuthenticated env w).1 = Ok false ->
  full env exportToMbox o w =
    (Exit 1, emit (EvLog LError MsgNotAuthenticated) (Auth.isAuthenticated env w).2) /\
  download env d w =
    (Exit 1, emit (EvLog LError MsgNotAuthenticated) (Auth.isAuthenticated env w).2) /\
  fs (full env exportToMbox o w).2 = fs w /\
  extends quietEvent w (full env exportToMbox o w).2.
Proof.
  intros Ha. apply pair_eta in Ha.
  assert (H1 : full env exportToMbox o w =
    (Exit 1, emit (EvLog LError MsgNotAuthenticated) (Auth.isAuthenticated env w).2)).
  { unfold full, try_catch. unfold bind at 1. rewrite Ha. reflexivity. }
  assert (H2 : download env d w =
    (Exit 1, emit (EvLog LError MsgNotAuthenticated) (Auth.isAuthenticated env w).2)).
  { unfold download, try_catch. unfold bind at 1. rewrite Ha. reflexivity. }
  split; [exact H1|]. split; [exact H2|]. rewrite H1.
  pose proof (DownloaderMore.offline_isAuthenticated env w) as [Hf Hq].
  split.
  - exact Hf.
  - eapply Relations.extends_trans; [exact Hq|]. apply Relations.extends_emit. now split.
Qed.

Lemma unauthenticated_commands_stop_witness :
  full Scenario.quiet Scenario.exporter Scenario.fullDefaults Scenario.emptyWorld =
    (Exit 1, emit (EvLog LError MsgNotAuthenticated)
               (Auth.isAuthenticated Scenario.quiet Scenario.emptyWorld).2) /\
  fs (full Scenario.quiet Scenario.exporter Scenario.fullDefaults Scenario.emptyWorld).2
    = fs Scenario.emptyWorld.
Proof.
  destruct (unauthenticated_commands_stop Scenario.quiet Scenario.exporter
              Scenario.fullDefaults
              {| dl_folder := "inbox"; dl_limit := 1000; dl_from := None; dl_to := None;
                 dl_output := "./emails" |}
              Scenario.emptyWorld eq_refl) as (H1 & _ & H2 & _).
  split; assumption.
Defined.

(** *** [auth] *)

Lemma isTokenValid_cache env t w :
  tokenCache (Auth.isTokenValid env t w).2 = tokenCache w.
Proof.
  unfold Auth.isTokenValid. destruct (_ || _); reflexivity.
Qed.

(** An [authenticate] that answers false has not touched the token cache. *)
Lemma authenticate_false_cache env deviceCode w :
  (Auth.authenticate env deviceCode w).1 = Ok false ->
  tokenCache (Auth.authenticate env deviceCode w).2 = tokenCache w.
Proof.
  destruct (Auth.authenticate env deviceCode w) as [o w'] eqn:Hrun. simpl.
  revert Hrun. unfold Auth.authenticate, try_catch. unfold bind at 1.
  destruct (Auth.initializeMsal env w) as [[[]|e|c] w1] eqn:Hi.
  2:{ unfold Auth.initializeMsal in Hi.
      destruct (msalInstance w); [discriminate|].
      destruct (env_msalInit env (trace w)); [|discriminate].
      injection Hi as _ <-. unfold bind, log, record, ret. simpl.
      intros [= _ <-] _. reflexivity. }
  2:{ now apply AuthFacts.initializeMsal_no_exit in Hi. }
  apply AuthFacts.initializeMsal_cache in Hi. rewrite <- Hi.
  unfold bind at 1. unfold log at 1, record at 1. unfold bind at 1.
  unfold Auth.getCachedToken. unfold bind at 1. unfold record at 1.
  set (w2 := emit EvReadCache (emit (EvLog Info MsgHeader) w1)).
  assert (Hw2 : tokenCache w2 = tokenCache w1) by reflexivity.
  cbv beta iota.
  assert (Hflow : forall w3, tokenCache w3 = tokenCache w1 ->
            (let (o, w') :=
                   (log Info Auth.startingInteractive;;
                    let* authResult := Auth.acquireTokenByDeviceCode deviceCode in
                    match authResult with
                    | Some r =>
                        Auth.cacheToken env
                          {| accessToken := sr_accessToken r; refreshToken := Some "";
                             expiresOn := sr_expiresOn r; account := sr_account r |};;
                        log Success (MsgText "Authentication successful!");;
                        log Info MsgFooter;; ret true
                    | None => ret false
                    end) w3 in
                 match o with
                 | Ok a => (Ok a, w')
                 | Throw e =>
                     (log LError (MsgText "Authentication failed");;
                      log Info MsgFooter;; ret false) w'
                 | Exit code => (Exit code, w')
                 end) = (o, w') ->
            o = Ok false -> tokenCache w' = tokenCache w1).
  { intros w3 H3. unfold bind at 1. unfold log at 1, record at 1. unfold bind at 1.
    unfold Auth.acquireTokenByDeviceCode. cbn [trace emit].
    destruct (deviceCode _) as [e|[r|]]; cbv beta iota.
    - unfold bind, log, record, ret. simpl. intros [= _ <-] _. exact H3.
    - unfold Auth.cacheToken, bind, log, record, ret. cbn [trace emit].
      destruct (env_cacheWrite env _); simpl; intros [= <- _]; discriminate.
    - unfold ret. intros [= _ <-] _. exact H3. }
  destruct (tokenCache w2) as [| |t] eqn:Hc; cbv beta iota.
  - unfold bind at 1, ret at 1. now apply Hflow.
  - unfold bind at 1, ret at 1. apply Hflow. reflexivity.
  - unfold bind at 1.
    pose proof (isTokenValid_cache env t w2) as Hv.
    destruct (Auth.isTokenValid env t w2) as [[[|]|e|c] w3]; simpl in Hv.
    + unfold bind, log, record, ret. simpl. intros [= <- _]. discriminate.
    + apply Hflow. congruence.
    + unfold bind, log, record, ret. simpl. intros [= _ <-] _. simpl. congruence.
    + intros [= <- _]. discriminate.
Qed.

(** [clearAuth] leaves no cached token when the cache file was absent or
    could be removed. *)
Lemma clearAuth_cache env w :
  tokenCache w = CacheAbsent \/ env_rm env (trace w) Auth.tokenCachePath = None ->
  tokenCache (Auth.clearAuth env w).2 = CacheAbsent.
Proof.
  unfold Auth.clearAuth, Auth.removeCacheFile, try_catch, bind, log, record.
  intros [H|H].
  - rewrite H. exact H.
  - destruct (tokenCache w) eqn:Hc; [exact Hc| |]; rewrite H; reflexivity.
Qed.

(** [auth --reset], when the cache file was absent or could be removed:
    if the command exits, no token is cached afterwards and
    [isAuthenticated] answers false. *)
Theorem failed_reset_signs_out env deviceCode w :
  tokenCache w = CacheAbsent \/ env_rm env (trace w) Auth.tokenCachePath = None ->
  (auth env deviceCode true w).1 = Exit 1 ->
  tokenCache (auth env deviceCode true w).2 = CacheAbsent /\
  (Auth.isAuthenticated env (auth env deviceCode true w).2).1 = Ok false.
Proof.
  intros Hrm Hexit.
  assert (Hc : tokenCache (auth env deviceCode true w).2 = CacheAbsent).
  { destruct (auth env deviceCode true w) as [o w'] eqn:Hrun. simpl in *. subst o.
    revert Hrun. unfold auth, try_catch. unfold bind at 1. unfold bind at 1.
    pose proof (clearAuth_cache env w Hrm) as Hclear.
    destruct (Outcomes.Returning_clearAuth env w) as [[] Hr]. apply pair_eta in Hr.
    rewrite Hr. unfold log at 1, record at 1. unfold bind at 1.
    set (w1 := emit _ _).
    assert (H1 : tokenCache w1 = CacheAbsent) by exact Hclear.
    pose proof (authenticate_false_cache env deviceCode w1) as Hf.
    destruct (Outcomes.Returning_authenticate env deviceCode w1) as [b Hb].
    rewrite Hb in Hf. apply pair_eta in Hb. rewrite Hb.
    destruct b; [discriminate|]. unfold bind, log, record, exit. simpl.
    intros [= <-]. simpl. rewrite Hf; [exact H1|reflexivity]. }
  split; [exact Hc|].
  unfold Auth.isAuthenticated, Auth.getCachedToken, try_catch, bind, record, ret. simpl.
  rewrite Hc. reflexivity.
Qed.

Lemma failed_reset_signs_out_witness :
  tokenCache (auth Scenario.quiet Scenario.declines true Scenario.signedIn).2
    = CacheAbsent /\
  (Auth.isAuthenticated Scenario.quiet
     (auth Scenario.quiet Scenario.declines true Scenario.signedIn).2).1 = Ok false.
Proof.
  apply (failed_reset_signs_out Scenario.quiet Scenario.declines Scenario.signedIn).
  - right. reflexivity.
  - vm_compute. reflexivity.
Defined.

End CliMore.

(** ** The logger *)

Module LoggerFacts.
Import Logger.

(** The threshold of the logger: errors pass at every level and everything
    passes at the debug level; success messages pass exactly when info
    messages do; at the default level, info, only debug messages are held
    back; a message that passes still passes at any level not above. *)
Theorem shouldLog_thresholds :
  (forall logLevel, shouldLog logLevel LError = true) /\
  (forall level, shouldLog Debug level = true) /\
  (forall logLevel, shouldLog logLevel Success = shouldLog logLevel Info) /\
  (forall level, shouldLog Info level = false <-> level = Debug) /\
  (forall a b level, levels a <= levels b -> shouldLog b level = true ->
                     shouldLog a level = true).
Proof.
  split; [|split; [|split; [|split]]].
  - intros []; reflexivity.
  - intros []; reflexivity.
  - intros []; reflexivity.
  - intros []; simpl; split; intros H; try reflexivity; discriminate.
  - unfold shouldLog. intros a b level H1 H2. apply Z.leb_le in H2. apply Z.leb_le. lia.
Qed.

Lemma shouldLog_thresholds_witness : shouldLog Info Warn = true.
Proof.
  apply (proj2 (proj2 (proj2 (proj2 shouldLog_thresholds))) Info Warn Warn).
  - vm_compute. discriminate.
  - reflexivity.
Defined.

End LoggerFacts.

(** ** The configuration *)

Module ConfigFacts.
Import Config.

(** [validateConfig] accepts a configuration exactly when the client id, the
    tenant id and the redirect URI are not empty and there is at least one
    scope; the cache path is not looked at.  The default configuration is
    valid.  The development configuration differs from its base in the
    redirect URI only, and is valid exactly when the base is valid apart from
    its redirect URI; the production configuration is the base. *)
Theorem validateConfig_accepts config cache :
  (validateConfig config = true <->
   clientId config <> "" /\ tenantId config <> "" /\ redirectUri config <> "" /\
   scopes config <> []) /\
  validateConfig (defaultConfig cache) = true /\
  environmentConfig false config = config /\
  (validateConfig (environmentConfig true config) = true <->
   clientId config <> "" /\ tenantId config <> "" /\ scopes config <> []).
Proof.
  unfold validateConfig, environmentConfig, requiredFields, missing. simpl.
  destruct (clientId config) as [|c1 s1], (tenantId config) as [|c2 s2],
           (redirectUri config) as [|c3 s3], (scopes config) as [|x l]; simpl;
    repeat split; try congruence; try discriminate; tauto.
Qed.

Lemma validateConfig_accepts_witness :
  validateConfig (environmentConfig true (defaultConfig "auth-cache.json")) = true.
Proof.
  apply (proj2 (proj2 (proj2 (proj2 (validateConfig_accepts
           (defaultConfig "auth-cache.json") "auth-cache.json"))))).
  repeat split; discriminate.
Defined.

End ConfigFacts.
